(** * Visualizer: orbital physics, trails and click routing

    A shallow embedding of [src/visualizer.py] (class [Visualizer]).

    Numbers.  Python [float]s are read as real numbers ([R]) and the
    functions of the [math] module as their mathematical counterparts
    ([cos], [sin], [sqrt], [atan2], [math.pi] as [PI]); Python [int]s are
    [Z].  Rounding, infinities and NaN are therefore outside the model, and
    so is the [OverflowError] of an [int] too large to be turned into a
    [float]; everything else (mutation order, exceptions, list indexing,
    dictionary defaults) follows the source line by line.

    Library calls.  A surface is modelled by the drawing calls made on it.
    [pygame.draw.line], [pygame.draw.circle] and [Surface.set_alpha] check
    their arguments before they draw, and raise; these checks are modelled
    as pygame 2 makes them, with a C [int] of 32 bits and a C [long] of 64
    bits.

    Effects.  Methods mutate [self] and may raise; they are computations
    [Run S A := S -> outcome A * S], so the state reached when an exception
    escapes is still observable, as it is on the Python object. *)

From Stdlib Require Import Reals Lra Lia ZArith Classical_Prop.
From stdpp Require Import base gmap strings list pretty.

Local Open Scope R_scope.
Set Warnings "-register-all".

(** ** Exceptions and the state monad *)

Inductive exn : Type :=
| ZeroDivisionError
| IndexError
| ValueError
| OverflowError
| TypeError.

Inductive outcome (A : Type) : Type :=
| Returned (a : A)
| Raised (e : exn).
Arguments Returned {A} a.
Arguments Raised {A} e.

Definition Run (S A : Type) : Type := S -> outcome A * S.

Definition ret {S A : Type} (a : A) : Run S A := fun s => (Returned a, s).

Definition raise {S A : Type} (e : exn) : Run S A := fun s => (Raised e, s).

Definition bind {S A B : Type} (m : Run S A) (k : A -> Run S B) : Run S B :=
  fun s =>
    match m s with
    | (Returned a, s') => k a s'
    | (Raised e, s') => (Raised e, s')
    end.

Definition get {S : Type} : Run S S := fun s => (Returned s, s).

Definition put {S : Type} (s : S) : Run S unit := fun _ => (Returned tt, s).

Definition modify {S : Type} (f : S -> S) : Run S unit :=
  fun s => (Returned tt, f s).

Notation "x <- m ;; k" := (bind m (fun x => k))
  (at level 100, m at next level, k at level 200, right associativity).
Notation "m ;; k" := (bind m (fun _ => k))
  (at level 100, k at level 200, right associativity).

(** [for i in range(start, start + n): body(i)] *)
Fixpoint for_range {S : Type} (body : nat -> Run S unit) (start n : nat)
  : Run S unit :=
  match n with
  | O => ret tt
  | Datatypes.S n' => body start ;; for_range body (Datatypes.S start) n'
  end.

(** Float division: Python raises on a zero divisor. *)
Definition py_div {S : Type} (a b : R) : Run S R :=
  if Req_dec_T b 0 then raise ZeroDivisionError else ret (a / b).

(** ** The [math] functions that the Standard Library does not name *)

(** [math.atan2(y, x)]: the angle of the point [(x, y)], in (-PI, PI],
    and 0 at the origin. *)
Definition atan2 (y x : R) : R :=
  if Rlt_dec 0 x then atan (y / x)
  else if Rlt_dec x 0 then
         if Rle_dec 0 y then atan (y / x) + PI else atan (y / x) - PI
  else if Rlt_dec 0 y then PI / 2
  else if Rlt_dec y 0 then - (PI / 2)
  else 0.

(** [a % b] on floats with [b > 0]: the result has the sign of [b]. *)
Definition py_mod (a b : R) : R := a - b * IZR (Int_part (a / b)).

(** [int(x)]: truncation toward zero. *)
Definition py_int (x : R) : Z :=
  if Rle_dec 0 x then Int_part x else (- Int_part (- x))%Z.

(** ** Data *)

Abbreviation Color := ((Z * Z * Z)%type).
Abbreviation RGBA := ((Z * Z * Z * Z)%type).

(** One entry of [self.orbs] (a dict with a fixed key set). *)
Record Orb : Type := mkOrb {
  color : Color;
  angle : R;
  deviation : R;
  radial_velocity : R;
  angular_velocity : R;
  x_velocity : R;
  y_velocity : R
}.

Definition set_angle (a : R) (o : Orb) : Orb :=
  mkOrb (color o) a (deviation o) (radial_velocity o) (angular_velocity o)
        (x_velocity o) (y_velocity o).
Definition set_deviation (d : R) (o : Orb) : Orb :=
  mkOrb (color o) (angle o) d (radial_velocity o) (angular_velocity o)
        (x_velocity o) (y_velocity o).
Definition set_radial_velocity (r : R) (o : Orb) : Orb :=
  mkOrb (color o) (angle o) (deviation o) r (angular_velocity o)
        (x_velocity o) (y_velocity o).
Definition set_x_velocity (x : R) (o : Orb) : Orb :=
  mkOrb (color o) (angle o) (deviation o) (radial_velocity o)
        (angular_velocity o) x (y_velocity o).
Definition set_y_velocity (y : R) (o : Orb) : Orb :=
  mkOrb (color o) (angle o) (deviation o) (radial_velocity o)
        (angular_velocity o) (x_velocity o) y.

(** A trail entry [(x, y, intensity)]. *)
Abbreviation TrailPoint := ((R * R * R)%type).

(** [pygame.Rect(left, top, width, height)]. *)
Record Rect : Type := mkRect {
  rect_left : Z; rect_top : Z; rect_width : Z; rect_height : Z
}.

(** [Rect.collidepoint]: the right and bottom edges are outside. *)
Definition collidepoint (r : Rect) (pos : Z * Z) : bool :=
  (rect_left r <=? fst pos)%Z && (fst pos <? rect_left r + rect_width r)%Z &&
  (rect_top r <=? snd pos)%Z && (snd pos <? rect_top r + rect_height r)%Z.

(** The [special_flags] of a blit. *)
Inductive BlendMode : Type :=
| BLEND_DEFAULT
| BLEND_ALPHA_SDL2.

(** A surface is the list of drawing commands issued on it since it was
    last filled; [fill] forgets what was there before.  A blit records the
    commands and the surface alpha of its source at that moment. *)
Inductive DrawOp : Type :=
| Fill (c : RGBA)
| Line (c : RGBA) (start_pos end_pos : R * R) (width : Z)
| Disc (c : RGBA) (centre : R * R) (radius : Z)
| Blit (source : list DrawOp) (source_alpha : Z) (dest : Z * Z)
       (special_flags : BlendMode).

Abbreviation Surface := (list DrawOp).

Definition fill (c : RGBA) : Surface := [Fill c].

(** A colour that pygame accepts: every component in 0..255. *)
Definition valid_color (c : RGBA) : bool :=
  let component x := (0 <=? x)%Z && (x <=? 255)%Z in
  component c.1.1.1 && component c.1.1.2 && component c.1.2 && component c.2.

(** The range of a C [int] and of a C [long]. *)
Definition c_int (z : Z) : bool :=
  (- 2 ^ 31 <=? z)%Z && (z <? 2 ^ 31)%Z.

Definition c_long (z : Z) : bool :=
  (- 2 ^ 63 <=? z)%Z && (z <? 2 ^ 63)%Z.

(** The value of a C [long] converted to a C [int]. *)
Definition to_c_int (z : Z) : Z :=
  ((z + 2 ^ 31) mod 2 ^ 32 - 2 ^ 31)%Z.

(** [pygame.Surface(size, SRCALPHA)]: every pixel transparent. *)
Definition new_surface : Surface := fill (0, 0, 0, 0)%Z.

(** Values found in the audio dictionary. *)
Inductive PyVal : Type :=
| PyFloat (r : R)
| PyInt (z : Z)
| PyBool (b : bool).

Definition as_number (v : PyVal) : R :=
  match v with
  | PyFloat r => r
  | PyInt z => IZR z
  | PyBool b => if b then 1 else 0
  end.

(** [audio_data]: [None] or a dict. *)
Abbreviation AudioData := (option (gmap string PyVal)).

(** [bool(audio_data)]: [None] and the empty dict are false. *)
Definition truthy (a : AudioData) : bool :=
  match a with
  | None => false
  | Some d => negb (Nat.eqb (size d) 0)
  end.

(** [pattern]: an object that is not a dict, or a dict.  Only the key
    ['trails'] is ever read, and what is stored under it is a list of
    trails. *)
Inductive Pattern : Type :=
| NotADict
| PatternDict (d : gmap string (list (list TrailPoint))).

(** The fields of [self], and the one piece of state that lives in a
    surface besides what is drawn on it: the alpha of [trail_surface],
    which [draw_conclusion] sets with [set_alpha].  It is 255 on a new
    surface.  The three fonts, which no method assigns, are left out. *)
Record Visualizer : Type := mkVisualizer {
  width : Z;
  height : Z;
  center : Z * Z;
  screenshot_mode : bool;
  main_surface : Surface;
  glow_surface : Surface;
  trail_surface : Surface;
  blur_surface : Surface;
  orbit_radius : Z;
  center_orb_radius : Z;
  orbital_orb_size : Z;
  base_speed : R;
  max_deviation : R;
  spring_constant : R;
  damping : R;
  attraction_strength : R;
  orbs : list Orb;
  trails : list (list TrailPoint);
  back_button : Rect;
  time : R;
  selection_pulse : R;
  glow_intensity : R;
  fade_alpha : Z;
  trail_surface_alpha : Z
}.

Definition set_screenshot_mode (b : bool) (v : Visualizer) : Visualizer :=
  mkVisualizer (width v) (height v) (center v) b (main_surface v)
    (glow_surface v) (trail_surface v) (blur_surface v) (orbit_radius v)
    (center_orb_radius v) (orbital_orb_size v) (base_speed v)
    (max_deviation v) (spring_constant v) (damping v) (attraction_strength v)
    (orbs v) (trails v) (back_button v) (time v) (selection_pulse v)
    (glow_intensity v) (fade_alpha v) (trail_surface_alpha v).
Definition set_glow_surface (s : Surface) (v : Visualizer) : Visualizer :=
  mkVisualizer (width v) (height v) (center v) (screenshot_mode v)
    (main_surface v) s (trail_surface v) (blur_surface v) (orbit_radius v)
    (center_orb_radius v) (orbital_orb_size v) (base_speed v)
    (max_deviation v) (spring_constant v) (damping v) (attraction_strength v)
    (orbs v) (trails v) (back_button v) (time v) (selection_pulse v)
    (glow_intensity v) (fade_alpha v) (trail_surface_alpha v).
Definition set_trail_surface (s : Surface) (v : Visualizer) : Visualizer :=
  mkVisualizer (width v) (height v) (center v) (screenshot_mode v)
    (main_surface v) (glow_surface v) s (blur_surface v) (orbit_radius v)
    (center_orb_radius v) (orbital_orb_size v) (base_speed v)
    (max_deviation v) (spring_constant v) (damping v) (attraction_strength v)
    (orbs v) (trails v) (back_button v) (time v) (selection_pulse v)
    (glow_intensity v) (fade_alpha v) (trail_surface_alpha v).
Definition set_blur_surface (s : Surface) (v : Visualizer) : Visualizer :=
  mkVisualizer (width v) (height v) (center v) (screenshot_mode v)
    (main_surface v) (glow_surface v) (trail_surface v) s (orbit_radius v)
    (center_orb_radius v) (orbital_orb_size v) (base_speed v)
    (max_deviation v) (spring_constant v) (damping v) (attraction_strength v)
    (orbs v) (trails v) (back_button v) (time v) (selection_pulse v)
    (glow_intensity v) (fade_alpha v) (trail_surface_alpha v).
Definition set_orbs (l : list Orb) (v : Visualizer) : Visualizer :=
  mkVisualizer (width v) (height v) (center v) (screenshot_mode v)
    (main_surface v) (glow_surface v) (trail_surface v) (blur_surface v)
    (orbit_radius v) (center_orb_radius v) (orbital_orb_size v) (base_speed v)
    (max_deviation v) (spring_constant v) (damping v) (attraction_strength v)
    l (trails v) (back_button v) (time v) (selection_pulse v)
    (glow_intensity v) (fade_alpha v) (trail_surface_alpha v).
Definition set_trails (t : list (list TrailPoint)) (v : Visualizer)
  : Visualizer :=
  mkVisualizer (width v) (height v) (center v) (screenshot_mode v)
    (main_surface v) (glow_surface v) (trail_surface v) (blur_surface v)
    (orbit_radius v) (center_orb_radius v) (orbital_orb_size v) (base_speed v)
    (max_deviation v) (spring_constant v) (damping v) (attraction_strength v)
    (orbs v) t (back_button v) (time v) (selection_pulse v)
    (glow_intensity v) (fade_alpha v) (trail_surface_alpha v).
Definition set_time (t : R) (v : Visualizer) : Visualizer :=
  mkVisualizer (width v) (height v) (center v) (screenshot_mode v)
    (main_surface v) (glow_surface v) (trail_surface v) (blur_surface v)
    (orbit_radius v) (center_orb_radius v) (orbital_orb_size v) (base_speed v)
    (max_deviation v) (spring_constant v) (damping v) (attraction_strength v)
    (orbs v) (trails v) (back_button v) t (selection_pulse v)
    (glow_intensity v) (fade_alpha v) (trail_surface_alpha v).
Definition set_selection_pulse (p : R) (v : Visualizer) : Visualizer :=
  mkVisualizer (width v) (height v) (center v) (screenshot_mode v)
    (main_surface v) (glow_surface v) (trail_surface v) (blur_surface v)
    (orbit_radius v) (center_orb_radius v) (orbital_orb_size v) (base_speed v)
    (max_deviation v) (spring_constant v) (damping v) (attraction_strength v)
    (orbs v) (trails v) (back_button v) (time v) p
    (glow_intensity v) (fade_alpha v) (trail_surface_alpha v).
Definition set_glow_intensity (g : R) (v : Visualizer) : Visualizer :=
  mkVisualizer (width v) (height v) (center v) (screenshot_mode v)
    (main_surface v) (glow_surface v) (trail_surface v) (blur_surface v)
    (orbit_radius v) (center_orb_radius v) (orbital_orb_size v) (base_speed v)
    (max_deviation v) (spring_constant v) (damping v) (attraction_strength v)
    (orbs v) (trails v) (back_button v) (time v) (selection_pulse v)
    g (fade_alpha v) (trail_surface_alpha v).
Definition set_fade_alpha (a : Z) (v : Visualizer) : Visualizer :=
  mkVisualizer (width v) (height v) (center v) (screenshot_mode v)
    (main_surface v) (glow_surface v) (trail_surface v) (blur_surface v)
    (orbit_radius v) (center_orb_radius v) (orbital_orb_size v) (base_speed v)
    (max_deviation v) (spring_constant v) (damping v) (attraction_strength v)
    (orbs v) (trails v) (back_button v) (time v) (selection_pulse v)
    (glow_intensity v) a (trail_surface_alpha v).
Definition set_trail_surface_alpha (a : Z) (v : Visualizer) : Visualizer :=
  mkVisualizer (width v) (height v) (center v) (screenshot_mode v)
    (main_surface v) (glow_surface v) (trail_surface v) (blur_surface v)
    (orbit_radius v) (center_orb_radius v) (orbital_orb_size v) (base_speed v)
    (max_deviation v) (spring_constant v) (damping v) (attraction_strength v)
    (orbs v) (trails v) (back_button v) (time v) (selection_pulse v)
    (glow_intensity v) (fade_alpha v) a.

(** ** The methods of [Visualizer] *)

(** [__init__(width, height)] *)
Definition init_orb (base_speed : R) (ca : Color * R) : Orb :=
  mkOrb (fst ca) (snd ca) 0 0 base_speed 0 0.

Definition init (w h : Z) : Visualizer :=
  let orbit_radius := (Z.min w h / 4)%Z in
  let base_speed := 0.001 in
  let orbs :=
    init_orb base_speed <$>
      [ ((80, 180, 255)%Z, 0);
        ((255, 80, 150)%Z, 2 * PI / 5);
        ((255, 200, 80)%Z, 4 * PI / 5);
        ((200, 255, 80)%Z, 6 * PI / 5);
        ((230, 130, 255)%Z, 8 * PI / 5) ] in
  {| width := w;
     height := h;
     center := ((w / 2)%Z, (h / 2)%Z);
     screenshot_mode := false;
     main_surface := new_surface;
     glow_surface := new_surface;
     trail_surface := new_surface;
     blur_surface := new_surface;
     orbit_radius := orbit_radius;
     center_orb_radius := 85;
     orbital_orb_size := 6;
     base_speed := base_speed;
     max_deviation := IZR orbit_radius * 1.5;
     spring_constant := 0.01;
     damping := 0.98;
     attraction_strength := 0.5;
     orbs := orbs;
     trails := replicate (length orbs) [];
     back_button := mkRect 20 20 40 40;
     time := 0;
     selection_pulse := 0;
     glow_intensity := 0;
     fade_alpha := 255;
     trail_surface_alpha := 255 |}.

(** [toggle_screenshot_mode()] *)
Definition toggle_screenshot_mode : Run Visualizer unit :=
  modify (fun v => set_screenshot_mode (negb (screenshot_mode v)) v).

(** The body of the loop of [update] for one orb, up to the point
    appended to the trail, which is its result. *)
Definition update_orb (v : Visualizer) (intensity : R) : Run Orb TrailPoint :=
  let cx := IZR (fst (center v)) in
  let cy := IZR (snd (center v)) in
  modify (fun orb => set_angle (angle orb + angular_velocity orb) orb) ;;
  orb <- get ;;
  let radius := IZR (orbit_radius v) + deviation orb in
  let current_x := cx + cos (angle orb) * radius in
  let current_y := cy + sin (angle orb) * radius in
  (if Rlt_dec 0 intensity then
     let dx := cx - current_x in
     let dy := cy - current_y in
     let dist := sqrt (dx * dx + dy * dy) in
     let attraction := attraction_strength v * intensity in
     qx <- py_div dx dist ;;
     modify (fun orb => set_x_velocity (x_velocity orb + qx * attraction) orb) ;;
     qy <- py_div dy dist ;;
     modify (fun orb => set_y_velocity (y_velocity orb + qy * attraction) orb)
   else ret tt) ;;
  orb <- get ;;
  let current_x := current_x + x_velocity orb in
  let current_y := current_y + y_velocity orb in
  let new_angle := atan2 (current_y - cy) (current_x - cx) in
  let new_radius := sqrt ((current_x - cx) ^ 2 + (current_y - cy) ^ 2) in
  modify (set_deviation (new_radius - IZR (orbit_radius v))) ;;
  modify (set_angle new_angle) ;;
  modify (fun orb => set_x_velocity (x_velocity orb * damping v) orb) ;;
  modify (fun orb => set_y_velocity (y_velocity orb * damping v) orb) ;;
  orb <- get ;;
  (if Rlt_dec 0 (Rabs (deviation orb)) then
     let return_force := - spring_constant v * deviation orb in
     modify (fun orb =>
               set_radial_velocity (radial_velocity orb + return_force) orb) ;;
     modify (fun orb => set_deviation (deviation orb + radial_velocity orb) orb) ;;
     modify (fun orb =>
               set_radial_velocity (radial_velocity orb * damping v) orb)
   else ret tt) ;;
  ret (current_x, current_y, intensity).

(** Run a computation on [self.orbs[i]], which is mutated in place. *)
Definition on_orb {A : Type} (i : nat) (m : Run Orb A) : Run Visualizer A :=
  fun v =>
    match orbs v !! i with
    | Some orb =>
        let (r, orb') := m orb in (r, set_orbs (<[i := orb']> (orbs v)) v)
    | None => (Raised IndexError, v)
    end.

(** [self.trails[i].append(p)] *)
Definition trail_append (i : nat) (p : TrailPoint) : Run Visualizer unit :=
  v <- get ;;
  match trails v !! i with
  | Some t => put (set_trails (<[i := t ++ [p]]> (trails v)) v)
  | None => raise IndexError
  end.

(** [.get(key, default)] on the audio dict *)
Definition dict_get (d : gmap string PyVal) (key : string) (dflt : PyVal)
  : PyVal :=
  default dflt (d !! key).

(** One turn of [for i, orb in enumerate(self.orbs)]. *)
Definition update_orb_at (intensity : R) (i : nat) : Run Visualizer unit :=
  v <- get ;;
  p <- on_orb i (update_orb v intensity) ;;
  trail_append i p.

(** [update(audio_data, category)].  The intensity is a number; the
    product [intensity * 0.5] is taken over the reals (for an [int] beyond
    the range of floats the code raises [OverflowError] there). *)
Definition update (audio_data : AudioData) (category : string)
  : Run Visualizer unit :=
  match audio_data with
  | None => ret tt
  | Some d =>
      if negb (truthy audio_data) then ret tt
      else
        let intensity := as_number (dict_get d "intensity" (PyInt 0)) in
        let has_peak := dict_get d "has_recent_peak" (PyBool false) in
        modify (fun v =>
                  set_glow_intensity
                    (Rmin 1 (glow_intensity v + intensity * 0.5)) v) ;;
        modify (fun v => set_glow_intensity (glow_intensity v * 0.95) v) ;;
        v <- get ;;
        for_range (update_orb_at intensity) 0 (length (orbs v)) ;;
        modify (fun v => set_time (time v + 0.016) v) ;;
        modify (fun v =>
                  set_selection_pulse
                    (py_mod (selection_pulse v + 0.05) (2 * PI)) v)
  end.

(** The segments drawn for one trail: [for j in range(1, len(trail))]. *)
Fixpoint trail_lines (c : Color) (trail : list TrailPoint) : list DrawOp :=
  match trail with
  | p :: (q :: _) as rest =>
      let start_pos := (fst (fst p), snd (fst p)) in
      let end_pos := (fst (fst q), snd (fst q)) in
      let intensity := snd q in
      let width := Z.max 4 (py_int (8 * intensity)) in
      let alpha := py_int (255 * (0.5 + intensity * 0.5)) in
      Line (c, alpha) start_pos end_pos width :: trail_lines c rest
  | _ => []
  end.

(** [pygame.draw.line(self.trail_surface, color, start_pos, end_pos,
    width)]: the width must fit a C [int] and the colour must be valid;
    nothing is drawn otherwise. *)
Definition draw_line (c : RGBA) (start_pos end_pos : R * R) (width : Z)
  : Run Visualizer unit :=
  if negb (c_int width) then raise OverflowError
  else if negb (valid_color c) then raise ValueError
  else
    modify (fun v =>
              set_trail_surface
                (trail_surface v ++ [Line c start_pos end_pos width]) v).

(** The inner loop of [draw_trails] for trail [i]:
    [for j in range(1, len(trail))].  The colour lookup [self.orbs[i]]
    sits inside it, so an index without an orb raises at the first
    segment; a segment that pygame refuses raises after the segments
    before it have been drawn. *)
Fixpoint draw_segments (i : nat) (trail : list TrailPoint)
  : Run Visualizer unit :=
  match trail with
  | p :: (q :: _) as rest =>
      let start_pos := (fst (fst p), snd (fst p)) in
      let end_pos := (fst (fst q), snd (fst q)) in
      let intensity := snd q in
      let width := Z.max 4 (py_int (8 * intensity)) in
      let alpha := py_int (255 * (0.5 + intensity * 0.5)) in
      v <- get ;;
      match orbs v !! i with
      | None => raise IndexError
      | Some orb =>
          draw_line (color orb, alpha) start_pos end_pos width ;;
          draw_segments i rest
      end
  | _ => ret tt
  end.

(** One turn of [for i, trail in enumerate(self.trails)]. *)
Definition draw_trail (i : nat) : Run Visualizer unit :=
  v <- get ;;
  match trails v !! i with
  | None => raise IndexError
  | Some trail =>
      if (length trail <? 2)%nat then ret tt
      else draw_segments i trail
  end.

(** [draw_trails(surface)]; the result is [surface] after the blit, which
    is the last thing the method does. *)
Definition draw_trails (surface : Surface) : Run Visualizer Surface :=
  modify (set_trail_surface (fill (0, 0, 0, 0)%Z)) ;;
  v <- get ;;
  for_range draw_trail 0 (length (trails v)) ;;
  v <- get ;;
  ret (surface ++
       [Blit (trail_surface v) (trail_surface_alpha v) (0, 0)%Z
             BLEND_ALPHA_SDL2]).

(** [handle_click(pos)] *)
Definition handle_click (v : Visualizer) (pos : Z * Z) : option string :=
  if collidepoint (back_button v) pos && negb (screenshot_mode v)
  then Some "selection"%string
  else None.

(** [reset()] *)
Definition reset_orb (orb : Orb) : Orb :=
  set_y_velocity 0
    (set_x_velocity 0 (set_radial_velocity 0 (set_deviation 0 orb))).

Definition reset : Run Visualizer unit :=
  modify (fun v => set_orbs (reset_orb <$> orbs v) v) ;;
  modify (set_glow_intensity 0) ;;
  modify (set_fade_alpha 255) ;;
  modify (set_screenshot_mode false) ;;
  modify (fun v => set_trails (replicate (length (orbs v)) []) v) ;;
  modify (set_trail_surface (fill (0, 0, 0, 0)%Z)) ;;
  modify (set_glow_surface (fill (0, 0, 0, 0)%Z)) ;;
  modify (set_blur_surface (fill (0, 0, 0, 0)%Z)).

(** [draw_stored_pattern(screen, pattern)]; the result is [screen] after
    the call. *)
Definition draw_stored_pattern (screen : Surface) (pattern : Pattern)
  : Run Visualizer Surface :=
  match pattern with
  | PatternDict d =>
      match d !! "trails"%string with
      | Some stored =>
          modify (set_trails stored) ;;
          screen' <- draw_trails screen ;;
          modify (fun v => set_trails (replicate (length (orbs v)) []) v) ;;
          ret screen'
      | None => ret screen
      end
  | NotADict => ret screen
  end.

(** [pygame.draw.circle(self.glow_surface, color, pos, radius)]: the
    radius must fit a C [long] and the colour must be valid; nothing is
    drawn otherwise. *)
Definition draw_circle (c : RGBA) (pos : R * R) (radius : Z)
  : Run Visualizer unit :=
  if negb (c_long radius) then raise TypeError
  else if negb (valid_color c) then raise ValueError
  else
    modify (fun v =>
              set_glow_surface (glow_surface v ++ [Disc c pos radius]) v).

(** [draw_orb(surface, pos, color, size, intensity)]; the result is
    [surface] after the blit, which is the last thing the method does.
    The halo is [for r in range(max_radius, 0, -1)]. *)
Definition draw_orb (surface : Surface) (pos : R * R) (c : Color) (size : Z)
    (intensity : R) : Run Visualizer Surface :=
  modify (set_glow_surface (fill (0, 0, 0, 0)%Z)) ;;
  let max_radius := py_int (12 * (1 + intensity * 0.5)) in
  for_range
    (fun k =>
       let r := (max_radius - Z.of_nat k)%Z in
       let alpha := py_int (100 * (IZR r / IZR max_radius) * intensity) in
       draw_circle (c, alpha) pos r)
    0 (Z.to_nat max_radius) ;;
  let core_size := py_int (IZR size * (1 + intensity * 0.3)) in
  draw_circle (c, 255%Z) pos core_size ;;
  draw_circle (255, 255, 255, 255)%Z pos (Z.max 1 (core_size - 1)) ;;
  v <- get ;;
  ret (surface ++ [Blit (glow_surface v) 255 (0, 0)%Z BLEND_ALPHA_SDL2]).

(** [self.trail_surface.set_alpha(value)]: the value must fit a C [long];
    it is cut to a C [int] and clamped to 0..255. *)
Definition set_alpha (value : Z) : Run Visualizer unit :=
  if negb (c_long value) then raise TypeError
  else
    modify (set_trail_surface_alpha (Z.min 255 (Z.max 0 (to_c_int value)))).

(** [draw_conclusion] draws on the screen before it can fail, so it runs
    on the pair of [self] and the screen. *)
Definition on_self {A : Type} (m : Run Visualizer A)
  : Run (Visualizer * Surface) A :=
  fun s => let (r, v') := m s.1 in (r, (v', s.2)).

Definition on_screen (m : Surface -> Run Visualizer Surface)
  : Run (Visualizer * Surface) unit :=
  fun s =>
    match m s.2 s.1 with
    | (Returned screen', v') => (Returned tt, (v', screen'))
    | (Raised e, v') => (Raised e, (v', s.2))
    end.

(** One turn of [for i, orb in enumerate(self.orbs)] in
    [draw_conclusion]. *)
Definition conclusion_orb (progress : R) (i : nat)
  : Run (Visualizer * Surface) unit :=
  s <- get ;;
  match trails s.1 !! i with
  | None => raise IndexError
  | Some trail =>
      if (0 <? length trail)%nat then
        match last trail, orbs s.1 !! i with
        | Some p, Some orb =>
            let pos := (fst (fst p), snd (fst p)) in
            on_screen (fun screen =>
                         draw_orb screen pos (color orb) 4 (1 - progress))
        | _, _ => raise IndexError
        end
      else ret tt
  end.

(** [draw_conclusion(screen, category, progress)].  The screen is filled
    with an opaque colour given as three components. *)
Definition draw_conclusion (category : string) (progress : R)
  : Run (Visualizer * Surface) unit :=
  modify (fun s => (s.1, fill (215, 248, 255, 255)%Z)) ;;
  on_self (modify (set_fade_alpha (py_int (255 * (1 - progress))))) ;;
  on_self (v <- get ;; set_alpha (fade_alpha v)) ;;
  modify (fun s =>
            (s.1,
             s.2 ++ [Blit (trail_surface s.1) (trail_surface_alpha s.1)
                          (0, 0)%Z BLEND_DEFAULT])) ;;
  s <- get ;;
  for_range (conclusion_orb progress) 0 (length (orbs s.1)).

(** A run of [update] calls, one per audio frame; an exception ends it. *)
Fixpoint updates (frames : list AudioData) (category : string)
  : Run Visualizer unit :=
  match frames with
  | [] => ret tt
  | a :: rest => update a category ;; updates rest category
  end.

(** The intensity [update] reads from a frame. *)
Definition frame_intensity (a : AudioData) : R :=
  match a with
  | Some d => as_number (dict_get d "intensity" (PyInt 0))
  | None => 0
  end.

(** The divisor of the attraction step for an orb about to be updated. *)
Definition center_distance (v : Visualizer) (orb : Orb) : R :=
  let cx := IZR (fst (center v)) in
  let cy := IZR (snd (center v)) in
  let a := angle orb + angular_velocity orb in
  let radius := IZR (orbit_radius v) + deviation orb in
  let dx := cx - (cx + cos a * radius) in
  let dy := cy - (cy + sin a * radius) in
  sqrt (dx * dx + dy * dy).

(** Boost by half the intensity, clamp at 1, decay by 5%. *)
Definition glow_after (intensity g : R) : R :=
  Rmin 1 (g + intensity * 0.5) * 0.95.

(** The state after calling [update] once per frame, whatever the
    outcome of each call. *)
Definition call_sequence (category : string) (frames : list AudioData)
    (v : Visualizer) : Visualizer :=
  foldl (fun s a => (update a category s).2) v frames.


(** The keys of an orb that no method assigns after [__init__]. *)
Definition orb_fixed (orb : Orb) : Color * R :=
  (color orb, angular_velocity orb).

(** The keys of an orb other than [color] and [angle]. *)
Definition orb_motion (orb : Orb) : R * R * R * R * R :=
  (deviation orb, radial_velocity orb, angular_velocity orb,
   x_velocity orb, y_velocity orb).

(** Everything that is assigned in [__init__] only. *)
Definition config (v : Visualizer) :=
  (width v, height v, center v, main_surface v, orbit_radius v,
   center_orb_radius v, orbital_orb_size v, base_speed v, max_deviation v,
   spring_constant v, damping v, attraction_strength v, back_button v,
   orb_fixed <$> orbs v).

(** [v] is an instance made by [Visualizer(w, h)], in any later state. *)
Definition constructed (w h : Z) (v : Visualizer) : Prop :=
  config v = config (init w h).

(** Two instances that differ at most in the [color] and [angle] of
    their orbs. *)
Definition equal_up_to_color_and_angle (v1 v2 : Visualizer) : Prop :=
  set_orbs [] v1 = set_orbs [] v2 /\
  orb_motion <$> orbs v1 = orb_motion <$> orbs v2.

(** What [draw_trails] draws on the trail layer for trail [i]. *)
Definition trail_segments (v : Visualizer) (i : nat) : list DrawOp :=
  match trails v !! i, orbs v !! i with
  | Some trail, Some orb => trail_lines (color orb) trail
  | _, _ => []
  end.

(** The trail layer after [draw_trails]. *)
Definition trail_layer (v : Visualizer) : Surface :=
  fill (0, 0, 0, 0)%Z ++
  mjoin (trail_segments v <$> seq 0 (length (trails v))).

(** The representative of an angle in (-PI, PI]. *)
Definition wrap_angle (a : R) : R :=
  a + 2 * PI * IZR (Int_part ((PI - a) / (2 * PI))).

(** An orb after one [update] with intensity 0. *)
Definition coast (v : Visualizer) (orb : Orb) : Orb :=
  (update_orb v 0 orb).2.

(** A present audio frame with intensity 0. *)
Definition silent (a : AudioData) : Prop :=
  truthy a = true /\ frame_intensity a = 0.

(** An orb on its nominal orbit and without Cartesian velocity. *)
Definition circular (orb : Orb) : Prop :=
  deviation orb = 0 /\ x_velocity orb = 0 /\ y_velocity orb = 0.

(** The spring-back block of [update] (lines 95-99) on the pair
    [(deviation, radial_velocity)], with spring constant [k] and damping
    [c]. *)
Definition spring_step (k c : R) (s : R * R) : R * R :=
  if Rlt_dec 0 (Rabs s.1) then
    let return_force := - k * s.1 in
    let radial_velocity := s.2 + return_force in
    (s.1 + radial_velocity, radial_velocity * c)
  else s.

(** The deviation that [update] recomputes (lines 87-89) for an orb
    without Cartesian velocity: its distance from the centre, which is
    [|orbit_radius + deviation|], less the orbit radius. *)
Definition recomputed_deviation (radius d : R) : R :=
  Rabs (radius + d) - radius.

(** One update with intensity 0 on the pair [(deviation, radial_velocity)]
    of such an orb. *)
Definition radial_step (radius k c : R) (s : R * R) : R * R :=
  spring_step k c (recomputed_deviation radius s.1, s.2).

(** The pair [(deviation, radial_velocity)] of an orb. *)
Definition radial_state (orb : Orb) : R * R :=
  (deviation orb, radial_velocity orb).

(** A quadratic form that the spring step with [k = 0.01] and [c = 0.98]
    scales by exactly 0.98. *)
Definition energy (s : R * R) : R :=
  0.0098 * (s.1 * s.1) + 0.01 * (s.1 * s.2) + s.2 * s.2.

(** A fresh [Visualizer(800, 600)] whose first orb has been pushed one
    unit off its orbit and is otherwise at rest. *)
Definition perturbed_instance : Visualizer :=
  set_orbs
    (<[0%nat := set_deviation 1 (init_orb 0.001 ((80, 180, 255)%Z, 0))]>
       (orbs (init 800 600)))
    (init 800 600).

(** The spring iteration started one unit off, at rest. *)
Definition rebound (n : nat) : R * R :=
  Nat.iter n (spring_step 0.01 0.98) (1, 0).

(** The deviations of [rebound] at steps [n] and [n + 1], scaled by
    [100 ^ n] and [100 ^ (n + 1)]: integers. *)
Fixpoint dev_scaled (n : nat) : Z * Z :=
  match n with
  | O => (1, 99)%Z
  | S m => let (a, b) := dev_scaled m in (b, 197 * b - 9800 * a)%Z
  end.
(** ** Further methods *)

(** [get_voice_name(category)]: a lookup in a local dict, with a default. *)
Definition voice_names : gmap string string :=
  {[ "sleep"%string := "Shimmer"%string;
     "study"%string := "Onyx"%string;
     "vent"%string := "Nova"%string ]}.

Definition get_voice_name (category : string) : string :=
  default "Nova"%string (voice_names !! category).

(** A position inside the back button's rectangle. *)
Definition on_back_button (pos : Z * Z) : Prop :=
  (20 <= pos.1 < 60)%Z /\ (20 <= pos.2 < 60)%Z.

(** ** Drawing on the screen *)

(** What [draw_back_button] and [draw_timer] put on the surface they are
    given: discs, polygons and rendered text, which the layers of [self]
    never hold.  A colour is the tuple the code passes, of three or four
    components; a text is recorded with the size of its font and the centre
    of the rectangle it is blitted to. *)
Inductive ScreenOp : Type :=
| Circle (c : list Z) (centre : Z * Z) (radius : Z)
| Polygon (c : list Z) (points : list (Z * Z))
| Text (font_size : Z) (text : string) (antialias : bool) (c : list Z)
       (centre : Z * Z).

Abbreviation Screen := (list ScreenOp).

(** [draw_back_button(surface)]; the result is [surface] afterwards. *)
Definition draw_back_button (surface : Screen) : Run Visualizer Screen :=
  let surface := surface ++ [Circle [40; 42; 45]%Z (40, 40)%Z 20%Z] in
  let points := [(50, 40); (35, 30); (35, 50)]%Z in
  ret (surface ++ [Polygon [200; 200; 200]%Z points]).

(** A pixel strictly inside a disc. *)
Definition inside_circle (centre : Z * Z) (radius : Z) (pos : Z * Z) : Prop :=
  ((pos.1 - centre.1) * (pos.1 - centre.1) +
   (pos.2 - centre.2) * (pos.2 - centre.2) < radius * radius)%Z.

(** [a // b] on floats. *)
Definition py_floordiv (a b : R) : R := IZR (Int_part (a / b)).

(** [f"{n:02d}"]: the decimal digits, padded with a zero on the left to two
    characters; the sign of a negative number counts as one of them. *)
Definition format_02d (n : Z) : string :=
  if decide (0 <= n < 10)%Z then ("0" +:+ pretty n)%string else pretty n.

(** The clock reading of [draw_timer], from
    [elapsed_time.total_seconds()]. *)
Definition timer_minutes (total_seconds : R) : Z :=
  py_int (py_floordiv total_seconds 60).

Definition timer_seconds (total_seconds : R) : Z :=
  py_int (py_mod total_seconds 60).

Definition time_text (total_seconds : R) : string :=
  (format_02d (timer_minutes total_seconds) +:+ ":" +:+
   format_02d (timer_seconds total_seconds))%string.

Section Timer.

(** [str.upper], left abstract. *)
Variable upper : string -> string.

(** [draw_timer(surface, category, elapsed_time)], with [elapsed_time]
    given by its [total_seconds()]; the result is [surface] afterwards.
    The three fonts are those of the constructor, of sizes 72, 32 and
    24, and rendering is taken to succeed; the instance is changed before
    anything is rendered, so it is left in the same state if rendering
    fails. *)
Definition draw_timer (surface : Screen) (category : string)
    (total_seconds : R) : Run Visualizer Screen :=
  v <- get ;;
  if negb (screenshot_mode v) then
    modify (set_glow_surface (fill (0, 0, 0, 0)%Z)) ;;
    v <- get ;;
    let surface :=
      surface ++
      [Circle [20; 22; 25; 255]%Z (center v) (center_orb_radius v + 5)%Z] in
    let time_surface := Text 72%Z (time_text total_seconds) true
                          [255; 255; 255]%Z in
    let category_surface := Text 32%Z (upper category) true
                              [200; 200; 200]%Z in
    let voice_surface := Text 24%Z ("Voice: " +:+ get_voice_name category)%string true
                           [150; 150; 150]%Z in
    let time_rect := ((center v).1, (center v).2 - 12)%Z in
    let category_rect := ((center v).1, (center v).2 + 12)%Z in
    let voice_rect := ((center v).1, (center v).2 + 32)%Z in
    ret (surface ++ [time_surface time_rect; category_surface category_rect;
                     voice_surface voice_rect])
  else ret surface.

End Timer.

(** A segment that [pygame.draw.line] accepts. *)
Definition line_drawable (op : DrawOp) : Prop :=
  match op with
  | Line c _ _ width => c_int width = true /\ valid_color c = true
  | _ => True
  end.

(** Every trail of two points or more has an orb to take its colour
    from, and pygame accepts each of its segments. *)
Definition trails_drawable (v : Visualizer) : Prop :=
  forall j (trail : list TrailPoint),
    trails v !! j = Some trail -> (2 <= length trail)%nat ->
    exists orb,
      orbs v !! j = Some orb /\
      Forall line_drawable (trail_lines (color orb) trail).

(** A computation that leaves the part [f] of the state as it was,
    whatever its outcome. *)
Definition preserves {S A B : Type} (f : S -> B) (m : Run S A) : Prop :=
  forall s, f (m s).2 = f s.

(** The states an instance made by [Visualizer(w, h)] can be in after
    any sequence of calls of [update], [toggle_screenshot_mode], [reset],
    [draw_trails], [draw_stored_pattern], [draw_timer],
    [draw_back_button], [draw_orb] and [draw_conclusion], whether they
    return or raise.  ([draw] and [draw_selection] change the instance
    through [draw_trails], [draw_orb] and [draw_timer] only.) *)
Inductive reachable (w h : Z) : Visualizer -> Prop :=
| reach_init : reachable w h (init w h)
| reach_update a category v :
    reachable w h v -> reachable w h (update a category v).2
| reach_toggle v :
    reachable w h v -> reachable w h (toggle_screenshot_mode v).2
| reach_reset v :
    reachable w h v -> reachable w h (reset v).2
| reach_draw_trails surface v :
    reachable w h v -> reachable w h (draw_trails surface v).2
| reach_draw_stored_pattern screen pattern v :
    reachable w h v ->
    reachable w h (draw_stored_pattern screen pattern v).2
| reach_draw_timer upper surface category total_seconds v :
    reachable w h v ->
    reachable w h (draw_timer upper surface category total_seconds v).2
| reach_draw_back_button surface v :
    reachable w h v -> reachable w h (draw_back_button surface v).2
| reach_draw_orb surface pos c size intensity v :
    reachable w h v ->
    reachable w h (draw_orb surface pos c size intensity v).2
| reach_draw_conclusion screen category progress v :
    reachable w h v ->
    reachable w h (draw_conclusion category progress (v, screen)).2.1.

(** A segment of the trail layer drawn in colour [c], at least 4 wide. *)
Definition is_segment (c : Color) (op : DrawOp) : Prop :=
  exists alpha start_pos end_pos width,
    op = Line (c, alpha) start_pos end_pos width /\ (4 <= width)%Z.

(** The same, with the width and the opacity the code gives to an
    intensity in [0, 1]. *)
Definition is_styled_segment (c : Color) (op : DrawOp) : Prop :=
  exists alpha start_pos end_pos width,
    op = Line (c, alpha) start_pos end_pos width /\
    (4 <= width <= 8)%Z /\ (127 <= alpha <= 255)%Z.

(** ** Concrete checks *)

Example init_800_600_geometry :
  center (init 800 600) = (400, 300)%Z /\
  orbit_radius (init 800 600) = 150%Z /\
  length (orbs (init 800 600)) = 5%nat /\
  length (trails (init 800 600)) = 5%nat.
Proof. repeat split; reflexivity. Qed.

Example init_odd_size_floors :
  center (init 801 601) = (400, 300)%Z /\
  orbit_radius (init 801 603) = 150%Z /\
  orbit_radius (init 3 3) = 0%Z.
Proof. repeat split; reflexivity. Qed.

Example collidepoint_edges :
  collidepoint (mkRect 20 20 40 40) (20, 20)%Z = true /\
  collidepoint (mkRect 20 20 40 40) (59, 59)%Z = true /\
  collidepoint (mkRect 20 20 40 40) (60, 40)%Z = false /\
  collidepoint (mkRect 20 20 40 40) (40, 60)%Z = false /\
  collidepoint (mkRect 20 20 40 40) (19, 40)%Z = false.
Proof. repeat split; reflexivity. Qed.

Example truthy_examples :
  truthy None = false /\
  truthy (Some ∅) = false /\
  truthy (Some {["has_recent_peak"%string := PyBool false]}) = true.
Proof. repeat split; reflexivity. Qed.

Example toggle_twice :
  (toggle_screenshot_mode ;; toggle_screenshot_mode) (init 800 600) =
  (Returned tt, init 800 600).
Proof. reflexivity. Qed.

Example handle_click_in_screenshot_mode :
  handle_click (toggle_screenshot_mode (init 800 600)).2 (40, 40)%Z = None.
Proof. reflexivity. Qed.

(** ** The loop of [update] *)

Lemma visualizer_eta (v : Visualizer) :
  set_trails (trails v) (set_orbs (orbs v) v) = v.
Proof. by destruct v. Qed.

Lemma update_orb_at_unfold (intensity : R) (i : nat) (v : Visualizer) :
  update_orb_at intensity i v =
  match orbs v !! i with
  | None => (Raised IndexError, v)
  | Some o =>
      let v1 := set_orbs (<[i := (update_orb v intensity o).2]> (orbs v)) v in
      match (update_orb v intensity o).1 with
      | Raised e => (Raised e, v1)
      | Returned p =>
          match trails v !! i with
          | None => (Raised IndexError, v1)
          | Some t => (Returned tt, set_trails (<[i := t ++ [p]]> (trails v)) v1)
          end
      end
  end.
Proof.
  unfold update_orb_at, bind, get, on_orb, trail_append, put, raise.
  destruct (orbs v !! i) as [o|]; [|done].
  destruct (update_orb v intensity o) as [[p|e] o']; simpl; [|done].
  unfold bind, get; simpl. by destruct (trails v !! i).
Qed.

(** What a completed loop did: every orb in range took one [update_orb]
    step and its trail got the point of that step; nothing else changed. *)
Lemma for_range_update_returned (intensity : R) (n : nat) :
  forall (start : nat) (v v' : Visualizer),
    for_range (update_orb_at intensity) start n v = (Returned tt, v') ->
    v' = set_trails (trails v') (set_orbs (orbs v') v) /\
    (forall j, (start <= j < start + n)%nat ->
       exists o p o' t,
         orbs v !! j = Some o /\
         update_orb v intensity o = (Returned p, o') /\
         orbs v' !! j = Some o' /\
         trails v !! j = Some t /\
         trails v' !! j = Some (t ++ [p])) /\
    (forall j, ~ (start <= j < start + n)%nat ->
       orbs v' !! j = orbs v !! j /\ trails v' !! j = trails v !! j).
Proof.
  induction n as [|n IH]; intros start v v' Hrun; simpl in Hrun.
  - inversion Hrun; subst v'. split; [by rewrite visualizer_eta|].
    split; [intros j Hj; lia | done].
  - unfold bind in Hrun. rewrite update_orb_at_unfold in Hrun.
    destruct (orbs v !! start) as [o|] eqn:Ho; [|done].
    destruct (update_orb v intensity o) as [[p|e] o'] eqn:Hstep;
      simpl in Hrun; [|done].
    destruct (trails v !! start) as [t|] eqn:Ht; [|done].
    apply IH in Hrun as (Hframe & Hin & Hout).
    pose proof (lookup_lt_Some _ _ _ Ho) as Hlo.
    pose proof (lookup_lt_Some _ _ _ Ht) as Hlt.
    split; [by rewrite Hframe|].
    split.
    + intros j Hj. destruct (decide (j = start)) as [->|Hne].
      * exists o, p, o', t. repeat split; try done.
        -- destruct (Hout start) as [-> _]; [lia|]. simpl.
           by apply list_lookup_insert_eq.
        -- destruct (Hout start) as [_ ->]; [lia|]. simpl.
           by apply list_lookup_insert_eq.
      * destruct (Hin j) as (o1 & p1 & o1' & t1 & H1 & H2 & H3 & H4 & H5);
          [lia|].
        simpl in H1, H4. rewrite list_lookup_insert_ne in H1 by done.
        rewrite list_lookup_insert_ne in H4 by done.
        exists o1, p1, o1', t1. repeat split; done.
    + intros j Hj. destruct (Hout j) as [-> ->]; [lia|]. simpl.
      rewrite !list_lookup_insert_ne by lia. done.
Qed.

(** The loop completes when every step does and every orb has a trail. *)
Lemma for_range_update_progress (intensity : R) (n : nat) :
  forall (start : nat) (v : Visualizer),
    (forall j, (start <= j < start + n)%nat ->
       exists o,
         orbs v !! j = Some o /\
         (exists p, (update_orb v intensity o).1 = Returned p) /\
         is_Some (trails v !! j)) ->
    exists v', for_range (update_orb_at intensity) start n v = (Returned tt, v').
Proof.
  induction n as [|n IH]; intros start v Hall; simpl.
  - by eexists.
  - unfold bind. rewrite update_orb_at_unfold.
    destruct (Hall start) as (o & Ho & [p Hp] & [t Ht]); [lia|].
    rewrite Ho, Hp, Ht; simpl.
    apply IH. intros j Hj.
    destruct (Hall j) as (o1 & Ho1 & Hp1 & Ht1); [lia|].
    exists o1. simpl. rewrite !list_lookup_insert_ne by lia. done.
Qed.

(** ** One orb *)

Ltac run_orb :=
  unfold update_orb, py_div, bind, modify, get, put, ret, raise; simpl.

Ltac case_orb H :=
  repeat match type of H with
         | context [Rlt_dec ?a ?b] => destruct (Rlt_dec a b); simpl in H
         | context [Req_dec_T ?a ?b] => destruct (Req_dec_T a b); simpl in H
         end.

Lemma update_orb_fixed (v : Visualizer) (intensity : R) (o : Orb) :
  orb_fixed (update_orb v intensity o).2 = orb_fixed o.
Proof.
  destruct (update_orb v intensity o) as [r o'] eqn:H. simpl.
  revert H. run_orb. intros H. case_orb H; by inversion H.
Qed.

(** Whatever its outcome, the loop touches [orbs] and [trails] only, and
    in the orbs only the keys that move. *)
Lemma for_range_update_frame (intensity : R) (n : nat) :
  forall (start : nat) (v v' : Visualizer) (r : outcome unit),
    for_range (update_orb_at intensity) start n v = (r, v') ->
    v' = set_trails (trails v') (set_orbs (orbs v') v) /\
    length (orbs v') = length (orbs v) /\
    length (trails v') = length (trails v) /\
    orb_fixed <$> orbs v' = orb_fixed <$> orbs v.
Proof.
  assert (forall (v : Visualizer) i o,
            orbs v !! i = Some o ->
            orb_fixed <$> <[i := (update_orb v intensity o).2]> (orbs v) =
            orb_fixed <$> orbs v) as Hfix.
  { intros v i o Ho. rewrite list_fmap_insert, update_orb_fixed.
    apply list_insert_id. by rewrite list_lookup_fmap, Ho. }
  induction n as [|n IH]; intros start v v' r Hrun; simpl in Hrun.
  - inversion Hrun; subst. by rewrite visualizer_eta.
  - unfold bind in Hrun. rewrite update_orb_at_unfold in Hrun.
    destruct (orbs v !! start) as [o|] eqn:Ho;
      [|inversion Hrun; subst; by rewrite visualizer_eta].
    specialize (Hfix v start o Ho).
    destruct (update_orb v intensity o) as [[p|e] o']; simpl in *;
      [|inversion Hrun; subst; simpl; by rewrite length_insert].
    destruct (trails v !! start) as [t|];
      [|inversion Hrun; subst; simpl; by rewrite length_insert].
    apply IH in Hrun as (-> & -> & -> & ->). simpl.
    by rewrite !length_insert.
Qed.

Lemma update_orb_point (v : Visualizer) (intensity : R) (o o' : Orb)
    (p : TrailPoint) :
  update_orb v intensity o = (Returned p, o') -> p.2 = intensity.
Proof.
  run_orb. intros H. case_orb H; by inversion H.
Qed.

Lemma update_orb_raises (v : Visualizer) (intensity : R) (o : Orb) (e : exn) :
  (update_orb v intensity o).1 = Raised e -> e = ZeroDivisionError.
Proof.
  run_orb. intros H. case_orb H; by inversion H.
Qed.

Lemma update_orb_no_attraction (v : Visualizer) (intensity : R) (o : Orb) :
  ~ 0 < intensity -> exists p, (update_orb v intensity o).1 = Returned p.
Proof.
  intros Hi. run_orb.
  destruct (Rlt_dec 0 intensity); [done|]. simpl.
  match goal with
  | |- context [Rlt_dec ?a ?b] => destruct (Rlt_dec a b); simpl
  end; by eexists.
Qed.

Lemma update_orb_attraction (v : Visualizer) (intensity : R) (o : Orb) :
  0 < intensity ->
  (center_distance v o = 0 ->
   (update_orb v intensity o).1 = Raised ZeroDivisionError) /\
  (center_distance v o <> 0 ->
   exists p, (update_orb v intensity o).1 = Returned p).
Proof.
  intros Hi. unfold center_distance. run_orb.
  destruct (Rlt_dec 0 intensity); [|done]. simpl.
  match goal with
  | |- context [Req_dec_T ?a ?b] => destruct (Req_dec_T a b) as [Hz|Hnz]
  end; simpl.
  - split; [done|]. intros Hne. by destruct Hne.
  - split; [intros Hz; by destruct Hnz|]. intros _.
    match goal with
    | |- context [Rlt_dec ?a ?b] => destruct (Rlt_dec a b); simpl
    end; by eexists.
Qed.

(** ** [update] as a whole *)

Lemma truthy_Some_size (d : gmap string PyVal) :
  truthy (Some d) = true <-> size d <> 0%nat.
Proof.
  simpl. destruct (size d); simpl; split; (done || lia || congruence).
Qed.

Lemma update_falsy (a : AudioData) (category : string) (v : Visualizer) :
  truthy a = false -> update a category v = (Returned tt, v).
Proof.
  intros Ha. unfold update. destruct a as [d|]; [|done]. by rewrite Ha.
Qed.

Lemma update_truthy (a : AudioData) (category : string) (v : Visualizer) :
  truthy a = true ->
  update a category v =
  let intensity := frame_intensity a in
  let v0 := set_glow_intensity (glow_after intensity (glow_intensity v)) v in
  match for_range (update_orb_at intensity) 0 (length (orbs v)) v0 with
  | (Returned _, v1) =>
      (Returned tt,
       set_selection_pulse (py_mod (selection_pulse v1 + 0.05) (2 * PI))
         (set_time (time v1 + 0.016) v1))
  | (Raised e, v1) => (Raised e, v1)
  end.
Proof.
  intros Ha. unfold update. destruct a as [d|]; [|done]. rewrite Ha. simpl.
  unfold bind, modify, get. simpl. unfold glow_after.
  match goal with
  | |- match ?run ?s with _ => _ end = match ?run ?s' with _ => _ end =>
      change s with s'; destruct (run s') as [[[]|e] v1]
  end; done.
Qed.

(** [update] never changes the glow except through [glow_after]. *)
Lemma update_glow (a : AudioData) (category : string) (v : Visualizer) :
  glow_intensity (update a category v).2 =
  if truthy a then glow_after (frame_intensity a) (glow_intensity v)
  else glow_intensity v.
Proof.
  destruct (truthy a) eqn:Ha.
  - rewrite update_truthy by done. simpl.
    destruct (for_range _ _ _ _) as [[[]|e] v1] eqn:Hrun;
      apply for_range_update_frame in Hrun as (-> & _); done.
  - by rewrite update_falsy.
Qed.

Lemma glow_after_bounds (intensity g : R) :
  0 <= intensity -> 0 <= g -> 0 <= glow_after intensity g <= 1.
Proof.
  intros Hi Hg. unfold glow_after.
  assert (0 <= Rmin 1 (g + intensity * 0.5) <= 1) as [H0 H1].
  { split; [apply Rmin_glb; lra | apply Rmin_l]. }
  lra.
Qed.

(** ** Audio frames: absence, defaults, and the unused peak flag *)

Lemma truthy_insert (k : string) (x : PyVal) (d : gmap string PyVal) :
  truthy (Some (<[k := x]> d)) = true.
Proof.
  apply truthy_Some_size. intros Hsz. apply map_size_empty_inv in Hsz.
  by apply insert_non_empty in Hsz.
Qed.

Lemma frame_intensity_insert_ne (k : string) (x : PyVal)
    (d : gmap string PyVal) :
  k <> "intensity"%string ->
  frame_intensity (Some (<[k := x]> d)) = frame_intensity (Some d).
Proof.
  intros Hk. unfold frame_intensity, dict_get.
  by rewrite lookup_insert_ne.
Qed.

(** [update] reads a present frame through its intensity only. *)
Lemma update_intensity_only (a1 a2 : AudioData) (category : string)
    (v : Visualizer) :
  truthy a1 = true -> truthy a2 = true ->
  frame_intensity a1 = frame_intensity a2 ->
  update a1 category v = update a2 category v.
Proof.
  intros H1 H2 Hi. rewrite !update_truthy by done. simpl. by rewrite Hi.
Qed.

(** C9: two present audio frames with the same intensity take [update] to
    the same outcome and the same state, whatever their
    ['has_recent_peak'] entries (or any other entry) hold; in particular
    the value stored under ['has_recent_peak'] never matters. *)
Theorem has_recent_peak_without_influence (d1 d2 : gmap string PyVal)
    (category : string) (v : Visualizer) :
  (truthy (Some d1) = true ->
   truthy (Some d2) = true ->
   frame_intensity (Some d1) = frame_intensity (Some d2) ->
   update (Some d1) category v = update (Some d2) category v) /\
  (forall peak1 peak2 : PyVal,
     update (Some (<["has_recent_peak"%string := peak1]> d1)) category v =
     update (Some (<["has_recent_peak"%string := peak2]> d1)) category v).
Proof.
  split; [apply update_intensity_only|].
  intros peak1 peak2.
  apply update_intensity_only; try apply truthy_insert.
  by rewrite !frame_intensity_insert_ne.
Qed.

Lemma has_recent_peak_without_influence_witness :
  update (Some (<["has_recent_peak"%string := PyBool true]>
                  {["intensity"%string := PyFloat 0.5]})) "vent"
         (init 800 600) =
  update (Some {["intensity"%string := PyFloat 0.5]}) "vent" (init 800 600).
Proof.
  apply (proj1 (has_recent_peak_without_influence _ _ "vent" (init 800 600))).
  - apply truthy_insert.
  - apply truthy_Some_size. rewrite map_size_singleton. lia.
  - rewrite frame_intensity_insert_ne by discriminate. reflexivity.
Defined.

(** ** Glow *)

Lemma call_sequence_glow_bounds (category : string) (frames : list AudioData) :
  forall v : Visualizer,
    0 <= glow_intensity v <= 1 ->
    Forall (fun a => 0 <= frame_intensity a <= 1) frames ->
    0 <= glow_intensity (call_sequence category frames v) <= 1.
Proof.
  unfold call_sequence.
  induction frames as [|a frames IH]; intros v Hv Hall; simpl; [done|].
  inversion Hall as [|? ? Ha Hrest]; subst.
  apply IH; [|done]. rewrite update_glow.
  destruct (truthy a); [|done]. apply glow_after_bounds; lra.
Qed.

(** C4: from a glow in [0,1], after every call of any finite run of
    [update] calls with intensities in [0,1] the glow is in [0,1]; a call
    with present audio sets it to [min(1, glow + intensity * 0.5) * 0.95]. *)
Theorem glow_intensity_stays_in_unit_interval (category : string)
    (frames : list AudioData) (v : Visualizer) :
  0 <= glow_intensity v <= 1 ->
  Forall (fun a => 0 <= frame_intensity a <= 1) frames ->
  (forall k : nat,
     0 <= glow_intensity (call_sequence category (take k frames) v) <= 1) /\
  (forall a, truthy a = true ->
     glow_intensity (update a category v).2 =
     Rmin 1 (glow_intensity v + frame_intensity a * 0.5) * 0.95).
Proof.
  intros Hv Hall. split.
  - intros k. apply call_sequence_glow_bounds; [done|].
    by apply Forall_take.
  - intros a Ha. by rewrite update_glow, Ha.
Qed.

Lemma glow_intensity_stays_in_unit_interval_witness :
  0 <= glow_intensity
         (call_sequence "study"
            (take 2 [Some {["intensity"%string := PyFloat 1]}; None;
                     Some {["intensity"%string := PyFloat 0.25]}])
            (init 800 600)) <= 1.
Proof.
  refine (proj1 (glow_intensity_stays_in_unit_interval "study"
            [Some {["intensity"%string := PyFloat 1]}; None;
             Some {["intensity"%string := PyFloat 0.25]}]
            (init 800 600) _ _) 2%nat).
  - simpl. lra.
  - repeat constructor;
      unfold frame_intensity, dict_get;
      rewrite ?lookup_singleton_eq; simpl; lra.
Defined.

(** ** Click routing *)

(** C7: on an instance whose [back_button] is the constructor's
    [Rect(20, 20, 40, 40)], [handle_click(pos)] returns ['selection']
    exactly when [pos] is inside that rectangle and screenshot mode is
    off, and [None] otherwise. *)
Theorem handle_click_selection_iff (v : Visualizer) (pos : Z * Z) :
  back_button v = mkRect 20 20 40 40 ->
  let inside := ((20 <= pos.1 < 60)%Z /\ (20 <= pos.2 < 60)%Z) in
  (handle_click v pos = Some "selection"%string <->
     inside /\ screenshot_mode v = false) /\
  (handle_click v pos = None <->
     ~ (inside /\ screenshot_mode v = false)) /\
  handle_click v (40, 40)%Z =
    (if screenshot_mode v then None else Some "selection"%string) /\
  handle_click v (500, 500)%Z = None.
Proof.
  intros Hrect inside.
  assert (collidepoint (back_button v) pos = true <-> inside) as Hin.
  { unfold collidepoint, inside. rewrite Hrect. simpl.
    rewrite !andb_true_iff, !Z.leb_le, !Z.ltb_lt. lia. }
  assert (collidepoint (back_button v) (40, 40)%Z = true) as H40
    by (by rewrite Hrect).
  assert (collidepoint (back_button v) (500, 500)%Z = false) as H500
    by (by rewrite Hrect).
  unfold handle_click. rewrite H40, H500.
  clearbody inside.
  destruct (collidepoint (back_button v) pos), (screenshot_mode v); simpl;
    split_and!; try done; intuition (try discriminate; try done).
Qed.

Lemma handle_click_selection_iff_witness :
  handle_click (init 800 600) (40, 40)%Z = Some "selection"%string /\
  handle_click (init 800 600) (500, 500)%Z = None.
Proof.
  pose proof (handle_click_selection_iff (init 800 600) (40, 40)%Z eq_refl)
    as (_ & _ & H40 & H500).
  split; [exact H40 | exact H500].
Defined.

(** ** Trails grow by one point per completed physics step *)

Lemma update_returned (a : AudioData) (category : string)
    (v v' : Visualizer) :
  truthy a = true ->
  update a category v = (Returned tt, v') ->
  length (orbs v') = length (orbs v) /\
  length (trails v') = length (trails v) /\
  time v' = time v + 0.016 /\
  (forall i, (i < length (orbs v))%nat ->
     exists o p o' t,
       orbs v !! i = Some o /\
       update_orb v (frame_intensity a) o = (Returned p, o') /\
       orbs v' !! i = Some o' /\
       trails v !! i = Some t /\
       trails v' !! i = Some (t ++ [p])) /\
  (forall i, (length (orbs v) <= i)%nat -> trails v' !! i = trails v !! i).
Proof.
  intros Ha. rewrite update_truthy by done. simpl.
  destruct (for_range _ _ _ _) as [[[]|e] v1] eqn:Hrun; [|done].
  intros Heq; inversion Heq; subst v'; clear Heq. simpl.
  pose proof (for_range_update_frame _ _ _ _ _ _ Hrun) as (Hf & Hlo & Hlt & _).
  apply for_range_update_returned in Hrun as (_ & Hin & Hout).
  split; [done|]. split; [done|]. split; [by rewrite Hf|]. split.
  - intros i Hi. apply (Hin i). simpl. lia.
  - intros i Hi. destruct (Hout i) as [_ ->]; [simpl; lia|done].
Qed.

Lemma update_returns_without_attraction (a : AudioData) (category : string)
    (v : Visualizer) :
  ~ 0 < frame_intensity a ->
  (length (orbs v) <= length (trails v))%nat ->
  exists v', update a category v = (Returned tt, v').
Proof.
  intros Hi Hlen. destruct (truthy a) eqn:Ha;
    [|rewrite update_falsy by done; by eexists].
  rewrite update_truthy by done. simpl.
  edestruct (for_range_update_progress (frame_intensity a)
               (length (orbs v)) 0) as [v1 ->]; [|by eexists].
  intros j Hj. simpl.
  destruct (lookup_lt_is_Some_2 (orbs v) j) as [o Ho]; [lia|].
  exists o. split; [done|]. split.
  - by apply update_orb_no_attraction.
  - apply lookup_lt_is_Some_2. lia.
Qed.

Lemma update_returned_clock (a : AudioData) (category : string)
    (v v' : Visualizer) :
  truthy a = true ->
  update a category v = (Returned tt, v') ->
  time v' = time v + 0.016 /\
  selection_pulse v' = py_mod (selection_pulse v + 0.05) (2 * PI).
Proof.
  intros Ha. rewrite update_truthy by done. cbv zeta.
  destruct (for_range _ _ _ _) as [[[]|e] v1] eqn:Hrun; [|done].
  intros Heq; inversion Heq; subst v'; clear Heq.
  apply for_range_update_frame in Hrun as (-> & _). done.
Qed.

(** C8: with the audio input absent ([None] or the empty dict) [update]
    returns at once and leaves the whole state as it was.  With the input
    present, a missing ['intensity'] behaves as an explicit 0, and the
    update runs: on an instance with a trail for every orb it returns,
    the glow decays without boost, [time] and [selection_pulse] advance
    and every orb's trail gains one point recorded with intensity 0.  A
    missing ['has_recent_peak'] behaves as an explicit [False], and the
    update runs as for any present frame: when it returns, the glow has
    been boosted by the frame's intensity and decayed, the clock has
    advanced and every orb's trail has gained one point recorded with
    that intensity. *)
Theorem update_absent_audio_and_defaults (category : string) (v : Visualizer) :
  (forall a, truthy a = false -> update a category v = (Returned tt, v)) /\
  update None category v = (Returned tt, v) /\
  update (Some ∅) category v = (Returned tt, v) /\
  (forall d, truthy (Some d) = true -> d !! "intensity"%string = None ->
     update (Some d) category v =
     update (Some (<["intensity"%string := PyInt 0]> d)) category v /\
     ((length (orbs v) <= length (trails v))%nat ->
      exists v',
        update (Some d) category v = (Returned tt, v') /\
        glow_intensity v' = Rmin 1 (glow_intensity v) * 0.95 /\
        time v' = time v + 0.016 /\
        selection_pulse v' = py_mod (selection_pulse v + 0.05) (2 * PI) /\
        forall i, (i < length (orbs v))%nat ->
          exists (t : list TrailPoint) (x y : R),
            trails v !! i = Some t /\
            trails v' !! i = Some (t ++ [(x, y, 0)]))) /\
  (forall d, truthy (Some d) = true ->
     d !! "has_recent_peak"%string = None ->
     update (Some d) category v =
     update (Some (<["has_recent_peak"%string := PyBool false]> d))
            category v /\
     forall (x : R) (v' : Visualizer),
       d !! "intensity"%string = Some (PyFloat x) ->
       update (Some d) category v = (Returned tt, v') ->
       glow_intensity v' = Rmin 1 (glow_intensity v + x * 0.5) * 0.95 /\
       time v' = time v + 0.016 /\
       selection_pulse v' = py_mod (selection_pulse v + 0.05) (2 * PI) /\
       forall i, (i < length (orbs v))%nat ->
         exists (t : list TrailPoint) (p : TrailPoint),
           trails v !! i = Some t /\
           trails v' !! i = Some (t ++ [p]) /\ p.2 = x).
Proof.
  assert (forall d v',
            truthy (Some d) = true ->
            update (Some d) category v = (Returned tt, v') ->
            glow_intensity v' =
              glow_after (frame_intensity (Some d)) (glow_intensity v) /\
            time v' = time v + 0.016 /\
            selection_pulse v' = py_mod (selection_pulse v + 0.05) (2 * PI) /\
            forall i, (i < length (orbs v))%nat ->
              exists (t : list TrailPoint) (p : TrailPoint),
                trails v !! i = Some t /\
                trails v' !! i = Some (t ++ [p]) /\
                p.2 = frame_intensity (Some d)) as Hruns.
  { intros d v' Hd Hrun.
    pose proof (update_glow (Some d) category v) as Hglow.
    rewrite Hrun, Hd in Hglow. cbn [snd] in Hglow.
    destruct (update_returned_clock _ _ _ _ Hd Hrun) as [Ht Hp].
    destruct (update_returned _ _ _ _ Hd Hrun) as (_ & _ & _ & Hpts & _).
    split; [exact Hglow|]. split; [exact Ht|]. split; [exact Hp|].
    intros i Hi.
    destruct (Hpts i Hi) as (o & p & o' & t & _ & Horb & _ & Ht0 & Ht1).
    exists t, p. split; [exact Ht0|]. split; [exact Ht1|].
    by eapply update_orb_point. }
  split; [intros a Ha; by apply update_falsy|].
  split; [done|]. split; [done|]. split.
  - intros d Hd Hmiss.
    assert (frame_intensity (Some d) = 0) as H0.
    { unfold frame_intensity, dict_get. by rewrite Hmiss. }
    split.
    { apply update_intensity_only; [done|apply truthy_insert|].
      rewrite H0. unfold frame_intensity, dict_get.
      by rewrite lookup_insert_eq. }
    intros Hlen.
    destruct (update_returns_without_attraction (Some d) category v)
      as [v' Hrun]; [rewrite H0; lra|done|].
    exists v'. split; [exact Hrun|].
    destruct (Hruns d v' Hd Hrun) as (Hglow & Ht & Hp & Hpts).
    rewrite H0 in Hglow. unfold glow_after in Hglow.
    replace (glow_intensity v + 0 * 0.5) with (glow_intensity v) in Hglow
      by lra.
    split; [exact Hglow|]. split; [exact Ht|]. split; [exact Hp|].
    intros i Hi. destruct (Hpts i Hi) as (t & [[x y] z] & Ht0 & Ht1 & Hz).
    cbn [snd] in Hz. rewrite H0 in Hz. subst z. by exists t, x, y.
  - intros d Hd Hmiss. split.
    { apply update_intensity_only; [done|apply truthy_insert|].
      by rewrite frame_intensity_insert_ne. }
    intros x v' Hx Hrun.
    assert (frame_intensity (Some d) = x) as Hfx.
    { unfold frame_intensity, dict_get. by rewrite Hx. }
    destruct (Hruns d v' Hd Hrun) as (Hglow & Ht & Hp & Hpts).
    rewrite Hfx in Hglow, Hpts. done.
Qed.

Lemma update_absent_audio_and_defaults_witness :
  update None "sleep" (init 800 600) = (Returned tt, init 800 600) /\
  exists v',
    update (Some {["has_recent_peak"%string := PyBool true]}) "sleep"
           (init 800 600) = (Returned tt, v') /\
    time v' = time (init 800 600) + 0.016.
Proof.
  pose proof (update_absent_audio_and_defaults "sleep" (init 800 600))
    as (Hfalsy & _ & _ & Hint & _).
  split.
  - apply Hfalsy. reflexivity.
  - destruct (Hint {["has_recent_peak"%string := PyBool true]})
      as [_ Hrun].
    + apply truthy_Some_size. rewrite map_size_singleton. lia.
    + apply lookup_singleton_ne. discriminate.
    + destruct Hrun as (v' & Hrun & _ & Ht & _).
      * cbn. lia.
      * exists v'. split; [exact Hrun|exact Ht].
Defined.

Lemma updates_append_points (category : string) (frames : list AudioData) :
  forall (v v' : Visualizer),
    updates frames category v = (Returned tt, v') ->
    length (orbs v') = length (orbs v) /\
    forall i t, (i < length (orbs v))%nat -> trails v !! i = Some t ->
      exists pts,
        trails v' !! i = Some (t ++ pts) /\
        pts.*2 = frame_intensity <$> List.filter truthy frames.
Proof.
  induction frames as [|a frames IH]; intros v v' Hrun; simpl in Hrun.
  - inversion Hrun; subst. split; [done|]. intros i t _ Ht.
    exists []. by rewrite app_nil_r.
  - unfold bind in Hrun.
    destruct (update a category v) as [[[]|e] v1] eqn:Hup; [|done].
    apply IH in Hrun as [Hlen Hpts]. simpl.
    destruct (truthy a) eqn:Ha.
    + apply update_returned in Hup as (Hlo & _ & _ & Hin & _); [|done].
      split; [congruence|]. intros i t Hi Ht.
      destruct (Hin i Hi) as (o & p & o' & t0 & _ & Hp & _ & Ht0 & Ht1).
      rewrite Ht in Ht0. injection Ht0 as <-.
      destruct (Hpts i (t ++ [p])) as (pts & Hv' & Hint); [lia|done|].
      exists (p :: pts). split.
      * by rewrite Hv', <- app_assoc.
      * rewrite !fmap_cons, Hint. f_equal. by eapply update_orb_point.
    + rewrite update_falsy in Hup by done. inversion Hup; subst v1.
      done.
Qed.

(** C6, as written, at a call with no audio: the call returns normally
    and no trail has length 1 afterwards. *)
Lemma update_without_audio_appends_nothing :
  (update None "sleep" (init 800 600)).1 = Returned tt /\
  Forall (fun t : list TrailPoint => length t <> 1%nat)
         (trails (update None "sleep" (init 800 600)).2).
Proof.
  split; [done|]. simpl. repeat constructor; simpl; lia.
Qed.

(** C6, amended: in a run of [update] calls that all return, each call
    with present audio appends exactly one point, carrying that frame's
    intensity, to the trail of every orb, a call with absent audio appends
    none, and nothing is ever removed: every trail is its old content
    followed by one point per present frame, in order. *)
Theorem update_appends_one_point_per_present_frame (category : string)
    (frames : list AudioData) (v v' : Visualizer) (i : nat)
    (t : list TrailPoint) :
  updates frames category v = (Returned tt, v') ->
  (i < length (orbs v))%nat ->
  trails v !! i = Some t ->
  exists pts,
    trails v' !! i = Some (t ++ pts) /\
    pts.*2 = frame_intensity <$> List.filter truthy frames /\
    length pts = length (List.filter truthy frames).
Proof.
  intros Hrun Hi Ht.
  destruct (updates_append_points _ _ _ _ Hrun) as [_ Hpts].
  destruct (Hpts i t Hi Ht) as (pts & Hv' & Hint).
  exists pts. split; [done|]. split; [done|].
  by rewrite <- (length_fmap snd pts), Hint, length_fmap.
Qed.

Lemma update_appends_one_point_per_present_frame_witness :
  exists v' pts,
    updates [Some {["intensity"%string := PyInt 0]}; None] "sleep"
            (init 800 600) = (Returned tt, v') /\
    trails v' !! 0%nat = Some ([] ++ pts) /\
    length pts = 1%nat.
Proof.
  assert (truthy (Some {["intensity"%string := PyInt 0]}) = true) as Htr.
  { apply truthy_Some_size. rewrite map_size_singleton. lia. }
  destruct (update_returns_without_attraction
              (Some {["intensity"%string := PyInt 0]}) "sleep" (init 800 600))
    as [v1 Hv1].
  { unfold frame_intensity, dict_get. rewrite lookup_singleton_eq. simpl. lra. }
  { simpl. lia. }
  assert (updates [Some {["intensity"%string := PyInt 0]}; None] "sleep"
                  (init 800 600) = (Returned tt, v1)) as Hrun.
  { unfold updates, bind. rewrite Hv1. reflexivity. }
  destruct (update_appends_one_point_per_present_frame _ _ _ _ 0%nat []
              Hrun) as (pts & Hpts & _ & Hlen).
  { simpl. lia. }
  { reflexivity. }
  exists v1, pts. split; [exact Hrun|]. split; [exact Hpts|].
  rewrite Hlen. cbn [List.filter]. rewrite Htr. reflexivity.
Defined.

(** ** The attraction step and its divisor *)

(** The divisor is the distance of the orb from the centre, that is the
    absolute value of its radius. *)
Lemma center_distance_radius (v : Visualizer) (o : Orb) :
  center_distance v o = Rabs (IZR (orbit_radius v) + deviation o).
Proof.
  unfold center_distance. cbv zeta.
  set (a := angle o + angular_velocity o).
  set (r := IZR (orbit_radius v) + deviation o).
  rewrite <- sqrt_Rsqr_abs. f_equal.
  transitivity (Rsqr r * (Rsqr (sin a) + Rsqr (cos a)));
    [unfold Rsqr; ring | rewrite sin2_cos2; ring].
Qed.

Lemma for_range_update_zero_division (intensity : R) (n : nat) :
  forall (start : nat) (v : Visualizer),
    0 < intensity ->
    (forall j, (start <= j < start + n)%nat ->
       is_Some (orbs v !! j) /\ is_Some (trails v !! j)) ->
    (exists j o, (start <= j < start + n)%nat /\
       orbs v !! j = Some o /\ center_distance v o = 0) ->
    (for_range (update_orb_at intensity) start n v).1 =
    Raised ZeroDivisionError.
Proof.
  induction n as [|n IH]; intros start v Hi Hall (j & oj & Hj & Hoj & Hz).
  - lia.
  - simpl. unfold bind. rewrite update_orb_at_unfold.
    destruct (Hall start) as [[o Ho] [t Ht]]; [lia|]. rewrite Ho.
    destruct (update_orb_attraction v intensity o Hi) as [Hzero Hnz].
    destruct (Req_dec_T (center_distance v o) 0) as [Hd|Hd].
    + by rewrite (Hzero Hd).
    + destruct (Hnz Hd) as [p Hp]. rewrite Hp, Ht. simpl.
      assert (j <> start) as Hne by (intros ->; congruence).
      apply IH; [done| |].
      * intros k Hk. simpl. rewrite !list_lookup_insert_ne by lia.
        apply Hall. lia.
      * exists j, oj. split; [lia|]. simpl.
        by rewrite list_lookup_insert_ne.
Qed.

(** C3: with a positive intensity the step for an orb divides by its
    distance from the centre and nothing guards the division: the step
    returns when that distance is nonzero and raises [ZeroDivisionError]
    when it is zero, which happens exactly when [deviation] equals
    [-orbit_radius]; nothing in [update] catches the exception, so the
    call as a whole raises it. *)
Theorem attraction_divides_by_unguarded_distance (a : AudioData)
    (category : string) (v : Visualizer) :
  truthy a = true ->
  0 < frame_intensity a ->
  (length (orbs v) <= length (trails v))%nat ->
  (forall o,
     (center_distance v o <> 0 ->
      exists p, (update_orb v (frame_intensity a) o).1 = Returned p) /\
     (center_distance v o = 0 ->
      (update_orb v (frame_intensity a) o).1 = Raised ZeroDivisionError) /\
     (center_distance v o = 0 <-> deviation o = - IZR (orbit_radius v))) /\
  (Forall (fun o => center_distance v o <> 0) (orbs v) ->
   (update a category v).1 = Returned tt) /\
  (Exists (fun o => center_distance v o = 0) (orbs v) ->
   (update a category v).1 = Raised ZeroDivisionError).
Proof.
  intros Ha Hi Hlen. split; [|split].
  - intros o.
    destruct (update_orb_attraction v (frame_intensity a) o Hi) as [Hz Hnz].
    split; [done|]. split; [done|].
    rewrite center_distance_radius. split.
    + intros H0. destruct (Req_dec_T (IZR (orbit_radius v) + deviation o) 0)
        as [E|E]; [lra|]. apply Rabs_pos_lt in E. lra.
    + intros ->. rewrite Rplus_opp_r. apply Rabs_R0.
  - intros Hall. rewrite update_truthy by done. simpl.
    edestruct (for_range_update_progress (frame_intensity a)
                 (length (orbs v)) 0) as [v1 ->]; [|done].
    intros j Hj. simpl.
    destruct (lookup_lt_is_Some_2 (orbs v) j) as [o Ho]; [lia|].
    exists o. split; [done|]. split.
    + rewrite Forall_lookup in Hall.
      by apply (update_orb_attraction v (frame_intensity a) o Hi), (Hall j).
    + apply lookup_lt_is_Some_2. lia.
  - intros Hex. rewrite update_truthy by done. simpl.
    pose proof (for_range_update_zero_division (frame_intensity a)
                  (length (orbs v)) 0
                  (set_glow_intensity
                     (glow_after (frame_intensity a) (glow_intensity v)) v)
                  Hi) as Hraise.
    destruct (for_range _ _ _ _) as [[[]|e] v1]; simpl in Hraise.
    + enough (Returned tt = Raised ZeroDivisionError) by done.
      apply Hraise.
      * intros j Hj. simpl. split; apply lookup_lt_is_Some_2; lia.
      * apply Exists_exists in Hex as (o & Hin & Hz).
        apply list_elem_of_lookup in Hin as [j Hj].
        exists j, o. split; [|done].
        apply lookup_lt_Some in Hj. lia.
    + simpl. apply Hraise.
      * intros j Hj. simpl. split; apply lookup_lt_is_Some_2; lia.
      * apply Exists_exists in Hex as (o & Hin & Hz).
        apply list_elem_of_lookup in Hin as [j Hj].
        exists j, o. split; [|done].
        apply lookup_lt_Some in Hj. lia.
Qed.

Lemma attraction_divides_by_unguarded_distance_witness :
  (update (Some {["intensity"%string := PyFloat 0.5]}) "sleep" (init 2 2)).1 =
  Raised ZeroDivisionError.
Proof.
  refine (proj2 (proj2 (attraction_divides_by_unguarded_distance
            (Some {["intensity"%string := PyFloat 0.5]}) "sleep" (init 2 2)
            _ _ _)) _).
  - apply truthy_Some_size. rewrite map_size_singleton. lia.
  - unfold frame_intensity, dict_get. rewrite lookup_singleton_eq. simpl. lra.
  - simpl. lia.
  - apply Exists_cons_hd. rewrite center_distance_radius.
    change (orbit_radius (init 2 2)) with 0%Z. simpl.
    rewrite Rplus_0_l. apply Rabs_R0.
Defined.

(** ** Drawing the trails and replaying a stored pattern *)

Lemma set_trail_surface_eta (v : Visualizer) :
  set_trail_surface (trail_surface v) v = v.
Proof. by destruct v. Qed.

Lemma set_trail_surface_twice (s1 s2 : Surface) (v : Visualizer) :
  set_trail_surface s2 (set_trail_surface s1 v) = set_trail_surface s2 v.
Proof. reflexivity. Qed.

Lemma trail_lines_short (c : Color) (trail : list TrailPoint) :
  (length trail < 2)%nat -> trail_lines c trail = [].
Proof. destruct trail as [|p [|q rest]]; simpl; (done || lia). Qed.

Lemma draw_line_unfold (c : RGBA) (start_pos end_pos : R * R) (width : Z)
    (v : Visualizer) :
  draw_line c start_pos end_pos width v =
  if c_int width && valid_color c then
    (Returned tt,
     set_trail_surface
       (trail_surface v ++ [Line c start_pos end_pos width]) v)
  else (Raised (if c_int width then ValueError else OverflowError), v).
Proof.
  unfold draw_line, raise, modify.
  by destruct (c_int width), (valid_color c).
Qed.

Lemma draw_segments_step (i : nat) (p q : TrailPoint)
    (rest : list TrailPoint) (v : Visualizer) :
  draw_segments i (p :: q :: rest) v =
  match orbs v !! i with
  | None => (Raised IndexError, v)
  | Some orb =>
      let width := Z.max 4 (py_int (8 * q.2)) in
      let alpha := py_int (255 * (0.5 + q.2 * 0.5)) in
      if c_int width && valid_color (color orb, alpha) then
        draw_segments i (q :: rest)
          (set_trail_surface
             (trail_surface v ++
              [Line (color orb, alpha) (p.1.1, p.1.2) (q.1.1, q.1.2) width])
             v)
      else (Raised (if c_int width then ValueError else OverflowError), v)
  end.
Proof.
  cbn [draw_segments]. cbv zeta. unfold bind at 1. unfold get at 1.
  destruct (orbs v !! i) as [orb|]; [|done].
  unfold bind. rewrite draw_line_unfold.
  by destruct (c_int _ && valid_color _).
Qed.

Lemma trail_lines_step (c : Color) (p q : TrailPoint)
    (rest : list TrailPoint) :
  trail_lines c (p :: q :: rest) =
  Line (c, py_int (255 * (0.5 + q.2 * 0.5))) (p.1.1, p.1.2) (q.1.1, q.1.2)
       (Z.max 4 (py_int (8 * q.2))) :: trail_lines c (q :: rest).
Proof. reflexivity. Qed.

(** Whatever its outcome, the inner loop touches the trail layer only. *)
Lemma draw_segments_frame (i : nat) (trail : list TrailPoint) :
  forall (v v' : Visualizer) (r : outcome unit),
    draw_segments i trail v = (r, v') ->
    v' = set_trail_surface (trail_surface v') v.
Proof.
  induction trail as [|p trail IH]; intros v v' r Hrun.
  - inversion Hrun; subst. by rewrite set_trail_surface_eta.
  - destruct trail as [|q rest].
    + inversion Hrun; subst. by rewrite set_trail_surface_eta.
    + rewrite draw_segments_step in Hrun.
      destruct (orbs v !! i) as [orb|];
        [|inversion Hrun; subst; by rewrite set_trail_surface_eta].
      cbv zeta in Hrun.
      destruct (c_int _ && valid_color _);
        [|inversion Hrun; subst; by rewrite set_trail_surface_eta].
      apply IH in Hrun. by rewrite Hrun.
Qed.

(** The inner loop completes when pygame accepts every segment, and then
    it has drawn them all. *)
Lemma draw_segments_returned (i : nat) (orb : Orb)
    (trail : list TrailPoint) :
  forall v : Visualizer,
    orbs v !! i = Some orb ->
    Forall line_drawable (trail_lines (color orb) trail) ->
    draw_segments i trail v =
    (Returned tt,
     set_trail_surface
       (trail_surface v ++ trail_lines (color orb) trail) v).
Proof.
  induction trail as [|p trail IH]; intros v Ho Hall.
  - cbn. by rewrite app_nil_r, set_trail_surface_eta.
  - destruct trail as [|q rest].
    + cbn. by rewrite app_nil_r, set_trail_surface_eta.
    + rewrite draw_segments_step, Ho. cbv zeta.
      rewrite trail_lines_step in Hall |- *.
      apply Forall_cons in Hall as [[Hw Hc] Hall].
      rewrite Hw, Hc. cbn [andb].
      rewrite IH; [|exact Ho|exact Hall].
      cbn [trail_surface set_trail_surface]. rewrite <- app_assoc.
      reflexivity.
Qed.

(** Conversely, when it returns every segment was accepted; when it
    raises, the orb is missing or pygame has refused a segment. *)
Lemma draw_segments_outcome (i : nat) (trail : list TrailPoint) :
  forall (v v' : Visualizer) (r : outcome unit),
    (2 <= length trail)%nat ->
    draw_segments i trail v = (r, v') ->
    match r with
    | Returned _ =>
        exists orb, orbs v !! i = Some orb /\
                    Forall line_drawable (trail_lines (color orb) trail)
    | Raised e =>
        (e = IndexError /\ orbs v !! i = None) \/
        ((e = ValueError \/ e = OverflowError) /\
         exists orb, orbs v !! i = Some orb /\
                     ~ Forall line_drawable (trail_lines (color orb) trail))
    end.
Proof.
  induction trail as [|p trail IH]; intros v v' r Hlen Hrun;
    [cbn in Hlen; lia|].
  destruct trail as [|q rest]; [cbn in Hlen; lia|].
  rewrite draw_segments_step in Hrun.
  destruct (orbs v !! i) as [orb|] eqn:Ho;
    [|inversion Hrun; subst; by left].
  cbv zeta in Hrun.
  destruct (c_int _) eqn:Hw; cbn [andb] in Hrun.
  - destruct (valid_color _) eqn:Hc.
    + destruct rest as [|q' rest'].
      * inversion Hrun; subst. exists orb. split; [done|].
        rewrite trail_lines_step. repeat constructor; done.
      * apply IH in Hrun; [|cbn; lia].
        cbn [orbs set_trail_surface] in Hrun. rewrite Ho in Hrun.
        destruct r as [[]|e].
        -- destruct Hrun as (orb' & [= <-] & Hall).
           exists orb. split; [done|].
           rewrite trail_lines_step. constructor; [done|exact Hall].
        -- destruct Hrun as [[_ [=]]|(He & orb' & [= <-] & Hbad)].
           right. split; [exact He|]. exists orb. split; [done|].
           rewrite trail_lines_step. intros Hall.
           apply Forall_cons in Hall as [_ Hall]. by apply Hbad.
    + inversion Hrun; subst. right. split; [by left|].
      exists orb. split; [done|]. rewrite trail_lines_step. intros Hall.
      apply Forall_cons in Hall as [[_ Hc'] _]. congruence.
  - inversion Hrun; subst. right. split; [by right|].
    exists orb. split; [done|]. rewrite trail_lines_step. intros Hall.
    apply Forall_cons in Hall as [[Hw' _] _]. congruence.
Qed.

Lemma draw_trail_unfold (i : nat) (v : Visualizer) :
  draw_trail i v =
  match trails v !! i with
  | None => (Raised IndexError, v)
  | Some trail =>
      if (length trail <? 2)%nat then (Returned tt, v)
      else draw_segments i trail v
  end.
Proof.
  unfold draw_trail, bind, get, raise, ret.
  destruct (trails v !! i) as [trail|]; [|done].
  by destruct (length trail <? 2)%nat.
Qed.

(** Whatever its outcome, the drawing loop touches the trail layer only. *)
Lemma for_range_draw_trail_frame (n : nat) :
  forall (start : nat) (v v' : Visualizer) (r : outcome unit),
    for_range draw_trail start n v = (r, v') ->
    v' = set_trail_surface (trail_surface v') v.
Proof.
  induction n as [|n IH]; intros start v v' r Hrun; simpl in Hrun.
  - inversion Hrun; subst. by rewrite set_trail_surface_eta.
  - unfold bind in Hrun. rewrite draw_trail_unfold in Hrun.
    destruct (trails v !! start) as [trail|];
      [|inversion Hrun; subst; by rewrite set_trail_surface_eta].
    destruct (length trail <? 2)%nat.
    + by apply IH in Hrun.
    + destruct (draw_segments start trail v) as [[[]|e] v1] eqn:Hseg.
      * apply draw_segments_frame in Hseg. apply IH in Hrun.
        rewrite Hrun, Hseg. reflexivity.
      * apply draw_segments_frame in Hseg. inversion Hrun; subst.
        exact Hseg.
Qed.

(** The drawing loop completes when every trail of two points or more
    has an orb and segments that pygame accepts, and then it has drawn
    every trail's segments. *)
Lemma for_range_draw_trail_returned (n : nat) :
  forall (start : nat) (v : Visualizer),
    (forall j trail, (start <= j < start + n)%nat ->
       trails v !! j = Some trail -> (2 <= length trail)%nat ->
       exists orb, orbs v !! j = Some orb /\
                   Forall line_drawable (trail_lines (color orb) trail)) ->
    (start + n <= length (trails v))%nat ->
    for_range draw_trail start n v =
    (Returned tt,
     set_trail_surface
       (trail_surface v ++ mjoin (trail_segments v <$> seq start n)) v).
Proof.
  induction n as [|n IH]; intros start v Hvalid Hlen; simpl.
  - by rewrite app_nil_r, set_trail_surface_eta.
  - unfold bind. rewrite draw_trail_unfold.
    destruct (lookup_lt_is_Some_2 (trails v) start) as [trail Ht]; [lia|].
    rewrite Ht. unfold trail_segments at 1. rewrite Ht.
    destruct (length trail <? 2)%nat eqn:Hshort.
    + apply Nat.ltb_lt in Hshort.
      rewrite IH; [|intros j tr Hj; apply Hvalid; lia|lia].
      do 2 f_equal. f_equal.
      destruct (orbs v !! start); [|done].
      by rewrite trail_lines_short.
    + apply Nat.ltb_ge in Hshort.
      destruct (Hvalid start trail) as (orb & Ho & Hall); [lia|done|done|].
      rewrite Ho, (draw_segments_returned start orb trail v Ho Hall).
      rewrite IH; [|intros j tr Hj; apply (Hvalid j tr); lia|simpl; lia].
      simpl. by rewrite <- app_assoc.
Qed.

(** Conversely, a loop that returns has met drawable trails only, and a
    loop that raises has met a trail without an orb or a segment that
    pygame refuses. *)
Lemma for_range_draw_trail_outcome (n : nat) :
  forall (start : nat) (v v' : Visualizer) (r : outcome unit),
    for_range draw_trail start n v = (r, v') ->
    (start + n <= length (trails v))%nat ->
    match r with
    | Returned _ =>
        forall j trail, (start <= j < start + n)%nat ->
          trails v !! j = Some trail -> (2 <= length trail)%nat ->
          exists orb, orbs v !! j = Some orb /\
                      Forall line_drawable (trail_lines (color orb) trail)
    | Raised e =>
        (e = IndexError \/ e = ValueError \/ e = OverflowError) /\
        exists j trail, (start <= j < start + n)%nat /\
          trails v !! j = Some trail /\ (2 <= length trail)%nat /\
          forall orb, orbs v !! j = Some orb ->
                      ~ Forall line_drawable (trail_lines (color orb) trail)
    end.
Proof.
  induction n as [|n IH]; intros start v v' r Hrun Hlen;
    cbn [for_range] in Hrun.
  - inversion Hrun; subst. intros j trail Hj. lia.
  - unfold bind in Hrun. rewrite draw_trail_unfold in Hrun.
    destruct (lookup_lt_is_Some_2 (trails v) start) as [trail Ht]; [lia|].
    rewrite Ht in Hrun.
    destruct (length trail <? 2)%nat eqn:Hshort.
    + apply Nat.ltb_lt in Hshort. apply IH in Hrun; [|lia].
      destruct r as [[]|e].
      * intros j tr Hj Htr Hl.
        destruct (decide (j = start)) as [->|Hne].
        -- rewrite Ht in Htr. injection Htr as <-. lia.
        -- apply Hrun; [lia|done|done].
      * destruct Hrun as (He & j & tr & Hj & Hrest).
        split; [exact He|]. exists j, tr. split; [lia|exact Hrest].
    + apply Nat.ltb_ge in Hshort.
      destruct (draw_segments start trail v) as [[[]|e] v1] eqn:Hseg.
      * pose proof (draw_segments_frame _ _ _ _ _ Hseg) as Hframe.
        pose proof (draw_segments_outcome _ _ _ _ _ Hshort Hseg)
          as (orb & Ho & Hall).
        apply IH in Hrun; [|rewrite Hframe; cbn; lia].
        rewrite Hframe in Hrun. cbn [orbs trails set_trail_surface] in Hrun.
        destruct r as [[]|e].
        -- intros j tr Hj Htr Hl.
           destruct (decide (j = start)) as [->|Hne].
           ++ rewrite Ht in Htr. injection Htr as <-. by exists orb.
           ++ apply Hrun; [lia|done|done].
        -- destruct Hrun as (He & j & tr & Hj & Hrest).
           split; [exact He|]. exists j, tr. split; [lia|exact Hrest].
      * pose proof (draw_segments_outcome _ _ _ _ _ Hshort Hseg) as Hout.
        inversion Hrun; subst. cbn beta iota in Hout.
        split.
        -- destruct Hout as [[-> _]|[[->| ->] _]]; auto.
        -- exists start, trail. split; [lia|]. split; [done|].
           split; [done|]. intros orb Ho.
           destruct Hout as [[_ Hnone]|(_ & orb' & Ho' & Hbad)];
             [congruence|].
           rewrite Ho in Ho'. by injection Ho' as <-.
Qed.

Lemma draw_trails_returned (surface : Surface) (v : Visualizer) :
  trails_drawable v ->
  draw_trails surface v =
  (Returned (surface ++
             [Blit (trail_layer v) (trail_surface_alpha v) (0, 0)%Z
                   BLEND_ALPHA_SDL2]),
   set_trail_surface (trail_layer v) v).
Proof.
  intros Hvalid. unfold draw_trails, bind, modify, get, ret. simpl.
  rewrite for_range_draw_trail_returned; simpl; [done| |lia].
  intros j trail _. apply Hvalid.
Qed.

(** [draw_trails] raises exactly when the trails are not drawable; the
    exception is one of three, and only the trail layer has changed. *)
Lemma draw_trails_raised (surface : Surface) (v : Visualizer) :
  ~ trails_drawable v ->
  exists e layer,
    draw_trails surface v = (Raised e, set_trail_surface layer v) /\
    (e = IndexError \/ e = ValueError \/ e = OverflowError).
Proof.
  intros Hbad. unfold draw_trails, bind, modify, get, ret.
  cbn [trails set_trail_surface].
  destruct (for_range draw_trail 0 (length (trails v))
              (set_trail_surface (fill (0, 0, 0, 0)%Z) v))
    as [[[]|e] v1] eqn:Hrun.
  - exfalso. apply Hbad.
    pose proof (for_range_draw_trail_outcome _ _ _ _ _ Hrun) as Hall.
    cbn [trails orbs set_trail_surface] in Hall.
    intros j trail Hj Hl. apply Hall; [lia| |done|done].
    apply lookup_lt_Some in Hj. lia.
  - pose proof (for_range_draw_trail_outcome _ _ _ _ _ Hrun) as [He _];
      [cbn; lia|].
    apply for_range_draw_trail_frame in Hrun.
    exists e, (trail_surface v1). split; [|exact He].
    rewrite Hrun at 1. reflexivity.
Qed.

Lemma draw_trails_frame (surface : Surface) (v : Visualizer) :
  (draw_trails surface v).2 =
  set_trail_surface (trail_surface (draw_trails surface v).2) v.
Proof.
  unfold draw_trails, bind, modify, get, ret. cbn.
  destruct (for_range _ _ _ _) as [[[]|e] v1] eqn:Hrun;
    apply for_range_draw_trail_frame in Hrun; cbn [snd];
    rewrite Hrun; reflexivity.
Qed.

(** The colours of the constructor are valid, and with them every segment
    whose intensity lies in [-1, 1]. *)
Lemma trail_lines_drawable (c : Color) (trail : list TrailPoint) :
  (forall alpha, (0 <= alpha <= 255)%Z -> valid_color (c, alpha) = true) ->
  Forall (fun p : TrailPoint => -1 <= p.2 <= 1) trail ->
  Forall line_drawable (trail_lines c trail).
Proof.
  intros Hc. induction trail as [|p trail IH]; intros Hall; [constructor|].
  destruct trail as [|q rest]; [constructor|].
  rewrite trail_lines_step.
  apply Forall_cons in Hall as [_ Hall].
  pose proof Hall as Hq. apply Forall_cons in Hq as [[Hlo Hhi] _].
  constructor; [|by apply IH].
  assert (0 <= py_int (255 * (0.5 + q.2 * 0.5)) <= 255)%Z as Halpha.
  { unfold py_int. destruct (Rle_dec 0 _) as [Hpos|Hneg]; [|lra].
    destruct (base_Int_part (255 * (0.5 + q.2 * 0.5))) as [Hle Hgt].
    split.
    - apply Z.lt_succ_r, lt_IZR. rewrite succ_IZR. lra.
    - apply le_IZR. lra. }
  assert (py_int (8 * q.2) <= 8)%Z as Hwidth.
  { unfold py_int. destruct (Rle_dec 0 _) as [Hpos|Hneg].
    - destruct (base_Int_part (8 * q.2)) as [Hle Hgt]. apply le_IZR. lra.
    - destruct (base_Int_part (- (8 * q.2))) as [Hle Hgt].
      assert (-1 < IZR (Int_part (- (8 * q.2)))) as Hpos by lra.
      apply lt_IZR in Hpos. lia. }
  split; [|by apply Hc].
  unfold c_int. apply andb_true_intro. split.
  - apply Z.leb_le. lia.
  - apply Z.ltb_lt. lia.
Qed.

Lemma constructed_colors (w h : Z) (v : Visualizer) (i : nat) (orb : Orb) :
  constructed w h v -> orbs v !! i = Some orb ->
  forall alpha, (0 <= alpha <= 255)%Z ->
    valid_color (color orb, alpha) = true.
Proof.
  intros Hc Ho alpha Halpha.
  pose proof (f_equal snd Hc) as Hfix. cbn [snd config] in Hfix.
  apply (f_equal (fun l => l !! i)) in Hfix.
  rewrite !list_lookup_fmap, Ho in Hfix.
  cbn [fmap option_fmap option_map] in Hfix.
  unfold valid_color. cbn [fst snd].
  assert ((0 <=? alpha)%Z && (alpha <=? 255)%Z = true) as ->.
  { apply andb_true_intro. split; apply Z.leb_le; lia. }
  unfold orb_fixed in Hfix.
  destruct i as [|[|[|[|[|i]]]]]; cbn in Hfix; [..|done];
    injection Hfix as Hcol _; rewrite Hcol; reflexivity.
Qed.

(** C10, as written, at a stored pattern with one trail more than there
    are orbs: the colour lookup for the sixth trail raises [IndexError],
    the exception leaves [draw_stored_pattern], and the stored trails stay
    in place: the first orb's trail is not empty afterwards. *)
Lemma draw_stored_pattern_extra_trail_raises :
  let stored : list (list TrailPoint) :=
    [[(0, 0, 0)]; []; []; []; []; [(0, 0, 0); (1, 1, 0)]] in
  let result :=
    draw_stored_pattern [] (PatternDict {["trails"%string := stored]})
                        (init 800 600) in
  result.1 = Raised IndexError /\
  trails result.2 = stored /\
  trails result.2 !! 0%nat <> Some [].
Proof.
  intros stored result. subst result. unfold draw_stored_pattern.
  rewrite lookup_singleton_eq.
  unfold bind, modify, draw_trails, bind, modify, get. simpl.
  split; [done|]. split; [done|]. discriminate.
Qed.

(** C10, amended: for a [pattern] that is not a dict or has no ['trails']
    key the call changes neither the instance nor the screen.  For a dict
    with stored trails, call them drawable when every stored trail of two
    points or more has an orb at its index and each of its segments has an
    opacity in 0..255 and a width that fits a C int.  If they are, the
    stored trails are drawn on the trail layer, the layer is blitted on
    the screen once, and afterwards every orb has an empty trail, whatever
    [self.trails] held before the call.  If they are not, the call raises
    [IndexError], [ValueError] or [OverflowError] and the stored trails
    stay in [self.trails].  On an instance made by the constructor the
    stored trails are drawable when each trail of two points or more has
    an index below the number of orbs and every intensity lies in
    [-1, 1]. *)
Theorem draw_stored_pattern_one_shot (screen : Surface) (pattern : Pattern)
    (v : Visualizer) :
  ((pattern = NotADict \/
    exists d, pattern = PatternDict d /\ d !! "trails"%string = None) ->
   draw_stored_pattern screen pattern v = (Returned screen, v)) /\
  (forall d stored,
     pattern = PatternDict d ->
     d !! "trails"%string = Some stored ->
     let layer := trail_layer (set_trails stored v) in
     (trails_drawable (set_trails stored v) ->
      draw_stored_pattern screen pattern v =
      (Returned (screen ++
                 [Blit layer (trail_surface_alpha v) (0, 0)%Z
                       BLEND_ALPHA_SDL2]),
       set_trails (replicate (length (orbs v)) [])
         (set_trail_surface layer v)) /\
      forall before,
        draw_stored_pattern screen pattern (set_trails before v) =
        draw_stored_pattern screen pattern v) /\
     (~ trails_drawable (set_trails stored v) ->
      exists e,
        (draw_stored_pattern screen pattern v).1 = Raised e /\
        (e = IndexError \/ e = ValueError \/ e = OverflowError) /\
        trails (draw_stored_pattern screen pattern v).2 = stored) /\
     (forall w h,
        constructed w h v ->
        (forall j trail, stored !! j = Some trail ->
           (2 <= length trail)%nat -> (j < length (orbs v))%nat) ->
        Forall (Forall (fun p : TrailPoint => -1 <= p.2 <= 1)) stored ->
        trails_drawable (set_trails stored v))).
Proof.
  split.
  - intros [->|(d & -> & Hd)]; [done|]. unfold draw_stored_pattern.
    by rewrite Hd.
  - intros d stored -> Hd layer. split; [|split].
    + intros Hvalid.
      assert (forall before,
                draw_stored_pattern screen (PatternDict d)
                  (set_trails before v) =
                (Returned (screen ++
                           [Blit layer (trail_surface_alpha v) (0, 0)%Z
                                 BLEND_ALPHA_SDL2]),
                 set_trails (replicate (length (orbs v)) [])
                   (set_trail_surface layer v))) as Hany.
      { intros before. unfold draw_stored_pattern. rewrite Hd.
        unfold bind at 1. unfold modify at 1. unfold bind at 1.
        change (set_trails stored (set_trails before v))
          with (set_trails stored v).
        rewrite (draw_trails_returned screen _ Hvalid). reflexivity. }
      split.
      * rewrite <- (Hany (trails v)). f_equal. by destruct v.
      * intros before. rewrite Hany, <- (Hany (trails v)). f_equal.
        by destruct v.
    + intros Hbad.
      destruct (draw_trails_raised screen _ Hbad) as (e & l & Hrun & He).
      exists e.
      assert (draw_stored_pattern screen (PatternDict d) v =
              (Raised e, set_trail_surface l (set_trails stored v))) as ->.
      { unfold draw_stored_pattern. rewrite Hd.
        unfold bind at 1. unfold modify at 1. unfold bind at 1.
        by rewrite Hrun. }
      cbn [fst snd trails set_trail_surface set_trails]. done.
    + intros w h Hc Hidx Hint j trail Hj Hl.
      cbn [trails orbs set_trails] in *.
      destruct (lookup_lt_is_Some_2 (orbs v) j) as [orb Ho];
        [by eapply Hidx|].
      exists orb. split; [exact Ho|].
      apply trail_lines_drawable.
      * by eapply constructed_colors.
      * rewrite Forall_forall in Hint. apply Hint.
        by eapply list_elem_of_lookup_2.
Qed.

Lemma draw_stored_pattern_one_shot_witness :
  draw_stored_pattern [] NotADict (init 800 600) =
    (Returned [], init 800 600) /\
  trails (draw_stored_pattern []
            (PatternDict {["trails"%string := [[(1, 2, 0); (3, 4, 1)]]]})
            (init 800 600)).2 = replicate 5 [].
Proof.
  split.
  - apply (proj1 (draw_stored_pattern_one_shot [] NotADict (init 800 600))).
    left. reflexivity.
  - destruct (proj2 (draw_stored_pattern_one_shot []
                       (PatternDict
                          {["trails"%string := [[(1, 2, 0); (3, 4, 1)]]]})
                       (init 800 600))
                    {["trails"%string := [[(1, 2, 0); (3, 4, 1)]]]}
                    [[(1, 2, 0); (3, 4, 1)]] eq_refl)
      as (Hrun & _ & Hdrawable).
    + apply lookup_singleton_eq.
    + destruct Hrun as [Hrun _].
      * apply (Hdrawable 800%Z 600%Z).
        -- reflexivity.
        -- intros j trail Hj _. apply lookup_lt_Some in Hj.
           change (length (orbs (init 800 600))) with 5%nat.
           cbn [length] in Hj. lia.
        -- repeat constructor; cbn [snd]; lra.
      * rewrite Hrun. reflexivity.
Defined.

(** ** What no method changes *)

Lemma constructed_init (w h : Z) : constructed w h (init w h).
Proof. reflexivity. Qed.

Lemma update_config (a : AudioData) (category : string) (v : Visualizer) :
  config (update a category v).2 = config v.
Proof.
  destruct (truthy a) eqn:Ha; [|by rewrite update_falsy].
  rewrite update_truthy by done. simpl.
  destruct (for_range _ _ _ _) as [[[]|e] v1] eqn:Hrun;
    apply for_range_update_frame in Hrun as (-> & _ & _ & Hfix);
    unfold config; simpl in *; by rewrite Hfix.
Qed.

Lemma toggle_screenshot_mode_config (v : Visualizer) :
  config (toggle_screenshot_mode v).2 = config v.
Proof. reflexivity. Qed.

Lemma reset_config (v : Visualizer) : config (reset v).2 = config v.
Proof.
  unfold config; simpl. f_equal. rewrite <- list_fmap_compose.
  by apply list_fmap_ext.
Qed.

Lemma draw_stored_pattern_config (screen : Surface) (pattern : Pattern)
    (v : Visualizer) :
  config (draw_stored_pattern screen pattern v).2 = config v.
Proof.
  unfold draw_stored_pattern. destruct pattern as [|d]; [done|].
  destruct (d !! "trails"%string) as [stored|]; [|done].
  unfold bind at 1. unfold modify at 1. unfold bind at 1.
  unfold draw_trails, bind, modify, get, ret. simpl.
  destruct (for_range _ _ _ _) as [[[]|e] v1] eqn:Hrun;
    apply for_range_draw_trail_frame in Hrun as ->; done.
Qed.

Lemma constructed_back_button (w h : Z) (v : Visualizer) :
  constructed w h v -> back_button v = mkRect 20 20 40 40.
Proof. unfold constructed, config. intros H. by inversion H. Qed.

(** ** [reset] *)







(** ** Angles: [atan2] after [cos] and [sin] *)

Lemma wrap_angle_bounds (a : R) : - PI < wrap_angle a <= PI.
Proof.
  unfold wrap_angle. pose proof PI_RGT_0 as Hpi.
  destruct (base_Int_part ((PI - a) / (2 * PI))) as [Hlo Hhi].
  set (m := IZR (Int_part ((PI - a) / (2 * PI)))) in *.
  assert ((PI - a) / (2 * PI) * (2 * PI) = PI - a) as Hmul
    by (field; lra).
  split; nra.
Qed.

Lemma wrap_angle_unique (a b : R) (k : Z) :
  - PI < b <= PI -> b = a + 2 * PI * IZR k -> b = wrap_angle a.
Proof.
  intros Hb Hk. pose proof (wrap_angle_bounds a) as Hw.
  pose proof PI_RGT_0 as Hpi. unfold wrap_angle in *.
  set (m := Int_part ((PI - a) / (2 * PI))) in *.
  assert (k - m = 0)%Z as Hkm.
  { apply one_IZR_lt1. rewrite minus_IZR. split; nra. }
  assert (k = m) as -> by lia. done.
Qed.

Lemma wrap_angle_id (a : R) : - PI < a <= PI -> wrap_angle a = a.
Proof.
  intros Ha. symmetry. apply (wrap_angle_unique a a 0); [done|]. lra.
Qed.

Lemma wrap_angle_shift (a d : R) :
  wrap_angle (wrap_angle a + d) = wrap_angle (a + d).
Proof.
  symmetry.
  apply (wrap_angle_unique _ _
           (- Int_part ((PI - a) / (2 * PI)) +
            Int_part ((PI - (a + d)) / (2 * PI)))).
  - apply wrap_angle_bounds.
  - rewrite plus_IZR, opp_IZR. unfold wrap_angle. ring.
Qed.

Lemma sin_cos_period_Z (a : R) (k : Z) :
  sin (a + 2 * PI * IZR k) = sin a /\ cos (a + 2 * PI * IZR k) = cos a.
Proof.
  destruct (Z_le_gt_dec 0 k) as [Hk|Hk].
  - rewrite <- (Z2Nat.id k Hk), <- INR_IZR_INZ.
    replace (a + 2 * PI * INR (Z.to_nat k))
      with (a + 2 * INR (Z.to_nat k) * PI) by ring.
    split; [apply sin_period | apply cos_period].
  - pose proof (sin_period (a + 2 * PI * IZR k) (Z.to_nat (- k))) as Hs.
    pose proof (cos_period (a + 2 * PI * IZR k) (Z.to_nat (- k))) as Hc.
    assert (a + 2 * PI * IZR k + 2 * INR (Z.to_nat (- k)) * PI = a) as Heq.
    { rewrite INR_IZR_INZ, Z2Nat.id by lia. rewrite opp_IZR. ring. }
    rewrite Heq in Hs, Hc. done.
Qed.

Lemma sin_wrap_angle (a : R) : sin (wrap_angle a) = sin a.
Proof. apply sin_cos_period_Z. Qed.

Lemma cos_wrap_angle (a : R) : cos (wrap_angle a) = cos a.
Proof. apply sin_cos_period_Z. Qed.

Lemma tan_shift_PI (b : R) : cos b <> 0 -> tan (b + PI) = tan b.
Proof.
  intros Hc. unfold tan. rewrite neg_sin, neg_cos. field. done.
Qed.

(** Where the signs of [cos] and [sin] put an angle of (-PI, PI]. *)
Lemma cos_pos_range (b : R) :
  - PI < b <= PI -> 0 < cos b -> - (PI / 2) < b < PI / 2.
Proof.
  intros Hb Hc. pose proof PI_RGT_0 as Hpi. split.
  - destruct (Rtotal_order b (- (PI / 2))) as [Hlt|[->|Hgt]]; [| |done].
    + assert (cos b < 0); [|lra].
      rewrite <- cos_neg. apply cos_lt_0; lra.
    + rewrite cos_neg, cos_PI2 in Hc. lra.
  - destruct (Rtotal_order b (PI / 2)) as [Hlt|[->|Hgt]]; [done| |].
    + rewrite cos_PI2 in Hc. lra.
    + assert (cos b < 0); [|lra]. apply cos_lt_0; lra.
Qed.

Lemma cos_neg_sin_nonneg_range (b : R) :
  - PI < b <= PI -> cos b < 0 -> 0 <= sin b -> PI / 2 < b.
Proof.
  intros Hb Hc Hs. pose proof PI_RGT_0 as Hpi.
  destruct (Rlt_dec (PI / 2) b) as [|Hn]; [done|].
  destruct (Rle_dec (- (PI / 2)) b) as [Hge|Hlt].
  - assert (0 <= cos b) by (apply cos_ge_0; lra). lra.
  - assert (sin b < 0); [|lra]. apply sin_lt_0_var; lra.
Qed.

Lemma cos_neg_sin_neg_range (b : R) :
  - PI < b <= PI -> cos b < 0 -> sin b < 0 -> b < - (PI / 2).
Proof.
  intros Hb Hc Hs. pose proof PI_RGT_0 as Hpi.
  destruct (Rlt_dec b (- (PI / 2))) as [|Hn]; [done|].
  destruct (Rle_dec b (PI / 2)) as [Hle|Hgt].
  - assert (0 <= cos b) by (apply cos_ge_0; lra). lra.
  - assert (0 <= sin b) by (apply sin_ge_0; lra). lra.
Qed.

Lemma cos_zero_range (b : R) :
  - PI < b <= PI -> cos b = 0 ->
  (0 < sin b /\ b = PI / 2) \/ (sin b < 0 /\ b = - (PI / 2)).
Proof.
  intros Hb Hc. pose proof PI_RGT_0 as Hpi.
  destruct (Rtotal_order b (- (PI / 2))) as [Hlt|[->|Hgt]].
  - assert (cos b < 0); [|lra]. rewrite <- cos_neg. apply cos_lt_0; lra.
  - right. split; [|done]. rewrite sin_neg, sin_PI2. lra.
  - destruct (Rtotal_order b (PI / 2)) as [Hlt|[->|Hgt']].
    + assert (0 < cos b) by (apply cos_gt_0; lra). lra.
    + left. split; [|done]. rewrite sin_PI2. lra.
    + assert (cos b < 0) by (apply cos_lt_0; lra). lra.
Qed.

(** [atan2] gives back the angle of a point written in polar form. *)
Lemma atan2_polar (r b : R) :
  0 < r -> - PI < b <= PI -> atan2 (sin b * r) (cos b * r) = b.
Proof.
  intros Hr Hb. pose proof PI_RGT_0 as Hpi. unfold atan2.
  assert (forall c, c <> 0 -> sin b * r / (c * r) = sin b / c) as Hquot
    by (intros c Hc; field; lra).
  destruct (Rlt_dec 0 (cos b * r)) as [Hx|Hx].
  - (* right half plane *)
    assert (0 < cos b) as Hc by nra.
    rewrite Hquot by lra. apply atan_tan. by apply cos_pos_range.
  - destruct (Rlt_dec (cos b * r) 0) as [Hx'|Hx'].
    + (* left half plane *)
      assert (cos b < 0) as Hc by nra.
      rewrite Hquot by lra. change (sin b / cos b) with (tan b).
      destruct (Rle_dec 0 (sin b * r)) as [Hy|Hy].
      * assert (0 <= sin b) as Hs by nra.
        pose proof (cos_neg_sin_nonneg_range b Hb Hc Hs) as Hlo.
        pose proof (neg_cos (b - PI)) as Hn.
        pose proof (tan_shift_PI (b - PI)) as Ht.
        replace (b - PI + PI) with b in Hn, Ht by ring.
        rewrite Ht by lra. rewrite atan_tan; lra.
      * assert (sin b < 0) as Hs by nra.
        pose proof (cos_neg_sin_neg_range b Hb Hc Hs) as Hhi.
        rewrite <- (tan_shift_PI b) by lra.
        rewrite atan_tan; lra.
    + (* on the vertical axis *)
      assert (cos b = 0) as Hc by nra.
      destruct (cos_zero_range b Hb Hc) as [[Hs ->]|[Hs ->]].
      * destruct (Rlt_dec 0 (sin (PI / 2) * r)) as [|Hy]; [done|]. nra.
      * destruct (Rlt_dec 0 (sin (- (PI / 2)) * r)) as [Hy|_]; [nra|].
        destruct (Rlt_dec (sin (- (PI / 2)) * r) 0) as [|Hy]; [done|]. nra.
Qed.

Lemma atan2_wrap_angle (r a : R) :
  0 < r -> atan2 (sin a * r) (cos a * r) = wrap_angle a.
Proof.
  intros Hr. rewrite <- (sin_wrap_angle a), <- (cos_wrap_angle a).
  apply atan2_polar; [done|apply wrap_angle_bounds].
Qed.

(** The distance of a point in polar form is its radius. *)
Lemma sqrt_polar (r a : R) :
  0 <= r -> sqrt ((cos a * r) ^ 2 + (sin a * r) ^ 2) = r.
Proof.
  intros Hr. rewrite <- (sqrt_Rsqr r Hr) at 3. f_equal.
  transitivity (Rsqr r * (Rsqr (sin a) + Rsqr (cos a)));
    [unfold Rsqr; ring | rewrite sin2_cos2; ring].
Qed.

(** ** An orb left alone: no attraction, no Cartesian velocity *)

Local Arguments pow : simpl never.

(** One step of such an orb: the angle advances and is wrapped by
    [atan2], the radius is recovered unchanged, and the spring acts on the
    deviation unless it is zero. *)
Lemma update_orb_free (v : Visualizer) (intensity : R) (o : Orb) :
  ~ 0 < intensity ->
  x_velocity o = 0 -> y_velocity o = 0 ->
  0 < IZR (orbit_radius v) + deviation o ->
  let o' := (update_orb v intensity o).2 in
  orb_fixed o' = orb_fixed o /\
  x_velocity o' = 0 /\ y_velocity o' = 0 /\
  angle o' = wrap_angle (angle o + angular_velocity o) /\
  (deviation o = 0 ->
   deviation o' = 0 /\ radial_velocity o' = radial_velocity o) /\
  (deviation o <> 0 ->
   let u := radial_velocity o + - spring_constant v * deviation o in
   deviation o' = deviation o + u /\ radial_velocity o' = u * damping v).
Proof.
  intros Hi Hx Hy Hr o'. subst o'. run_orb.
  destruct (Rlt_dec 0 intensity); [done|]. simpl. rewrite Hx, Hy.
  set (a := angle o + angular_velocity o).
  set (r := IZR (orbit_radius v) + deviation o) in *.
  replace (IZR (center v).1 + cos a * r + 0 - IZR (center v).1)
    with (cos a * r) by ring.
  replace (IZR (center v).2 + sin a * r + 0 - IZR (center v).2)
    with (sin a * r) by ring.
  rewrite sqrt_polar by lra. rewrite atan2_wrap_angle by done.
  replace (r - IZR (orbit_radius v)) with (deviation o) by (unfold r; ring).
  destruct (Rlt_dec 0 (Rabs (deviation o))) as [Hd|Hd]; simpl.
  - split_and!; try done; try lra.
    intros Hz. rewrite Hz, Rabs_R0 in Hd. lra.
  - split_and!; try done; try lra.
    intros Hnz. apply Rabs_pos_lt in Hnz. lra.
Qed.

Lemma update_orb_config (v1 v2 : Visualizer) :
  config v1 = config v2 -> update_orb v1 = update_orb v2.
Proof.
  intros Hc. unfold config in Hc.
  assert (center v1 = center v2) as H1 by (by injection Hc).
  assert (orbit_radius v1 = orbit_radius v2) as H2 by (by injection Hc).
  assert (spring_constant v1 = spring_constant v2) as H3 by (by injection Hc).
  assert (damping v1 = damping v2) as H4 by (by injection Hc).
  assert (attraction_strength v1 = attraction_strength v2) as H5
    by (by injection Hc).
  unfold update_orb. by rewrite H1, H2, H3, H4, H5.
Qed.

(** A run of silent frames completes, and takes every orb through one
    [coast] step per frame. *)
Lemma updates_silent (category : string) (frames : list AudioData) :
  forall (v : Visualizer) (i : nat) (o : Orb),
    Forall silent frames ->
    (length (orbs v) <= length (trails v))%nat ->
    orbs v !! i = Some o ->
    exists v',
      updates frames category v = (Returned tt, v') /\
      orbs v' !! i = Some (Nat.iter (length frames) (coast v) o).
Proof.
  induction frames as [|a frames IH]; intros v i o Hall Hlen Ho.
  - exists v. done.
  - inversion Hall as [|? ? [Ha Hz] Hrest]; subst.
    destruct (update_returns_without_attraction a category v) as [v1 Hv1];
      [lra|done|].
    pose proof (update_config a category v) as Hcfg.
    rewrite Hv1 in Hcfg. cbn [snd] in Hcfg.
    pose proof (update_returned _ _ _ _ Ha Hv1) as (Hlo & Hlt & _ & Hin & _).
    destruct (Hin i) as (o0 & p & o1 & t & Ho0 & Hstep & Ho1 & _);
      [by eapply lookup_lt_Some|].
    rewrite Ho in Ho0. injection Ho0 as <-.
    destruct (IH v1 i o1 Hrest) as (v' & Hrun & Ho'); [lia|done|].
    exists v'. split.
    + cbn [updates]. unfold bind. by rewrite Hv1.
    + rewrite Ho'. f_equal. cbn [length]. rewrite Nat.iter_succ_r.
      assert (coast v1 = coast v) as ->
        by (unfold coast; by rewrite (update_orb_config v1 v Hcfg)).
      f_equal. unfold coast. rewrite Hz in Hstep. by rewrite Hstep.
Qed.

(** ** Angle of an undisturbed orb *)

Section Circular.
Variable v : Visualizer.
Hypothesis radius_pos : (0 < orbit_radius v)%Z.

Lemma coast_circular (o : Orb) :
  circular o ->
  circular (coast v o) /\
  orb_fixed (coast v o) = orb_fixed o /\
  radial_velocity (coast v o) = radial_velocity o /\
  angle (coast v o) = wrap_angle (angle o + angular_velocity o).
Proof.
  intros (Hd & Hx & Hy). apply IZR_lt in radius_pos.
  destruct (update_orb_free v 0 o) as (Hf & Hx' & Hy' & Ha & Hz & _);
    [lra|done|done|lra|].
  destruct (Hz Hd) as [Hd' Hrv]. unfold coast, circular. done.
Qed.

Lemma iter_coast_circular (n : nat) (o : Orb) :
  circular o ->
  let o' := Nat.iter (S n) (coast v) o in
  circular o' /\
  orb_fixed o' = orb_fixed o /\
  radial_velocity o' = radial_velocity o /\
  angle o' = wrap_angle (angle o + INR (S n) * angular_velocity o).
Proof.
  intros Hc. induction n as [|n IH].
  - cbn [Nat.iter nat_rect].
    destruct (coast_circular o Hc) as (Hc' & Hf & Hrv & Ha).
    split_and!; try done. rewrite Ha. f_equal. simpl. ring.
  - destruct IH as (Hc' & Hf & Hrv & Ha).
    set (o1 := Nat.iter (S n) (coast v) o) in *.
    change (Nat.iter (S (S n)) (coast v) o) with (coast v o1).
    destruct (coast_circular o1 Hc') as (Hc'' & Hf' & Hrv' & Ha').
    split_and!; try congruence.
    rewrite Ha', Ha, wrap_angle_shift. f_equal.
    assert (angular_velocity o1 = angular_velocity o) as ->
      by (unfold orb_fixed in Hf; congruence).
    rewrite (S_INR (S n)). ring.
Qed.
End Circular.

Lemma silent_zero_frame :
  silent (Some {["intensity"%string := PyInt 0]}).
Proof.
  split.
  - apply truthy_Some_size. rewrite map_size_singleton. lia.
  - unfold frame_intensity, dict_get. by rewrite lookup_singleton_eq.
Qed.

(** C1, as written, at the fourth orb of a fresh [Visualizer(800, 600)],
    whose angle starts at [6 * pi / 5]: one update with intensity 0 leaves
    the angle at [6 * pi / 5 + 0.001 - 2 * pi], because [atan2] brings it
    back into (-pi, pi]. *)
Lemma angle_wrapped_after_one_update :
  let result :=
    updates [Some {["intensity"%string := PyInt 0]}] "sleep" (init 800 600) in
  result.1 = Returned tt /\
  angle <$> orbs (init 800 600) !! 3%nat = Some (6 * PI / 5) /\
  angle <$> orbs result.2 !! 3%nat = Some (6 * PI / 5 + 0.001 - 2 * PI) /\
  6 * PI / 5 + 0.001 - 2 * PI <> 6 * PI / 5 + 1 * 0.001.
Proof.
  intros result. pose proof PI2_1 as Hpi.
  destruct (updates_silent "sleep"
              [Some {["intensity"%string := PyInt 0]}] (init 800 600) 3%nat
              (init_orb 0.001 ((200, 255, 80)%Z, 6 * PI / 5)))
    as (v' & Hrun & Ho').
  { repeat constructor; apply silent_zero_frame. }
  { simpl. lia. }
  { reflexivity. }
  subst result. rewrite Hrun. cbn [fst snd].
  split; [reflexivity|]. split; [reflexivity|]. split; [|lra].
  rewrite Ho'. cbn [fmap option_fmap option_map length]. f_equal.
  destruct (iter_coast_circular (init 800 600) eq_refl 0%nat
              (init_orb 0.001 ((200, 255, 80)%Z, 6 * PI / 5)))
    as (_ & _ & _ & Ha).
  { unfold circular. cbn. split_and!; reflexivity. }
  cbv zeta in Ha. rewrite Ha.
  symmetry. apply (wrap_angle_unique _ _ (-1)); [lra|].
  cbn [angle angular_velocity init_orb fst snd INR]. lra.
Qed.

(** C1, amended: over N >= 1 consecutive updates with intensity 0, an orb
    that starts on its nominal orbit with zero Cartesian velocity ends at
    the representative in (-pi, pi] of its initial angle plus N times its
    angular velocity: [atan2] wraps the angle at every update.  The final
    angle equals the unwrapped sum exactly when that sum lies in
    (-pi, pi]. *)
Theorem angle_after_silent_updates (category : string)
    (frames : list AudioData) (v : Visualizer) (i : nat) (o : Orb) :
  (0 < orbit_radius v)%Z ->
  (length (orbs v) <= length (trails v))%nat ->
  Forall silent frames ->
  frames <> [] ->
  orbs v !! i = Some o ->
  deviation o = 0 -> x_velocity o = 0 -> y_velocity o = 0 ->
  exists v' o',
    updates frames category v = (Returned tt, v') /\
    orbs v' !! i = Some o' /\
    let target := angle o + INR (length frames) * angular_velocity o in
    angle o' = wrap_angle target /\
    - PI < angle o' <= PI /\
    (exists k : Z, angle o' = target + 2 * PI * IZR k) /\
    (angle o' = target <-> - PI < target <= PI).
Proof.
  intros Hr Hlen Hall Hne Ho Hd Hx Hy.
  destruct (updates_silent category frames v i o Hall Hlen Ho)
    as (v' & Hrun & Ho').
  exists v', (Nat.iter (length frames) (coast v) o).
  split; [done|]. split; [done|].
  destruct frames as [|a frames]; [done|]. cbn [length].
  destruct (iter_coast_circular v Hr (length frames) o) as (_ & _ & _ & Ha);
    [done|].
  cbv zeta. rewrite Ha. split; [done|].
  split; [apply wrap_angle_bounds|]. split.
  - eexists. reflexivity.
  - split.
    + intros <-. apply wrap_angle_bounds.
    + apply wrap_angle_id.
Qed.

Lemma angle_after_silent_updates_witness :
  exists v' o',
    updates [Some {["intensity"%string := PyInt 0]};
             Some {["intensity"%string := PyInt 0]}] "sleep" (init 800 600) =
      (Returned tt, v') /\
    orbs v' !! 0%nat = Some o' /\
    angle o' = wrap_angle (0 + INR 2 * 0.001).
Proof.
  destruct (angle_after_silent_updates "sleep"
              [Some {["intensity"%string := PyInt 0]};
               Some {["intensity"%string := PyInt 0]}] (init 800 600) 0%nat
              (init_orb 0.001 ((80, 180, 255)%Z, 0)))
    as (v' & o' & Hrun & Ho' & Ha & _).
  - reflexivity.
  - simpl. lia.
  - repeat constructor; apply silent_zero_frame.
  - discriminate.
  - reflexivity.
  - reflexivity.
  - reflexivity.
  - reflexivity.
  - exists v', o'. split; [exact Hrun|]. split; [exact Ho'|]. exact Ha.
Defined.

(** ** Spring-back of a perturbed orb *)

(** Decimal literals are [Q2R] of a fraction; [field] wants them as
    quotients of integers. *)
Ltac real_field :=
  unfold Q2R; cbn [QArith_base.Qnum QArith_base.Qden]; field.

Lemma coast_spring (v : Visualizer) (o : Orb) :
  x_velocity o = 0 -> y_velocity o = 0 ->
  0 < IZR (orbit_radius v) + deviation o ->
  x_velocity (coast v o) = 0 /\ y_velocity (coast v o) = 0 /\
  orb_fixed (coast v o) = orb_fixed o /\
  radial_state (coast v o) =
  spring_step (spring_constant v) (damping v) (radial_state o).
Proof.
  intros Hx Hy Hr.
  destruct (update_orb_free v 0 o) as (Hf & Hx' & Hy' & _ & Hz & Hnz);
    [lra|done|done|done|].
  fold (coast v o) in *. split_and!; try done.
  unfold radial_state, spring_step. cbn [fst snd].
  destruct (Rlt_dec 0 (Rabs (deviation o))) as [Hd|Hd].
  - destruct Hnz as [-> ->]; [|done].
    intros H0. rewrite H0, Rabs_R0 in Hd. lra.
  - assert (deviation o = 0) as Hdz.
    { destruct (Req_dec_T (deviation o) 0) as [|Hne]; [done|].
      apply Rabs_pos_lt in Hne. lra. }
    destruct (Hz Hdz) as [-> ->]. by rewrite Hdz.
Qed.

Lemma energy_spring_step (s : R * R) :
  s.1 <> 0 -> energy (spring_step 0.01 0.98 s) = 0.98 * energy s.
Proof.
  destruct s as [d u]. cbn [fst]. intros Hd. unfold spring_step.
  cbn [fst snd].
  destruct (Rlt_dec 0 (Rabs d)) as [_|Hn];
    [|apply Rabs_pos_lt in Hd; lra].
  unfold energy. cbn [fst snd]. real_field.
Qed.

Lemma spring_step_rest (k c : R) (s : R * R) :
  s.1 = 0 -> spring_step k c s = s.
Proof.
  intros Hd. unfold spring_step. rewrite Hd, Rabs_R0.
  destruct (Rlt_dec 0 0); [lra|done].
Qed.

Lemma energy_bounds (s : R * R) :
  0.009775 * (s.1 * s.1) <= energy s /\ 0.99 * (s.2 * s.2) <= energy s.
Proof.
  unfold energy. destruct s as [d u]. cbn [fst snd].
  pose proof (Rle_0_sqr (u + 0.005 * d)) as H1.
  pose proof (Rle_0_sqr (0.0098 * d + 0.005 * u)) as H2.
  pose proof (Rle_0_sqr u) as H3.
  unfold Rsqr in *. split; lra.
Qed.

(** Along the iteration either the deviation has come to rest at 0 or
    the energy has shrunk geometrically. *)
Lemma iter_spring_energy (n : nat) (s : R * R) :
  let s' := Nat.iter n (spring_step 0.01 0.98) s in
  s'.1 = 0 \/ energy s' <= 0.98 ^ n * energy s.
Proof.
  induction n as [|n IH]; cbn [Nat.iter nat_rect].
  - right. rewrite pow_O. lra.
  - set (sn := Nat.iter n (spring_step 0.01 0.98) s) in *. cbv zeta in IH.
    destruct (Req_dec_T sn.1 0) as [Hz|Hnz].
    + left. by rewrite spring_step_rest.
    + right. rewrite energy_spring_step by done.
      destruct IH as [|IH]; [done|].
      rewrite <- tech_pow_Rmult, Rmult_assoc.
      apply Rmult_le_compat_l; [lra|done].
Qed.

Lemma iter_spring_deviation (n : nat) (d : R) :
  let s' := Nat.iter n (spring_step 0.01 0.98) (d, 0) in
  s'.1 * s'.1 <= 1.01 * 0.98 ^ n * (d * d).
Proof.
  cbv zeta. pose proof (iter_spring_energy n (d, 0)) as H. cbv zeta in H.
  set (s' := Nat.iter n (spring_step 0.01 0.98) (d, 0)) in *.
  assert (0 < 0.98 ^ n) as Hpow by (apply pow_lt; lra).
  assert (0 <= d * d) as Hdd by nra.
  destruct H as [Hz|He].
  - rewrite Hz. nra.
  - destruct (energy_bounds s') as [Hlow _].
    unfold energy at 2 in He. cbn [fst snd] in He.
    assert (0 <= 0.98 ^ n * (d * d)) by nra. nra.
Qed.

Lemma pow_098_le_1 (n : nat) : 0 < 0.98 ^ n <= 1.
Proof.
  split; [apply pow_lt; lra|].
  rewrite <- (pow1 n). apply pow_incr. lra.
Qed.

Lemma sqr_lt_abs (x y : R) : 0 <= y -> x * x < y * y -> Rabs x < y.
Proof.
  intros Hy Hlt. apply Rabs_def1; nra.
Qed.

(** The deviation of the spring iteration started at rest tends to 0. *)
Lemma iter_spring_vanishes (d eps : R) :
  0 < eps ->
  exists N : nat, forall n, (N <= n)%nat ->
    Rabs (Nat.iter n (spring_step 0.01 0.98) (d, 0)).1 < eps.
Proof.
  intros Heps.
  destruct (pow_lt_1_zero 0.98) with (y := eps * eps / (1.01 * (d * d) + 1))
    as [N HN].
  { rewrite Rabs_pos_eq; lra. }
  { apply Rdiv_lt_0_compat; nra. }
  exists N. intros n Hn. apply sqr_lt_abs; [lra|].
  pose proof (iter_spring_deviation n d) as Hd. cbv zeta in Hd.
  specialize (HN n Hn). destruct (pow_098_le_1 n) as [Hp _].
  rewrite Rabs_pos_eq in HN by lra.
  assert (0 < 1.01 * (d * d) + 1) as Hden by nra.
  assert (0.98 ^ n * (1.01 * (d * d) + 1) < eps * eps) as Hmul.
  { apply (Rmult_lt_compat_r (1.01 * (d * d) + 1)) in HN; [|done].
    unfold Rdiv in HN. rewrite Rmult_assoc, Rinv_l in HN by lra. lra. }
  nra.
Qed.

Section Perturbed.
Variable v : Visualizer.
Variable o : Orb.
Hypothesis spring_001 : spring_constant v = 0.01.
Hypothesis damping_098 : damping v = 0.98.
Hypothesis radius_pos : (0 < orbit_radius v)%Z.
Hypothesis no_x_velocity : x_velocity o = 0.
Hypothesis no_y_velocity : y_velocity o = 0.
Hypothesis at_radial_rest : radial_velocity o = 0.
Hypothesis small : Rabs (deviation o) < 0.99 * IZR (orbit_radius v).

Lemma iter_spring_inside (n : nat) :
  0 < IZR (orbit_radius v) +
      (Nat.iter n (spring_step 0.01 0.98) (deviation o, 0)).1.
Proof.
  pose proof (iter_spring_deviation n (deviation o)) as Hd. cbv zeta in Hd.
  set (d := (Nat.iter n (spring_step 0.01 0.98) (deviation o, 0)).1) in *.
  apply IZR_lt in radius_pos. destruct (pow_098_le_1 n) as [Hp0 Hp1].
  assert (deviation o * deviation o <
          0.99 * IZR (orbit_radius v) * (0.99 * IZR (orbit_radius v)))
    as Hsq.
  { apply Rabs_def2 in small as [H1 H2]. nra. }
  assert (0 <= deviation o * deviation o) as Hnn by nra.
  assert (0.98 ^ n * (deviation o * deviation o) <=
          deviation o * deviation o) as Hle by nra.
  assert (d * d < IZR (orbit_radius v) * IZR (orbit_radius v)) as Hdd
    by nra.
  nra.
Qed.

(** The orb follows the spring iteration, with no Cartesian velocity. *)
Lemma iter_coast_spring (n : nat) :
  let o' := Nat.iter n (coast v) o in
  x_velocity o' = 0 /\ y_velocity o' = 0 /\
  orb_fixed o' = orb_fixed o /\
  radial_state o' = Nat.iter n (spring_step 0.01 0.98) (deviation o, 0).
Proof.
  induction n as [|n IH]; cbn [Nat.iter nat_rect].
  - split_and!; try done. unfold radial_state. by rewrite at_radial_rest.
  - fold (Nat.iter n (coast v) o).
    fold (Nat.iter n (spring_step 0.01 0.98) (deviation o, 0)).
    set (on := Nat.iter n (coast v) o) in *.
    destruct IH as (Hx & Hy & Hf & Hs).
    destruct (coast_spring v on Hx Hy) as (Hx' & Hy' & Hf' & Hs').
    { pose proof (iter_spring_inside n) as Hin. rewrite <- Hs in Hin.
      exact Hin. }
    split_and!; try done; [congruence|].
    by rewrite Hs', spring_001, damping_098, Hs.
Qed.
End Perturbed.

(** ** The deviation oscillates while it decays *)

Section Decay.
Variable f : nat -> R.
Hypothesis recurrence :
  forall n, f (S (S n)) = 1.97 * f (S n) - 0.98 * f n.

(** A solution cannot stay positive and non-increasing: the ratio of
    consecutive terms would lose at least 0.009 at every step. *)
Lemma no_positive_decay (N : nat) :
  (forall n, (N <= n)%nat -> 0 < f n) ->
  (forall n, (N <= n)%nat -> f (S n) <= f n) ->
  False.
Proof.
  intros Hpos Hdec.
  assert (forall j, (j <= 112)%nat -> forall n, (N + j <= n)%nat ->
            f (S n) <= (1 - 0.009 * INR j) * f n) as Hratio.
  { induction j as [|j IH]; intros Hj n Hn.
    - simpl. rewrite Rmult_0_r, Rminus_0_r, Rmult_1_l. apply Hdec. lia.
    - destruct n as [|m]; [lia|].
      assert (f (S m) <= (1 - 0.009 * INR j) * f m) as Hm
        by (apply IH; lia).
      assert (INR j <= 111) as Hj'.
      { replace 111 with (INR 111) by (rewrite INR_IZR_INZ; done).
        apply le_INR. lia. }
      pose proof (pos_INR j) as Hj0.
      rewrite S_INR, recurrence.
      set (t := 1 - 0.009 * INR j) in *.
      assert (0 < t) as Ht by (unfold t; lra).
      assert (0 < f (S m)) as Hp by (apply Hpos; lia).
      apply (Rmult_le_reg_l t); [done|].
      assert (0 <= (t * t - 1.979 * t + 0.98) * f (S m)) as Hquad.
      { apply Rmult_le_pos; [|lra].
        pose proof (Rle_0_sqr (t - 0.9895)) as Hs. unfold Rsqr in Hs. lra. }
      replace (1 - 0.009 * (INR j + 1)) with (t - 0.009) by (unfold t; ring).
      nra. }
  specialize (Hratio 112%nat (le_n _) (N + 112)%nat (le_n _)).
  assert (INR 112 = 112) as H112 by (rewrite INR_IZR_INZ; done).
  rewrite H112 in Hratio.
  assert (0 < f (N + 112)%nat) by (apply Hpos; lia).
  assert (0 < f (S (N + 112))) by (apply Hpos; lia).
  nra.
Qed.

End Decay.

Section Oscillation.
Variable f : nat -> R.
Hypothesis recurrence :
  forall n, f (S (S n)) = 1.97 * f (S n) - 0.98 * f n.
Hypothesis nonzero : forall n, f n <> 0.

(** Right after a change of sign the magnitude grows. *)
Lemma grows_after_sign_change (n : nat) :
  f n * f (S n) < 0 -> Rabs (f (S n)) < Rabs (f (S (S n))).
Proof.
  intros Hsign. rewrite recurrence.
  destruct (Rlt_dec 0 (f n)) as [Hp|Hp].
  - assert (f (S n) < 0) as Hn by nra.
    rewrite !Rabs_left by lra. lra.
  - assert (f n < 0) as Hn by (pose proof (nonzero n); lra).
    assert (0 < f (S n)) as Hp' by nra.
    rewrite !Rabs_pos_eq by lra. lra.
Qed.

Lemma magnitude_grows_infinitely_often (N : nat) :
  exists n, (N <= n)%nat /\ Rabs (f n) < Rabs (f (S n)).
Proof.
  destruct (classic (exists n, (N <= n)%nat /\ Rabs (f n) < Rabs (f (S n))))
    as [|Hno]; [done|]. exfalso.
  assert (forall n, (N <= n)%nat -> Rabs (f (S n)) <= Rabs (f n)) as Hdec.
  { intros n Hn. apply Rnot_lt_le. intros Hlt. apply Hno. by exists n. }
  assert (forall n, (N <= n)%nat -> 0 < f n * f (S n)) as Hsame.
  { intros n Hn.
    destruct (Rtotal_order (f n * f (S n)) 0) as [Hlt|[Heq|Hgt]]; [| |done].
    - apply grows_after_sign_change in Hlt.
      specialize (Hdec (S n) ltac:(lia)). lra.
    - apply Rmult_integral in Heq as [H0|H0]; by apply nonzero in H0. }
  destruct (Rlt_dec 0 (f N)) as [HN|HN].
  - assert (forall n, (N <= n)%nat -> 0 < f n) as Hpos.
    { intros n Hn. induction Hn as [|n Hn IH]; [done|].
      specialize (Hsame n Hn). nra. }
    apply (no_positive_decay f recurrence N Hpos).
    intros n Hn. specialize (Hdec n Hn).
    rewrite !Rabs_pos_eq in Hdec; [done| |];
      left; apply Hpos; lia.
  - assert (f N < 0) as HN' by (pose proof (nonzero N); lra).
    assert (forall n, (N <= n)%nat -> f n < 0) as Hneg.
    { intros n Hn. induction Hn as [|n Hn IH]; [done|].
      specialize (Hsame n Hn). nra. }
    apply (no_positive_decay (fun n => - f n)) with (N := N).
    + intros n. rewrite recurrence. ring.
    + intros n Hn. specialize (Hneg n Hn). lra.
    + intros n Hn. specialize (Hdec n Hn).
      rewrite !Rabs_left in Hdec; [lra| |]; apply Hneg; lia.
Qed.
End Oscillation.

(** ** The orb pushed one unit off its orbit *)

Lemma spring_step_moving (k c : R) (s : R * R) :
  s.1 <> 0 ->
  spring_step k c s = (s.1 + (s.2 + - k * s.1), (s.2 + - k * s.1) * c).
Proof.
  intros Hd. unfold spring_step.
  destruct (Rlt_dec 0 (Rabs s.1)) as [_|Hn]; [done|].
  apply Rabs_pos_lt in Hd. lra.
Qed.

Lemma dev_scaled_odd (n : nat) :
  Z.odd (dev_scaled n).1 = true /\ Z.odd (dev_scaled n).2 = true.
Proof.
  induction n as [|n [Ha Hb]]; [done|].
  cbn [dev_scaled]. destruct (dev_scaled n) as [a b]. cbn [fst snd] in *.
  split; [done|].
  rewrite Z.odd_sub, !Z.odd_mul, Hb. reflexivity.
Qed.

Lemma odd_IZR_nonzero (a : Z) : Z.odd a = true -> IZR a <> 0.
Proof.
  intros Ha. apply not_0_IZR. intros ->. discriminate.
Qed.

Lemma rebound_scaled (n : nat) :
  (rebound n).1 = IZR (dev_scaled n).1 / 100 ^ n /\
  (rebound (S n)).1 = IZR (dev_scaled n).2 / 100 ^ S n /\
  (rebound (S n)).2 = 0.98 * ((rebound (S n)).1 - (rebound n).1).
Proof.
  induction n as [|n (H0 & H1 & Hv)].
  - unfold rebound. cbn [Nat.iter nat_rect dev_scaled fst snd].
    rewrite spring_step_moving by (cbn [fst]; lra).
    cbn [fst snd]. rewrite pow_O, pow_1. split_and!; lra.
  - pose proof (dev_scaled_odd n) as [Ha Hb].
    change (rebound (S (S n))) with (spring_step 0.01 0.98 (rebound (S n))).
    cbn [dev_scaled]. destruct (dev_scaled n) as [a b]. cbn [fst snd] in *.
    assert (100 ^ n <> 0) as Hpow by (apply pow_nonzero; lra).
    assert ((rebound (S n)).1 <> 0) as Hnz.
    { rewrite H1, <- tech_pow_Rmult. apply odd_IZR_nonzero in Hb.
      intros Hq. apply Hb.
      apply (Rmult_eq_compat_r (100 * 100 ^ n)) in Hq.
      unfold Rdiv in Hq. rewrite Rmult_assoc, Rinv_l in Hq; [lra|].
      apply Rmult_integral_contrapositive_currified; lra. }
    rewrite spring_step_moving by done. cbn [fst snd].
    split; [done|]. split; [|lra].
    rewrite Hv, H1, H0, minus_IZR, !mult_IZR, <- !tech_pow_Rmult.
    real_field. done.
Qed.

Lemma rebound_nonzero (n : nat) : (rebound n).1 <> 0.
Proof.
  destruct (rebound_scaled n) as (H0 & _). rewrite H0.
  pose proof (dev_scaled_odd n) as [Ha _]. apply odd_IZR_nonzero in Ha.
  assert (100 ^ n <> 0) as Hpow by (apply pow_nonzero; lra).
  intros Hq. apply Ha.
  apply (Rmult_eq_compat_r (100 ^ n)) in Hq.
  unfold Rdiv in Hq. rewrite Rmult_assoc, Rinv_l in Hq; lra.
Qed.

Lemma rebound_recurrence (n : nat) :
  (rebound (S (S n))).1 = 1.97 * (rebound (S n)).1 - 0.98 * (rebound n).1.
Proof.
  destruct (rebound_scaled n) as (_ & _ & Hv).
  change (rebound (S (S n))) with (spring_step 0.01 0.98 (rebound (S n))).
  rewrite spring_step_moving by apply rebound_nonzero.
  cbn [fst snd]. rewrite Hv. lra.
Qed.

Lemma rebound_velocity_vanishes (eps : R) :
  0 < eps ->
  exists N : nat, forall n, (N <= n)%nat -> Rabs (rebound n).2 < eps.
Proof.
  intros Heps.
  destruct (pow_lt_1_zero 0.98) with (y := eps * eps) as [N HN].
  { rewrite Rabs_pos_eq; lra. }
  { nra. }
  exists N. intros n Hn. apply sqr_lt_abs; [lra|].
  specialize (HN n Hn). destruct (pow_098_le_1 n) as [Hp _].
  rewrite Rabs_pos_eq in HN by lra.
  pose proof (iter_spring_energy n (1, 0)) as He. cbv zeta in He.
  fold (rebound n) in He.
  destruct He as [Hz|He]; [by apply rebound_nonzero in Hz|].
  destruct (energy_bounds (rebound n)) as [_ Hlow].
  unfold energy at 2 in He. cbn [fst snd] in He. nra.
Qed.

Lemma constructed_spring (w h : Z) (v : Visualizer) :
  constructed w h v -> spring_constant v = 0.01 /\ damping v = 0.98.
Proof. unfold constructed, config. intros H. by inversion H. Qed.

Lemma silent_replicate (n : nat) :
  Forall silent (replicate n (Some {["intensity"%string := PyInt 0]})).
Proof. apply Forall_replicate, silent_zero_frame. Qed.

(** The perturbed orb follows [rebound]. *)
Lemma perturbed_orbit (n : nat) :
  exists v' o,
    updates (replicate n (Some {["intensity"%string := PyInt 0]})) "sleep"
            perturbed_instance = (Returned tt, v') /\
    orbs v' !! 0%nat = Some o /\
    radial_state o = rebound n /\
    x_velocity o = 0 /\ y_velocity o = 0.
Proof.
  set (o0 := set_deviation 1 (init_orb 0.001 ((80, 180, 255)%Z, 0))).
  destruct (updates_silent "sleep"
              (replicate n (Some {["intensity"%string := PyInt 0]}))
              perturbed_instance 0%nat o0) as (v' & Hrun & Ho).
  { apply silent_replicate. }
  { cbn. lia. }
  { reflexivity. }
  rewrite length_replicate in Ho.
  destruct (iter_coast_spring perturbed_instance o0) with (n := n)
    as (Hx & Hy & _ & Hs); try reflexivity.
  { cbn [deviation o0 set_deviation].
    change (orbit_radius perturbed_instance) with 150%Z.
    rewrite Rabs_R1. lra. }
  exists v', (Nat.iter n (coast perturbed_instance) o0).
  split; [exact Hrun|]. split; [exact Ho|]. split; [exact Hs|].
  split; [exact Hx | exact Hy].
Qed.

(** The first swing through zero: about 0.0176 after 16 steps, about
    -0.0668 after 17. *)
Lemma rebound_at_16_17 :
  0 < (rebound 16).1 < 0.02 /\ (rebound 17).1 < - 0.06.
Proof.
  destruct (rebound_scaled 16) as (H16 & H17 & _).
  rewrite H16, H17, !pow_IZR.
  let a := eval vm_compute in (dev_scaled 16).1 in
  change ((dev_scaled 16).1) with a.
  let b := eval vm_compute in (dev_scaled 16).2 in
  change ((dev_scaled 16).2) with b.
  let c := eval vm_compute in (100 ^ Z.of_nat 16)%Z in
  change (100 ^ Z.of_nat 16)%Z with c.
  let c := eval vm_compute in (100 ^ Z.of_nat 17)%Z in
  change (100 ^ Z.of_nat 17)%Z with c.
  lra.
Qed.

(** *** Any deviation: the recomputed distance and the spring *)

Lemma sqrt_polar_abs (r a : R) :
  sqrt ((cos a * r) ^ 2 + (sin a * r) ^ 2) = Rabs r.
Proof.
  destruct (Rle_dec 0 r) as [Hr|Hr].
  - rewrite sqrt_polar by done. by rewrite Rabs_pos_eq.
  - rewrite Rabs_left by lra. rewrite <- (sqrt_polar (- r) a) by lra.
    f_equal. ring.
Qed.

Lemma coast_radial (v : Visualizer) (o : Orb) :
  x_velocity o = 0 -> y_velocity o = 0 ->
  x_velocity (coast v o) = 0 /\ y_velocity (coast v o) = 0 /\
  orb_fixed (coast v o) = orb_fixed o /\
  radial_state (coast v o) =
  radial_step (IZR (orbit_radius v)) (spring_constant v) (damping v)
              (radial_state o).
Proof.
  intros Hx Hy. unfold coast, radial_step, recomputed_deviation, radial_state,
    spring_step. cbn [fst snd]. run_orb.
  destruct (Rlt_dec 0 0) as [Hlt|_]; [lra|]. simpl. rewrite Hx, Hy.
  set (a := angle o + angular_velocity o).
  set (r := IZR (orbit_radius v) + deviation o) in *.
  replace (IZR (center v).1 + cos a * r + 0 - IZR (center v).1)
    with (cos a * r) by ring.
  replace (IZR (center v).2 + sin a * r + 0 - IZR (center v).2)
    with (sin a * r) by ring.
  rewrite sqrt_polar_abs.
  destruct (Rlt_dec 0 (Rabs (Rabs r - IZR (orbit_radius v)))); simpl;
    split_and!; try done; try lra.
Qed.

Lemma iter_coast_radial (v : Visualizer) (o : Orb) (n : nat) :
  x_velocity o = 0 -> y_velocity o = 0 ->
  let o' := Nat.iter n (coast v) o in
  x_velocity o' = 0 /\ y_velocity o' = 0 /\
  radial_state o' =
  Nat.iter n (radial_step (IZR (orbit_radius v)) (spring_constant v)
                          (damping v))
           (radial_state o).
Proof.
  intros Hx Hy. induction n as [|n IH]; cbn [Nat.iter nat_rect]; [done|].
  fold (Nat.iter n (coast v) o).
  destruct IH as (Hx' & Hy' & Hs).
  destruct (coast_radial v (Nat.iter n (coast v) o) Hx' Hy')
    as (Hx'' & Hy'' & _ & Hs'').
  split_and!; try done. by rewrite Hs'', Hs.
Qed.

(** Where the orbit passes through the centre, the recomputed deviation is
    smaller in magnitude and the orb is moving inward, so the quadratic
    form does not grow there; the spring then scales it by 0.98. *)
Lemma radial_step_energy (radius : R) (s : R * R) :
  0 <= radius ->
  (s.1 < - radius -> s.2 <= 0) ->
  let s' := radial_step radius 0.01 0.98 s in
  (s'.1 < - radius -> s'.2 <= 0) /\
  (s'.1 = 0 \/ energy s' <= 0.98 * energy s).
Proof.
  intros Hr Hin. cbv zeta. unfold radial_step, recomputed_deviation.
  destruct s as [d u]. cbn [fst snd] in *.
  set (d1 := Rabs (radius + d) - radius).
  assert (- radius <= d1) as Hd1.
  { unfold d1. pose proof (Rabs_pos (radius + d)). lra. }
  assert (energy (d1, u) <= energy (d, u)) as Hmono.
  { unfold energy, d1. cbn [fst snd].
    destruct (Rle_dec 0 (radius + d)) as [Hpos|Hneg].
    - rewrite Rabs_pos_eq by done.
      replace (radius + d - radius) with d by ring. lra.
    - rewrite Rabs_left by lra.
      assert (u <= 0) as Hu by (apply Hin; lra).
      nra. }
  destruct (Req_dec_T d1 0) as [Hz|Hnz].
  - rewrite spring_step_rest by done. cbn [fst snd].
    split; [lra|by left].
  - rewrite energy_spring_step by done.
    rewrite spring_step_moving by done. cbn [fst snd].
    split; [intros Hlow; nra|right; lra].
Qed.

Lemma iter_radial_energy (radius : R) (n : nat) (s : R * R) :
  0 <= radius ->
  (s.1 < - radius -> s.2 <= 0) ->
  let s' := Nat.iter n (radial_step radius 0.01 0.98) s in
  (s'.1 < - radius -> s'.2 <= 0) /\
  (s'.1 = 0 \/ energy s' <= 0.98 ^ n * energy s).
Proof.
  intros Hr Hin. induction n as [|n IH].
  - cbn [Nat.iter nat_rect]. split; [done|]. right. rewrite pow_O. lra.
  - change (Nat.iter (S n) (radial_step radius 0.01 0.98) s)
      with (radial_step radius 0.01 0.98
              (Nat.iter n (radial_step radius 0.01 0.98) s)).
    set (sn := Nat.iter n (radial_step radius 0.01 0.98) s) in *.
    cbv zeta in IH. destruct IH as [Hin' IH]. clearbody sn.
    destruct (radial_step_energy radius sn Hr Hin') as [Hin'' Hstep].
    split; [exact Hin''|].
    destruct IH as [Hz|IH].
    + left. unfold radial_step, recomputed_deviation. rewrite Hz.
      rewrite Rplus_0_r, Rabs_pos_eq by done.
      rewrite spring_step_rest; cbn [fst]; lra.
    + destruct Hstep as [Hz|Hstep]; [by left|]. right.
      rewrite <- tech_pow_Rmult, Rmult_assoc.
      etransitivity; [exact Hstep|].
      apply Rmult_le_compat_l; [lra|done].
Qed.

Lemma iter_radial_deviation (radius : R) (n : nat) (d : R) :
  0 <= radius ->
  let s' := Nat.iter n (radial_step radius 0.01 0.98) (d, 0) in
  s'.1 * s'.1 <= 1.01 * 0.98 ^ n * (d * d).
Proof.
  intros Hr. cbv zeta.
  destruct (iter_radial_energy radius n (d, 0) Hr) as [_ H];
    [cbn [snd]; lra|].
  cbv zeta in H.
  set (s' := Nat.iter n (radial_step radius 0.01 0.98) (d, 0)) in *.
  assert (0 < 0.98 ^ n) as Hpow by (apply pow_lt; lra).
  assert (0 <= d * d) as Hdd by nra.
  destruct H as [Hz|He].
  - rewrite Hz. nra.
  - destruct (energy_bounds s') as [Hlow _].
    unfold energy at 2 in He. cbn [fst snd] in He.
    assert (0 <= 0.98 ^ n * (d * d)) by nra. nra.
Qed.

Lemma iter_radial_vanishes (radius d eps : R) :
  0 <= radius -> 0 < eps ->
  exists N : nat, forall n, (N <= n)%nat ->
    Rabs (Nat.iter n (radial_step radius 0.01 0.98) (d, 0)).1 < eps.
Proof.
  intros Hr Heps.
  destruct (pow_lt_1_zero 0.98) with (y := eps * eps / (1.01 * (d * d) + 1))
    as [N HN].
  { rewrite Rabs_pos_eq; lra. }
  { apply Rdiv_lt_0_compat; nra. }
  exists N. intros n Hn. apply sqr_lt_abs; [lra|].
  pose proof (iter_radial_deviation radius n d Hr) as Hd. cbv zeta in Hd.
  specialize (HN n Hn). destruct (pow_098_le_1 n) as [Hp _].
  rewrite Rabs_pos_eq in HN by lra.
  assert (0 < 1.01 * (d * d) + 1) as Hden by nra.
  assert (0.98 ^ n * (1.01 * (d * d) + 1) < eps * eps) as Hmul.
  { apply (Rmult_lt_compat_r (1.01 * (d * d) + 1)) in HN; [|done].
    unfold Rdiv in HN. rewrite Rmult_assoc, Rinv_l in HN by lra. lra. }
  nra.
Qed.

(** Inside the orbit radius the iteration is linear: it is [rebound]
    scaled by the initial deviation. *)
Lemma iter_spring_scaled (d : R) (n : nat) :
  d <> 0 ->
  Nat.iter n (spring_step 0.01 0.98) (d, 0) =
  (d * (rebound n).1, d * (rebound n).2).
Proof.
  intros Hd. induction n as [|n IH].
  - unfold rebound. cbn [Nat.iter nat_rect fst snd]. f_equal; lra.
  - unfold rebound in *. cbn [Nat.iter nat_rect].
    fold (Nat.iter n (spring_step 0.01 0.98) (d, 0)).
    fold (Nat.iter n (spring_step 0.01 0.98) (1, 0)).
    rewrite IH. pose proof (rebound_nonzero n) as Hnz. unfold rebound in Hnz.
    set (r := Nat.iter n (spring_step 0.01 0.98) (1, 0)) in *.
    rewrite !spring_step_moving; cbn [fst snd]; [|done|by apply Rmult_integral_contrapositive].
    f_equal; lra.
Qed.

(** C5, as written, at the orb pushed one unit off its orbit on a fresh
    [Visualizer(800, 600)] and left to silent updates: every update
    returns and the Cartesian velocities stay 0; the radial velocity falls
    below every threshold for good; and still, however late, there is an
    update that makes |deviation| larger.  The deviation swings through
    zero again and again, so |deviation| is never monotone from some point
    on; the first time, the 17th update takes |deviation| from less than
    0.02 to more than 0.06. *)
Lemma deviation_keeps_rebounding :
  let after n :=
    updates (replicate n (Some {["intensity"%string := PyInt 0]})) "sleep"
            perturbed_instance in
  (forall n,
     (after n).1 = Returned tt /\
     exists o, orbs (after n).2 !! 0%nat = Some o /\
               x_velocity o = 0 /\ y_velocity o = 0) /\
  (forall eps, 0 < eps ->
     exists N, forall n o, (N <= n)%nat ->
       orbs (after n).2 !! 0%nat = Some o ->
       Rabs (radial_velocity o) < eps) /\
  (forall N, exists n o o',
     (N <= n)%nat /\
     orbs (after n).2 !! 0%nat = Some o /\
     orbs (after (S n)).2 !! 0%nat = Some o' /\
     Rabs (deviation o) < Rabs (deviation o')) /\
  (exists o o',
     orbs (after 16%nat).2 !! 0%nat = Some o /\
     orbs (after 17%nat).2 !! 0%nat = Some o' /\
     Rabs (deviation o) < 0.02 /\ 0.06 < Rabs (deviation o')).
Proof.
  intros after. split; [|split; [|split]].
  - intros n. destruct (perturbed_orbit n) as (v' & o & Hrun & Ho & _ & Hxy).
    subst after. cbv beta. rewrite Hrun. split; [reflexivity|].
    exists o. split; [exact Ho | exact Hxy].
  - intros eps Heps.
    destruct (rebound_velocity_vanishes eps Heps) as [N HN].
    exists N. intros n o Hn Ho.
    destruct (perturbed_orbit n) as (v' & o1 & Hrun & Ho1 & Hs & _).
    subst after. cbv beta in Ho. rewrite Hrun in Ho. cbn [snd] in Ho.
    rewrite Ho1 in Ho. injection Ho as <-.
    specialize (HN n Hn). rewrite <- Hs in HN. exact HN.
  - intros N.
    destruct (magnitude_grows_infinitely_often (fun n => (rebound n).1)
                rebound_recurrence rebound_nonzero N) as (n & Hn & Hgrow).
    destruct (perturbed_orbit n) as (v1 & o1 & Hrun1 & Ho1 & Hs1 & _).
    destruct (perturbed_orbit (S n)) as (v2 & o2 & Hrun2 & Ho2 & Hs2 & _).
    exists n, o1, o2. subst after. cbv beta.
    rewrite Hrun1, Hrun2. cbn [snd].
    split; [exact Hn|]. split; [exact Ho1|]. split; [exact Ho2|].
    rewrite <- Hs1, <- Hs2 in Hgrow. exact Hgrow.
  - destruct (perturbed_orbit 16) as (v1 & o1 & Hrun1 & Ho1 & Hs1 & _).
    destruct (perturbed_orbit 17) as (v2 & o2 & Hrun2 & Ho2 & Hs2 & _).
    exists o1, o2. subst after. cbv beta.
    rewrite Hrun1, Hrun2. cbn [snd].
    split; [exact Ho1|]. split; [exact Ho2|].
    pose proof rebound_at_16_17 as [H16 H17].
    rewrite <- Hs1, <- Hs2 in *. cbn [radial_state fst] in *.
    rewrite Rabs_pos_eq, Rabs_left by lra. lra.
Qed.

(** C5, amended: on an instance made by [Visualizer(w, h)] with a
    non-negative orbit radius, an orb with zero radial and Cartesian
    velocity, whatever its deviation, is driven back to its orbit by
    silent updates: after N of them the squared deviation is at most
    [1.01 * 0.98 ^ N] times its initial value, so |deviation| tends to 0
    (over the reals).  But |deviation| does not decrease monotonically
    once the velocities are small: when the initial deviation is not 0
    and smaller in magnitude than 0.99 times the orbit radius, then for
    every threshold and however late there is an update before which the
    radial velocity is below the threshold, the Cartesian velocities are
    0, and which makes |deviation| larger. *)
Theorem deviation_decays_to_zero (w h : Z) (category : string)
    (v : Visualizer) (i : nat) (o : Orb) :
  constructed w h v ->
  (0 <= orbit_radius v)%Z ->
  (length (orbs v) <= length (trails v))%nat ->
  orbs v !! i = Some o ->
  radial_velocity o = 0 -> x_velocity o = 0 -> y_velocity o = 0 ->
  (forall frames, Forall silent frames ->
     exists v' o',
       updates frames category v = (Returned tt, v') /\
       orbs v' !! i = Some o' /\
       deviation o' * deviation o' <=
       1.01 * 0.98 ^ length frames * (deviation o * deviation o)) /\
  (forall eps, 0 < eps ->
     exists N : nat, forall frames,
       Forall silent frames -> (N <= length frames)%nat ->
       exists v' o',
         updates frames category v = (Returned tt, v') /\
         orbs v' !! i = Some o' /\
         Rabs (deviation o') < eps) /\
  (0 < Rabs (deviation o) < 0.99 * IZR (orbit_radius v) ->
   forall a, silent a ->
   forall eps, 0 < eps ->
   forall N : nat,
     exists n v1 o1 v2 o2,
       (N <= n)%nat /\
       updates (replicate n a) category v = (Returned tt, v1) /\
       orbs v1 !! i = Some o1 /\
       updates (replicate (S n) a) category v = (Returned tt, v2) /\
       orbs v2 !! i = Some o2 /\
       Rabs (radial_velocity o1) < eps /\
       x_velocity o1 = 0 /\ y_velocity o1 = 0 /\
       Rabs (deviation o1) < Rabs (deviation o2)).
Proof.
  intros Hc Hr Hlen Ho Hrv Hx Hy.
  destruct (constructed_spring w h v Hc) as [Hk Hd].
  apply IZR_le in Hr.
  assert (forall frames, Forall silent frames ->
            exists v' o',
              updates frames category v = (Returned tt, v') /\
              orbs v' !! i = Some o' /\
              deviation o' =
              (Nat.iter (length frames)
                        (radial_step (IZR (orbit_radius v)) 0.01 0.98)
                        (deviation o, 0)).1) as Hfollow.
  { intros frames Hall.
    destruct (updates_silent category frames v i o Hall Hlen Ho)
      as (v' & Hrun & Ho').
    exists v', (Nat.iter (length frames) (coast v) o).
    split; [done|]. split; [done|].
    destruct (iter_coast_radial v o (length frames) Hx Hy) as (_ & _ & Hs).
    rewrite Hk, Hd in Hs. unfold radial_state at 2 in Hs.
    rewrite Hrv in Hs. by rewrite <- Hs. }
  split; [|split].
  - intros frames Hall.
    destruct (Hfollow frames Hall) as (v' & o' & Hrun & Ho' & Hdev).
    exists v', o'. split; [done|]. split; [done|].
    rewrite Hdev. by apply iter_radial_deviation.
  - intros eps Heps.
    destruct (iter_radial_vanishes (IZR (orbit_radius v)) (deviation o)
                eps Hr Heps) as [N HN].
    exists N. intros frames Hall Hlong.
    destruct (Hfollow frames Hall) as (v' & o' & Hrun & Ho' & Hdev).
    exists v', o'. split; [done|]. split; [done|].
    rewrite Hdev. by apply HN.
  - intros [Hnz Hsmall] a Ha eps Heps N.
    assert (deviation o <> 0) as Hd0.
    { intros H0. rewrite H0, Rabs_R0 in Hnz. lra. }
    assert (0 < orbit_radius v)%Z as Hpos by (apply lt_IZR; lra).
    destruct (rebound_velocity_vanishes (eps / Rabs (deviation o)))
      as [N1 HN1]; [by apply Rdiv_lt_0_compat|].
    destruct (magnitude_grows_infinitely_often (fun n => (rebound n).1)
                rebound_recurrence rebound_nonzero (Nat.max N N1))
      as (n & Hn & Hgrow).
    assert (forall m,
              exists v' o',
                updates (replicate m a) category v = (Returned tt, v') /\
                orbs v' !! i = Some o' /\
                x_velocity o' = 0 /\ y_velocity o' = 0 /\
                radial_state o' =
                (deviation o * (rebound m).1, deviation o * (rebound m).2))
      as Horbit.
    { intros m.
      destruct (updates_silent category (replicate m a) v i o)
        as (v' & Hrun & Ho'); [by apply Forall_replicate|done|done|].
      rewrite length_replicate in Ho'.
      destruct (iter_coast_spring v o Hk Hd Hpos Hx Hy Hrv Hsmall m)
        as (Hx' & Hy' & _ & Hs).
      exists v', (Nat.iter m (coast v) o).
      split; [done|]. split; [done|]. split; [done|]. split; [done|].
      by rewrite Hs, iter_spring_scaled. }
    destruct (Horbit n) as (v1 & o1 & Hrun1 & Ho1 & Hx1 & Hy1 & Hs1).
    destruct (Horbit (S n)) as (v2 & o2 & Hrun2 & Ho2 & _ & _ & Hs2).
    exists n, v1, o1, v2, o2.
    split; [lia|]. split; [done|]. split; [done|]. split; [done|].
    split; [done|].
    injection Hs1 as Hd1 Hv1. injection Hs2 as Hd2 _.
    rewrite Hd1, Hv1, Hd2, !Rabs_mult.
    split; [|split; [done|split; [done|]]].
    + specialize (HN1 n ltac:(lia)).
      apply (Rmult_lt_compat_l (Rabs (deviation o))) in HN1; [|done].
      replace (Rabs (deviation o) * (eps / Rabs (deviation o))) with eps
        in HN1 by (field; lra).
      exact HN1.
    + by apply Rmult_lt_compat_l.
Qed.

Lemma deviation_decays_to_zero_witness :
  exists v' o',
    updates (replicate 3 (Some {["intensity"%string := PyInt 0]})) "sleep"
            perturbed_instance = (Returned tt, v') /\
    orbs v' !! 0%nat = Some o' /\
    deviation o' * deviation o' <= 1.01 * 0.98 ^ 3 * (1 * 1).
Proof.
  destruct (deviation_decays_to_zero 800 600 "sleep" perturbed_instance
              0%nat (set_deviation 1 (init_orb 0.001 ((80, 180, 255)%Z, 0))))
    as [Hdecay _].
  - reflexivity.
  - change (orbit_radius perturbed_instance) with 150%Z. lia.
  - cbn. lia.
  - reflexivity.
  - reflexivity.
  - reflexivity.
  - reflexivity.
  - destruct (Hdecay (replicate 3 (Some {["intensity"%string := PyInt 0]})))
      as (v' & o' & Hrun & Ho' & Hdev).
    + apply silent_replicate.
    + exists v', o'. split; [exact Hrun|]. split; [exact Ho'|].
      rewrite length_replicate in Hdev. exact Hdev.
Defined.

(** * Further properties of the code *)

(** ** Voice lookup *)

(** X1: the voice label is Shimmer for ['sleep'], Onyx for ['study'] and
    Nova for every other category, ['vent'] included; the lookup is
    case-sensitive and never fails. *)
Theorem get_voice_name_table (category : string) :
  (get_voice_name category = "Shimmer"%string <-> category = "sleep"%string) /\
  (get_voice_name category = "Onyx"%string <-> category = "study"%string) /\
  (get_voice_name category = "Nova"%string <->
     category <> "sleep"%string /\ category <> "study"%string) /\
  get_voice_name "Sleep" = "Nova"%string.
Proof.
  unfold get_voice_name, voice_names.
  destruct (decide (category = "sleep"%string)) as [->|H1];
    [split_and!; try done; split; try done; by intros [? ?]|].
  destruct (decide (category = "study"%string)) as [->|H2];
    [split_and!; try done; split; try done; by intros [? ?]|].
  rewrite lookup_insert_ne by done. rewrite lookup_insert_ne by done.
  destruct (decide (category = "vent"%string)) as [->|H3].
  - rewrite lookup_singleton_eq. cbn [default]. split_and!; try done.
  - rewrite lookup_singleton_ne by done. cbn [default].
    split_and!; try done.
Qed.

(** ** Screenshot mode, reset and the back button *)

Lemma handle_click_on_back_button (v : Visualizer) (pos : Z * Z) :
  back_button v = mkRect 20 20 40 40 ->
  handle_click v pos = Some "selection"%string <->
  on_back_button pos /\ screenshot_mode v = false.
Proof.
  intros Hrect. unfold handle_click, collidepoint, on_back_button.
  rewrite Hrect. cbn [rect_left rect_top rect_width rect_height].
  destruct (screenshot_mode v); cbn [negb].
  - rewrite andb_false_r. split; [done|]. by intros [_ ?].
  - rewrite andb_true_r. split.
    + destruct (_ && _) eqn:E; [|done]. intros _.
      rewrite !andb_true_iff, !Z.leb_le, !Z.ltb_lt in E. split; [lia|done].
    + intros [(H1 & H2) _].
      assert (((20 <=? pos.1)%Z && (pos.1 <? 20 + 40)%Z &&
               (20 <=? pos.2)%Z && (pos.2 <? 20 + 40)%Z) = true) as ->; [|done].
      rewrite !andb_true_iff, !Z.leb_le, !Z.ltb_lt. lia.
Qed.

(** X2: [toggle_screenshot_mode] touches the flag only and undoes
    itself; while the flag is set, a click on the back button is ignored,
    so toggling turns the button off and toggling again turns it back
    on. *)
Theorem toggle_screenshot_mode_flips_back_button (v : Visualizer)
    (pos : Z * Z) :
  back_button v = mkRect 20 20 40 40 ->
  (toggle_screenshot_mode ;; toggle_screenshot_mode) v = (Returned tt, v) /\
  (toggle_screenshot_mode v).2 =
    set_screenshot_mode (negb (screenshot_mode v)) v /\
  (handle_click (toggle_screenshot_mode v).2 pos = Some "selection"%string <->
   on_back_button pos /\ screenshot_mode v = true) /\
  handle_click
    ((toggle_screenshot_mode ;; toggle_screenshot_mode) v).2 pos =
  handle_click v pos.
Proof.
  intros Hrect.
  assert ((toggle_screenshot_mode ;; toggle_screenshot_mode) v =
          (Returned tt, v)) as Htwice.
  { unfold toggle_screenshot_mode, bind, modify. cbn.
    rewrite negb_involutive. by destruct v. }
  split; [done|]. split; [done|]. split; [|by rewrite Htwice].
  rewrite handle_click_on_back_button by exact Hrect. cbn.
  destruct (screenshot_mode v); cbn; intuition congruence.
Qed.

Lemma toggle_screenshot_mode_flips_back_button_witness :
  handle_click (toggle_screenshot_mode (init 800 600)).2 (40, 40)%Z <>
  Some "selection"%string.
Proof.
  intros Hsel.
  apply (proj1 (proj1 (proj2 (proj2
           (toggle_screenshot_mode_flips_back_button (init 800 600)
              (40, 40)%Z eq_refl))))) in Hsel.
  destruct Hsel as [_ Hmode]. discriminate Hmode.
Defined.

Lemma reset_orb_idempotent (o : Orb) : reset_orb (reset_orb o) = reset_orb o.
Proof. reflexivity. Qed.

(** X3: [reset] is idempotent, never raises, keeps the number of orbs and
    leaves exactly one empty trail per orb, whatever the trails were. *)
Theorem reset_idempotent (v : Visualizer) :
  (reset ;; reset) v = reset v /\
  (reset v).1 = Returned tt /\
  length (orbs (reset v).2) = length (orbs v) /\
  trails (reset v).2 = replicate (length (orbs v)) [] /\
  (forall i o, orbs (reset v).2 !! i = Some o ->
     deviation o = 0 /\ radial_velocity o = 0 /\
     x_velocity o = 0 /\ y_velocity o = 0).
Proof.
  split_and!.
  - assert (reset_orb <$> (reset_orb <$> orbs v) = reset_orb <$> orbs v)
      as Horbs.
    { rewrite <- list_fmap_compose. by apply list_fmap_ext. }
    destruct v as [w h c sm ms gs ts bs orad cor oos bsp md sc dmp att os trs
                   bb tm sp gi fa].
    cbn [orbs] in Horbs.
    cbv [reset bind modify set_orbs set_glow_intensity set_fade_alpha
         set_screenshot_mode set_trails set_trail_surface set_glow_surface
         set_blur_surface fst snd width height center screenshot_mode
         main_surface glow_surface trail_surface blur_surface orbit_radius
         center_orb_radius orbital_orb_size base_speed max_deviation
         spring_constant damping attraction_strength orbs trails back_button
         time selection_pulse glow_intensity fade_alpha].
    rewrite Horbs, length_fmap. reflexivity.
  - reflexivity.
  - cbn. by rewrite length_fmap.
  - cbn. by rewrite length_fmap.
  - cbn. intros i o Ho. rewrite list_lookup_fmap in Ho.
    destruct (orbs v !! i) as [o0|]; [|done]. cbn in Ho.
    injection Ho as <-. done.
Qed.

(** X4: after [reset] the back button works again: a click returns
    ['selection'] exactly when it falls on the button, whether or not
    screenshot mode was on before. *)
Theorem reset_reenables_back_button (v : Visualizer) (pos : Z * Z) :
  back_button v = mkRect 20 20 40 40 ->
  handle_click (reset v).2 pos = Some "selection"%string <->
  on_back_button pos.
Proof.
  intros Hrect. rewrite handle_click_on_back_button by exact Hrect.
  cbn. tauto.
Qed.

Lemma reset_reenables_back_button_witness :
  handle_click (reset (toggle_screenshot_mode (init 800 600)).2).2
               (40, 40)%Z = Some "selection"%string.
Proof.
  apply (reset_reenables_back_button
           (toggle_screenshot_mode (init 800 600)).2 (40, 40)%Z eq_refl).
  unfold on_back_button. cbn. lia.
Defined.

(** ** Geometry set up by the constructor *)

(** X5: for a window of non-negative size the constructor puts the
    centre inside the window and the nominal orbit inside it too: the
    circle of radius [orbit_radius] around the centre does not cross any
    edge.  It creates five orbs at rest, evenly spaced by [2 * pi / 5],
    each with an empty trail. *)
Theorem init_orbit_inside_window (w h : Z) :
  (0 <= w)%Z -> (0 <= h)%Z ->
  let v := init w h in
  (0 <= (center v).1 - orbit_radius v)%Z /\
  ((center v).1 + orbit_radius v <= w)%Z /\
  (0 <= (center v).2 - orbit_radius v)%Z /\
  ((center v).2 + orbit_radius v <= h)%Z /\
  (0 <= orbit_radius v)%Z /\
  angle <$> orbs v = (fun k => IZR k * (2 * PI / 5)) <$> [0; 1; 2; 3; 4]%Z /\
  orb_motion <$> orbs v = replicate 5 (0, 0, 0.001, 0, 0) /\
  trails v = replicate 5 [].
Proof.
  intros Hw Hh v. subst v. cbn [init center orbit_radius fst snd].
  pose proof (Z.min_spec w h) as Hmin.
  split_and!;
    try (Z.div_mod_to_equations; lia).
  - cbn. repeat f_equal; lra.
  - reflexivity.
  - reflexivity.
Qed.

Lemma init_orbit_inside_window_witness :
  ((center (init 801 600)).1 + orbit_radius (init 801 600) <= 801)%Z.
Proof.
  apply (init_orbit_inside_window 801 600); lia.
Defined.

(** ** What [update] keeps, whatever its outcome *)

Ltac no_new_point :=
  exists []; rewrite app_nil_r; split_and!; [done | cbn; lia | done].

(** The loop only ever appends, at most one point per trail. *)
Lemma for_range_update_append_only (intensity : R) (n : nat) :
  forall (start : nat) (v v' : Visualizer) (r : outcome unit),
    for_range (update_orb_at intensity) start n v = (r, v') ->
    forall i (t : list TrailPoint),
      trails v !! i = Some t ->
      exists pts : list TrailPoint,
        trails v' !! i = Some (t ++ pts) /\
        (length pts <= 1)%nat /\
        ((i < start)%nat -> pts = []).
Proof.
  induction n as [|n IH]; intros start v v' r Hrun i t Ht;
    cbn [for_range] in Hrun.
  - inversion Hrun; subst. no_new_point.
  - unfold bind in Hrun. rewrite update_orb_at_unfold in Hrun.
    destruct (orbs v !! start) as [o|].
    2:{ inversion Hrun; subst. no_new_point. }
    destruct (update_orb v intensity o) as [[p|e] o']; cbn [fst snd] in Hrun.
    2:{ inversion Hrun; subst. no_new_point. }
    destruct (trails v !! start) as [t0|] eqn:Ht0.
    2:{ inversion Hrun; subst. no_new_point. }
    destruct (decide (i = start)) as [->|Hne].
    + rewrite Ht in Ht0. injection Ht0 as <-.
      destruct (IH _ _ _ _ Hrun start (t ++ [p])) as (pts & Hv' & _ & Hnil).
      { cbn. apply list_lookup_insert_eq. by eapply lookup_lt_Some. }
      rewrite Hnil in Hv' by lia. rewrite app_nil_r in Hv'.
      exists [p]. split; [done|]. split; [cbn; lia|]. lia.
    + destruct (IH _ _ _ _ Hrun i t) as (pts & Hv' & Hlen & Hnil).
      { cbn. by rewrite list_lookup_insert_ne. }
      exists pts. split; [done|]. split; [done|]. intros Hi. apply Hnil. lia.
Qed.

(** X6: whatever the audio frame and whether it returns or raises,
    [update] leaves the window geometry, the physical constants, the back
    button, the number of orbs and each orb's colour and angular velocity
    as they were, and it never removes or rewrites a recorded trail point:
    every trail afterwards is the old trail followed by at most one new
    point. *)
Theorem update_preserves_configuration_and_history (a : AudioData)
    (category : string) (v : Visualizer) :
  let v' := (update a category v).2 in
  config v' = config v /\
  length (orbs v') = length (orbs v) /\
  length (trails v') = length (trails v) /\
  forall i (t : list TrailPoint),
    trails v !! i = Some t ->
    exists pts : list TrailPoint,
      trails v' !! i = Some (t ++ pts) /\ (length pts <= 1)%nat.
Proof.
  cbv zeta. split; [apply update_config|].
  destruct (truthy a) eqn:Ha.
  - rewrite update_truthy by done. cbv zeta.
    destruct (for_range _ _ _ _) as [[[]|e] v1] eqn:Hrun; cbn [snd];
      pose proof (for_range_update_frame _ _ _ _ _ _ Hrun)
        as (_ & Hlo & Hlt & _);
      pose proof (for_range_update_append_only _ _ _ _ _ _ Hrun) as Happ;
      (split; [exact Hlo|]); (split; [exact Hlt|]);
      intros i t Ht; destruct (Happ i t Ht) as (pts & Hp & Hl & _);
      exists pts; split; [exact Hp|exact Hl| exact Hp | exact Hl].
  - rewrite update_falsy by done. cbn [snd]. split; [done|].
    split; [done|]. intros i t Ht. exists []. rewrite app_nil_r.
    split; [done|cbn; lia].
Qed.

(** ** The angle is always wrapped *)

Lemma atan_sign (t : R) :
  (t <= 0 -> atan t <= 0) /\ (0 < t -> 0 < atan t).
Proof.
  split; intros Ht.
  - destruct Ht as [Ht | ->]; [|rewrite atan_0; lra].
    apply atan_increasing in Ht. rewrite atan_0 in Ht. lra.
  - apply atan_increasing in Ht. by rewrite atan_0 in Ht.
Qed.

Lemma atan2_bounds (y x : R) : - PI < atan2 y x <= PI.
Proof.
  pose proof PI_RGT_0 as Hpi. pose proof (atan_bound (y / x)) as Hb.
  pose proof (atan_sign (y / x)) as [Hneg Hpos].
  unfold atan2.
  destruct (Rlt_dec 0 x) as [Hx|Hx]; [lra|].
  destruct (Rlt_dec x 0) as [Hx'|Hx'].
  - assert (/ x < 0) as Hinv by (apply Rinv_lt_0_compat; lra).
    destruct (Rle_dec 0 y) as [Hy|Hy].
    + assert (y / x <= 0) as Hq by (unfold Rdiv; nra).
      specialize (Hneg Hq). lra.
    + assert (0 < y / x) as Hq by (unfold Rdiv; nra).
      specialize (Hpos Hq). lra.
  - destruct (Rlt_dec 0 y); [lra|]. destruct (Rlt_dec y 0); lra.
Qed.

Lemma update_orb_angle_range (v : Visualizer) (intensity : R) (o o' : Orb)
    (p : TrailPoint) :
  update_orb v intensity o = (Returned p, o') -> - PI < angle o' <= PI.
Proof.
  run_orb. intros H. case_orb H; inversion H; subst; cbn [angle];
    apply atan2_bounds.
Qed.

(** X8: after an [update] with present audio that returns, every orb's
    angle lies in (-pi, pi], whatever it was before and whatever the
    intensity: the angle is never left to accumulate. *)
Theorem update_wraps_every_angle (a : AudioData) (category : string)
    (v v' : Visualizer) :
  truthy a = true ->
  update a category v = (Returned tt, v') ->
  Forall (fun o => - PI < angle o <= PI) (orbs v').
Proof.
  intros Ha Hrun.
  apply update_returned in Hrun as (Hlen & _ & _ & Hin & _); [|done].
  apply Forall_lookup. intros i o' Ho'.
  destruct (Hin i) as (o & p & o1 & t & _ & Hstep & Ho1 & _).
  { apply lookup_lt_Some in Ho'. lia. }
  rewrite Ho' in Ho1. injection Ho1 as <-.
  by eapply update_orb_angle_range.
Qed.

Lemma silent_update_returns :
  exists v',
    update (Some {["intensity"%string := PyInt 0]}) "sleep" (init 800 600) =
    (Returned tt, v').
Proof.
  apply update_returns_without_attraction.
  - destruct silent_zero_frame as [_ ->]. lra.
  - cbn. lia.
Qed.

Lemma update_wraps_every_angle_witness :
  exists v',
    update (Some {["intensity"%string := PyInt 0]}) "sleep" (init 800 600) =
      (Returned tt, v') /\
    Forall (fun o => - PI < angle o <= PI) (orbs v').
Proof.
  destruct silent_update_returns as [v' Hrun]. exists v'.
  split; [exact Hrun|].
  exact (update_wraps_every_angle _ _ _ _ (proj1 silent_zero_frame) Hrun).
Defined.

(** ** The clock and the pulse *)

Lemma py_mod_bounds (a b : R) : 0 < b -> 0 <= py_mod a b < b.
Proof.
  intros Hb. unfold py_mod.
  destruct (base_Int_part (a / b)) as [Hlo Hhi].
  set (m := IZR (Int_part (a / b))) in *.
  assert (a / b * b = a) as Hmul by (field; lra).
  split; nra.
Qed.

(** X9: over a run of [update] calls that all return, [time] advances by
    exactly 0.016 for every call with present audio and not at all for a
    call without; [selection_pulse] advances by 0.05 modulo [2 * pi], so
    once in [0, 2 * pi) it stays there. *)
Theorem updates_advance_clock_and_pulse (category : string)
    (frames : list AudioData) (v v' : Visualizer) :
  updates frames category v = (Returned tt, v') ->
  time v' = time v + 0.016 * INR (length (List.filter truthy frames)) /\
  (0 <= selection_pulse v < 2 * PI -> 0 <= selection_pulse v' < 2 * PI) /\
  (List.filter truthy frames <> [] -> 0 <= selection_pulse v' < 2 * PI).
Proof.
  pose proof PI_RGT_0 as Hpi.
  revert v. induction frames as [|a frames IH]; intros v Hrun;
    cbn [updates] in Hrun.
  - inversion Hrun; subst. cbn. split; [lra|]. done.
  - unfold bind in Hrun.
    destruct (update a category v) as [[[]|e] v1] eqn:Hup; [|done].
    destruct (IH v1 Hrun) as (Ht & Hkeep & Hany).
    cbn [List.filter]. destruct (truthy a) eqn:Ha.
    + destruct (update_returned_clock _ _ _ _ Ha Hup) as [Ht1 Hp1].
      assert (0 <= selection_pulse v1 < 2 * PI) as Hr1
        by (rewrite Hp1; apply py_mod_bounds; lra).
      split; [|by auto].
      rewrite Ht, Ht1. cbn [length]. rewrite S_INR. lra.
    + rewrite update_falsy in Hup by done. inversion Hup; subst v1.
      done.
Qed.

Lemma updates_advance_clock_and_pulse_witness :
  exists v',
    updates [Some {["intensity"%string := PyInt 0]}; None] "sleep"
            (init 800 600) = (Returned tt, v') /\
    time v' = 0 + 0.016 * INR 1.
Proof.
  destruct silent_update_returns as [v' Hrun]. exists v'.
  assert (updates [Some {["intensity"%string := PyInt 0]}; None] "sleep"
                  (init 800 600) = (Returned tt, v')) as Hruns.
  { unfold updates, bind. rewrite Hrun. reflexivity. }
  split; [exact Hruns|].
  destruct (updates_advance_clock_and_pulse _ _ _ _ Hruns) as [Ht _].
  rewrite Ht. cbn [List.filter]. rewrite (proj1 silent_zero_frame).
  reflexivity.
Defined.

(** ** Glow outside the unit interval *)

(** X10: after an [update] with present audio the glow is at most 0.95,
    whatever it was and whatever the intensity; but nothing clamps it from
    below: it is negative exactly when glow plus half the intensity is
    negative, as with a negative intensity on a fresh instance. *)
Theorem glow_capped_above_not_below (a : AudioData) (category : string)
    (v : Visualizer) :
  truthy a = true ->
  let g' := glow_intensity (update a category v).2 in
  g' <= 0.95 /\
  (g' < 0 <-> glow_intensity v + frame_intensity a * 0.5 < 0).
Proof.
  intros Ha g'. subst g'. rewrite update_glow, Ha. unfold glow_after.
  set (x := glow_intensity v + frame_intensity a * 0.5).
  pose proof (Rmin_l 1 x) as Hl. pose proof (Rmin_r 1 x) as Hr.
  split; [lra|]. split.
  - intros Hneg. unfold Rmin in *. destruct (Rle_dec 1 x); lra.
  - intros Hx. lra.
Qed.

Lemma glow_capped_above_not_below_witness :
  glow_intensity
    (update (Some {["intensity"%string := PyFloat (-1)]}) "sleep"
            (init 800 600)).2 < 0.
Proof.
  apply (proj2 (glow_capped_above_not_below
                  (Some {["intensity"%string := PyFloat (-1)]}) "sleep"
                  (init 800 600)
                  ltac:(apply truthy_Some_size; rewrite map_size_singleton;
                        lia))).
  unfold frame_intensity, dict_get. rewrite lookup_singleton_eq.
  cbn [default as_number glow_intensity init Datatypes.id]. lra.
Defined.

(** ** Calls without audio *)

(** X11: calls without audio ([None] or an empty dict) can be dropped
    from any sequence of [update] calls: outcome and final state are those
    of the calls with present audio alone. *)
Theorem absent_frames_can_be_dropped (category : string)
    (frames : list AudioData) (v : Visualizer) :
  updates frames category v = updates (List.filter truthy frames) category v /\
  call_sequence category frames v =
  call_sequence category (List.filter truthy frames) v.
Proof.
  split.
  - revert v. induction frames as [|a frames IH]; intros v; [done|].
    cbn [List.filter updates]. destruct (truthy a) eqn:Ha.
    + cbn [updates]. unfold bind.
      destruct (update a category v) as [[[]|e] v1]; [apply IH|done].
    + unfold bind. rewrite update_falsy by done. apply IH.
  - unfold call_sequence. revert v.
    induction frames as [|a frames IH]; intros v; [done|].
    cbn [List.filter foldl]. destruct (truthy a) eqn:Ha.
    + cbn [foldl]. apply IH.
    + rewrite update_falsy by done. apply IH.
Qed.

(** ** Cartesian velocity: damping and attraction *)

Lemma update_orb_damps (v : Visualizer) (intensity : R) (o : Orb) :
  ~ 0 < intensity ->
  x_velocity (update_orb v intensity o).2 = x_velocity o * damping v /\
  y_velocity (update_orb v intensity o).2 = y_velocity o * damping v.
Proof.
  intros Hi. run_orb. destruct (Rlt_dec 0 intensity); [done|]. cbn.
  match goal with
  | |- context [Rlt_dec ?a ?b] => destruct (Rlt_dec a b)
  end; done.
Qed.

Lemma iter_coast_damps (v : Visualizer) (o : Orb) (n : nat) :
  x_velocity (Nat.iter n (coast v) o) = x_velocity o * damping v ^ n /\
  y_velocity (Nat.iter n (coast v) o) = y_velocity o * damping v ^ n.
Proof.
  induction n as [|n [IHx IHy]]; cbn [Nat.iter nat_rect].
  - rewrite pow_O. lra.
  - fold (Nat.iter n (coast v) o).
    destruct (update_orb_damps v 0 (Nat.iter n (coast v) o)) as [Hx Hy];
      [lra|].
    unfold coast at 1 3. rewrite Hx, Hy, IHx, IHy, <- !tech_pow_Rmult.
    split; ring.
Qed.

(** X12: without attraction the Cartesian velocity of an orb only decays:
    after N updates with intensity 0 both components are the initial ones
    times [damping ^ N], wherever the orb is. *)
Theorem silent_updates_damp_velocity (category : string)
    (frames : list AudioData) (v : Visualizer) (i : nat) (o : Orb) :
  Forall silent frames ->
  (length (orbs v) <= length (trails v))%nat ->
  orbs v !! i = Some o ->
  exists v' o',
    updates frames category v = (Returned tt, v') /\
    orbs v' !! i = Some o' /\
    x_velocity o' = x_velocity o * damping v ^ length frames /\
    y_velocity o' = y_velocity o * damping v ^ length frames.
Proof.
  intros Hall Hlen Ho.
  destruct (updates_silent category frames v i o Hall Hlen Ho)
    as (v' & Hrun & Ho').
  exists v', (Nat.iter (length frames) (coast v) o).
  split; [done|]. split; [done|]. apply iter_coast_damps.
Qed.

Lemma silent_updates_damp_velocity_witness :
  exists v' o',
    updates (replicate 2 (Some {["intensity"%string := PyInt 0]})) "sleep"
            perturbed_instance = (Returned tt, v') /\
    orbs v' !! 1%nat = Some o' /\
    x_velocity o' = 0 * 0.98 ^ 2.
Proof.
  destruct (silent_updates_damp_velocity "sleep"
              (replicate 2 (Some {["intensity"%string := PyInt 0]}))
              perturbed_instance 1%nat
              (init_orb 0.001 ((255, 80, 150)%Z, 2 * PI / 5)))
    as (v' & o' & Hrun & Ho' & Hx & _).
  - apply silent_replicate.
  - cbn. lia.
  - reflexivity.
  - exists v', o'. split; [exact Hrun|]. split; [exact Ho'|]. exact Hx.
Defined.

Lemma update_orb_pull (v : Visualizer) (intensity : R) (o : Orb) :
  0 < intensity ->
  0 < IZR (orbit_radius v) + deviation o ->
  let a := angle o + angular_velocity o in
  let impulse := attraction_strength v * intensity in
  (exists p, (update_orb v intensity o).1 = Returned p) /\
  x_velocity (update_orb v intensity o).2 =
    (x_velocity o + - cos a * impulse) * damping v /\
  y_velocity (update_orb v intensity o).2 =
    (y_velocity o + - sin a * impulse) * damping v.
Proof.
  intros Hi Hr a impulse. subst a impulse.
  pose proof (center_distance_radius v o) as Hdist.
  unfold center_distance in Hdist. cbv zeta in Hdist.
  rewrite Rabs_pos_eq in Hdist by lra.
  run_orb. destruct (Rlt_dec 0 intensity); [|done]. cbn.
  rewrite Hdist.
  destruct (Req_dec_T (IZR (orbit_radius v) + deviation o) 0) as [|Hnz];
    [lra|]. cbn.
  match goal with
  | |- context [Rlt_dec ?a ?b] => destruct (Rlt_dec a b)
  end; cbn; (split; [by eexists|]); split; f_equal; f_equal; field; lra.
Qed.

Lemma loud_update_returns :
  exists v',
    update (Some {["intensity"%string := PyFloat 0.5]}) "sleep"
           (init 800 600) = (Returned tt, v').
Proof.
  assert (truthy (Some {["intensity"%string := PyFloat 0.5]}) = true) as Ha.
  { apply truthy_Some_size. rewrite map_size_singleton. lia. }
  assert (frame_intensity (Some {["intensity"%string := PyFloat 0.5]}) = 0.5)
    as Hi.
  { unfold frame_intensity, dict_get. by rewrite lookup_singleton_eq. }
  rewrite update_truthy by exact Ha. cbv zeta. rewrite Hi.
  change (length (orbs (init 800 600))) with 5%nat.
  edestruct (for_range_update_progress 0.5 5 0) as [v1 ->]; [|by eexists].
  intros j Hj.
  destruct (lookup_lt_is_Some_2 (orbs (init 800 600)) j) as [o Ho];
    [cbn; lia|].
  exists o. split; [exact Ho|]. split.
  - apply update_orb_pull; [lra|].
    change (orbit_radius _) with 150%Z.
    assert (deviation o = 0) as ->; [|lra].
    apply list_elem_of_lookup_2 in Ho. cbn in Ho.
    repeat (apply elem_of_cons in Ho as [-> | Ho]; [reflexivity|]).
    apply elem_of_nil in Ho. destruct Ho.
  - apply lookup_lt_is_Some_2.
    change (length (trails _)) with 5%nat. lia.
Qed.

(** X13: with a positive intensity an orb at positive radius is pulled
    straight toward the centre: before damping, its Cartesian velocity
    gains [attraction_strength * intensity] times the unit vector from
    the orb to the centre, that is [-(cos a, sin a)] at its advanced
    angle [a]. *)
Theorem attraction_pulls_toward_centre (a : AudioData) (category : string)
    (v v' : Visualizer) (i : nat) (o : Orb) :
  truthy a = true ->
  0 < frame_intensity a ->
  update a category v = (Returned tt, v') ->
  orbs v !! i = Some o ->
  0 < IZR (orbit_radius v) + deviation o ->
  exists o',
    orbs v' !! i = Some o' /\
    let theta := angle o + angular_velocity o in
    let impulse := attraction_strength v * frame_intensity a in
    x_velocity o' = (x_velocity o + - cos theta * impulse) * damping v /\
    y_velocity o' = (y_velocity o + - sin theta * impulse) * damping v.
Proof.
  intros Ha Hi Hrun Ho Hr.
  apply update_returned in Hrun as (_ & _ & _ & Hin & _); [|done].
  destruct (Hin i) as (o0 & p & o' & t & Ho0 & Hstep & Ho' & _);
    [by eapply lookup_lt_Some|].
  rewrite Ho in Ho0. injection Ho0 as <-.
  exists o'. split; [done|].
  destruct (update_orb_pull v (frame_intensity a) o Hi Hr) as (_ & Hx & Hy).
  rewrite Hstep in Hx, Hy. done.
Qed.

Lemma attraction_pulls_toward_centre_witness :
  exists v' o',
    update (Some {["intensity"%string := PyFloat 0.5]}) "sleep"
           (init 800 600) = (Returned tt, v') /\
    orbs v' !! 0%nat = Some o' /\
    x_velocity o' = (0 + - cos (0 + 0.001) * (0.5 * 0.5)) * 0.98.
Proof.
  destruct loud_update_returns as [v' Hrun].
  destruct (attraction_pulls_toward_centre
              (Some {["intensity"%string := PyFloat 0.5]}) "sleep"
              (init 800 600) v' 0%nat
              (init_orb 0.001 ((80, 180, 255)%Z, 0)))
    as (o' & Ho' & Hx & _).
  - apply truthy_Some_size. rewrite map_size_singleton. lia.
  - unfold frame_intensity, dict_get. rewrite lookup_singleton_eq.
    cbn [default as_number Datatypes.id]. lra.
  - exact Hrun.
  - reflexivity.
  - change (orbit_radius _) with 150%Z. cbn [deviation init_orb]. lra.
  - exists v', o'. split; [exact Hrun|]. split; [exact Ho'|].
    rewrite Hx. unfold frame_intensity, dict_get.
    rewrite lookup_singleton_eq. reflexivity.
Defined.

(** ** Polar and Cartesian views of a recorded point *)

Lemma cos_sin_minus_PI (t : R) :
  cos (t - PI) = - cos t /\ sin (t - PI) = - sin t.
Proof.
  pose proof (neg_cos (t - PI)) as Hc. pose proof (neg_sin (t - PI)) as Hs.
  replace (t - PI + PI) with t in Hc, Hs by ring. lra.
Qed.

Lemma sqrt_off_axis (x y : R) :
  x <> 0 ->
  sqrt (x ^ 2 + y ^ 2) = Rabs x * sqrt (1 + (y / x)²) /\
  0 < sqrt (1 + (y / x)²).
Proof.
  intros Hx.
  assert (0 < 1 + (y / x)²) as Hpos
    by (pose proof (Rle_0_sqr (y / x)); lra).
  split; [|by apply sqrt_lt_R0].
  rewrite <- sqrt_Rsqr_abs, <- sqrt_mult;
    [|apply Rle_0_sqr|lra].
  f_equal. unfold Rsqr. field. done.
Qed.

(** Going to polar form with [atan2] and [sqrt] and back gives the point
    again. *)
Lemma atan2_round_trip (y x : R) :
  sqrt (x ^ 2 + y ^ 2) * cos (atan2 y x) = x /\
  sqrt (x ^ 2 + y ^ 2) * sin (atan2 y x) = y.
Proof.
  unfold atan2.
  destruct (Rlt_dec 0 x) as [Hx|Hx].
  - destruct (sqrt_off_axis x y) as [-> Hs]; [lra|].
    rewrite Rabs_pos_eq by lra. rewrite cos_atan, sin_atan.
    split; field; lra.
  - destruct (Rlt_dec x 0) as [Hx'|Hx'].
    + destruct (sqrt_off_axis x y) as [-> Hs]; [lra|].
      rewrite Rabs_left by lra.
      destruct (Rle_dec 0 y) as [Hy|Hy].
      * rewrite neg_cos, neg_sin, cos_atan, sin_atan. split; field; lra.
      * destruct (cos_sin_minus_PI (atan (y / x))) as [-> ->].
        rewrite cos_atan, sin_atan. split; field; lra.
    + assert (x = 0) as -> by lra.
      replace (0 ^ 2 + y ^ 2) with (Rsqr y) by (unfold Rsqr; ring).
      rewrite sqrt_Rsqr_abs.
      destruct (Rlt_dec 0 y) as [Hy|Hy].
      * rewrite cos_PI2, sin_PI2, Rabs_pos_eq by lra. lra.
      * destruct (Rlt_dec y 0) as [Hy'|Hy'].
        -- rewrite cos_neg, sin_neg, cos_PI2, sin_PI2, Rabs_left by lra. lra.
        -- assert (y = 0) as -> by lra. rewrite Rabs_R0. lra.
Qed.

Lemma update_orb_point_on_ray (v : Visualizer) (intensity : R) (o o' : Orb)
    (p : TrailPoint) :
  update_orb v intensity o = (Returned p, o') ->
  let dx := p.1.1 - IZR (center v).1 in
  let dy := p.1.2 - IZR (center v).2 in
  sqrt (dx ^ 2 + dy ^ 2) * cos (angle o') = dx /\
  sqrt (dx ^ 2 + dy ^ 2) * sin (angle o') = dy.
Proof.
  run_orb. intros H. case_orb H; inversion H; subst; cbn [angle fst snd];
    apply atan2_round_trip.
Qed.

(** X14: after an [update] with present audio that returns, the angle
    stored for each orb is the direction, seen from the centre, of the
    point just appended to its trail: that point is the centre plus its
    distance from the centre times [(cos angle, sin angle)]. *)
Theorem recorded_point_lies_at_stored_angle (a : AudioData)
    (category : string) (v v' : Visualizer) (i : nat) (o' : Orb) :
  truthy a = true ->
  update a category v = (Returned tt, v') ->
  orbs v' !! i = Some o' ->
  exists (t : list TrailPoint) (x y s : R),
    trails v' !! i = Some (t ++ [(x, y, s)]) /\
    trails v !! i = Some t /\
    let dx := x - IZR (center v).1 in
    let dy := y - IZR (center v).2 in
    dx = sqrt (dx ^ 2 + dy ^ 2) * cos (angle o') /\
    dy = sqrt (dx ^ 2 + dy ^ 2) * sin (angle o').
Proof.
  intros Ha Hrun Ho'.
  apply update_returned in Hrun as (Hlen & _ & _ & Hin & _); [|done].
  destruct (Hin i) as (o & [[x y] s] & o1 & t & _ & Hstep & Ho1 & Ht & Ht').
  { apply lookup_lt_Some in Ho'. lia. }
  rewrite Ho' in Ho1. injection Ho1 as <-.
  exists t, x, y, s. split; [done|]. split; [done|].
  destruct (update_orb_point_on_ray _ _ _ _ _ Hstep) as [Hx Hy].
  cbn [fst snd] in Hx, Hy. cbv zeta. by rewrite Hx, Hy.
Qed.

Lemma recorded_point_lies_at_stored_angle_witness :
  exists v' o' (t : list TrailPoint) (x y s : R),
    update (Some {["intensity"%string := PyFloat 0.5]}) "sleep"
           (init 800 600) = (Returned tt, v') /\
    orbs v' !! 2%nat = Some o' /\
    trails v' !! 2%nat = Some (t ++ [(x, y, s)]) /\
    x - 400 = sqrt ((x - 400) ^ 2 + (y - 300) ^ 2) * cos (angle o').
Proof.
  destruct loud_update_returns as [v' Hrun].
  assert (truthy (Some {["intensity"%string := PyFloat 0.5]}) = true) as Ha.
  { apply truthy_Some_size. rewrite map_size_singleton. lia. }
  destruct (lookup_lt_is_Some_2 (orbs v') 2%nat) as [o' Ho'].
  { destruct (update_returned _ _ _ _ Ha Hrun) as (-> & _). cbn. lia. }
  destruct (recorded_point_lies_at_stored_angle _ _ _ _ _ _ Ha Hrun Ho')
    as (t & x & y & s & Ht' & _ & Hx & _).
  exists v', o', t, x, y, s.
  split; [exact Hrun|]. split; [exact Ho'|]. split; [exact Ht'|]. exact Hx.
Defined.

(** ** Drawing the trails *)

Lemma py_int_floor_at (x : R) (z : Z) :
  0 <= x -> IZR z <= x < IZR z + 1 -> py_int x = z.
Proof.
  intros Hx Hz. unfold py_int. destruct (Rle_dec 0 x) as [_|Hn]; [|done].
  symmetry. apply Int_part_spec. lra.
Qed.

(** A fresh [Visualizer(800, 600)] whose first trail holds a point
    recorded with intensity 2 is not drawable: the opacity of the segment
    would be 382. *)
Lemma overdriven_trail_not_drawable (rest : list (list TrailPoint)) :
  ~ trails_drawable
      (set_trails ([(0, 0, 0); (1, 1, 2)] :: rest) (init 800 600)).
Proof.
  intros Hd. destruct (Hd 0%nat [(0, 0, 0); (1, 1, 2)]) as (orb & Ho & Hall).
  { reflexivity. }
  { cbn. lia. }
  cbn [orbs set_trails] in Ho.
  assert (color orb = (80, 180, 255)%Z) as Hcol.
  { change (orbs (init 800 600) !! 0%nat)
      with (Some (init_orb 0.001 ((80, 180, 255)%Z, 0))) in Ho.
    by injection Ho as <-. }
  rewrite trail_lines_step in Hall.
  apply Forall_cons in Hall as [[_ Hc] _]. cbn [snd] in Hc.
  rewrite (py_int_floor_at (255 * (0.5 + 2 * 0.5)) 382) in Hc by lra.
  rewrite Hcol in Hc. discriminate.
Qed.

(** X15: [draw_trails] changes nothing of the instance but its trail
    layer, even when it raises.  Call the trails drawable when every
    trail of two points or more has an orb at its index and each of its
    segments has an opacity in 0..255 and a width that fits a C int.  If
    they are, [draw_trails] returns, having blitted the freshly drawn
    layer once; if they are not, it raises [IndexError], [ValueError] or
    [OverflowError] and blits nothing.  On an instance made by the
    constructor the trails are drawable when there are no more trails
    than orbs and every recorded intensity lies in [-1, 1]. *)
Theorem draw_trails_touches_layer_only (surface : Surface) (v : Visualizer) :
  (exists layer, (draw_trails surface v).2 = set_trail_surface layer v) /\
  (trails_drawable v ->
   draw_trails surface v =
   (Returned (surface ++
              [Blit (trail_layer v) (trail_surface_alpha v) (0, 0)%Z
                    BLEND_ALPHA_SDL2]),
    set_trail_surface (trail_layer v) v)) /\
  (~ trails_drawable v ->
   exists e,
     (draw_trails surface v).1 = Raised e /\
     (e = IndexError \/ e = ValueError \/ e = OverflowError)) /\
  (forall w h,
     constructed w h v ->
     (length (trails v) <= length (orbs v))%nat ->
     Forall (Forall (fun p : TrailPoint => -1 <= p.2 <= 1)) (trails v) ->
     trails_drawable v).
Proof.
  split; [eexists; apply draw_trails_frame|]. split; [|split].
  - apply draw_trails_returned.
  - intros Hbad.
    destruct (draw_trails_raised surface v Hbad) as (e & l & -> & He).
    by exists e.
  - intros w h Hc Hlen Hint j trail Hj Hl.
    destruct (lookup_lt_is_Some_2 (orbs v) j) as [orb Ho].
    { apply lookup_lt_Some in Hj. lia. }
    exists orb. split; [exact Ho|].
    apply trail_lines_drawable.
    + by eapply constructed_colors.
    + rewrite Forall_forall in Hint. apply Hint.
      by eapply list_elem_of_lookup_2.
Qed.

Lemma draw_trails_touches_layer_only_witness :
  exists e,
    (draw_trails []
       (set_trails [[(0, 0, 0); (1, 1, 2)]] (init 800 600))).1 = Raised e /\
    (e = IndexError \/ e = ValueError \/ e = OverflowError).
Proof.
  apply (proj1 (proj2 (proj2 (draw_trails_touches_layer_only []
           (set_trails [[(0, 0, 0); (1, 1, 2)]] (init 800 600)))))).
  apply overdriven_trail_not_drawable.
Defined.

(** X16: the trail layer is cleared before it is drawn on: with drawable
    trails, what [draw_trails] leaves on it does not depend on what was
    there, and drawing the same trails again leaves the instance as it is
    and blits the same layer. *)
Theorem draw_trails_is_repeatable (s1 s2 : Surface) (previous : Surface)
    (v : Visualizer) :
  trails_drawable v ->
  draw_trails s1 (set_trail_surface previous v) = draw_trails s1 v /\
  (draw_trails s1 ;; draw_trails s2) v =
  (Returned (s2 ++
             [Blit (trail_layer v) (trail_surface_alpha v) (0, 0)%Z
                   BLEND_ALPHA_SDL2]),
   (draw_trails s1 v).2).
Proof.
  intros Hvalid.
  assert (forall s layer,
            draw_trails s (set_trail_surface layer v) =
            (Returned (s ++
                       [Blit (trail_layer v) (trail_surface_alpha v)
                             (0, 0)%Z BLEND_ALPHA_SDL2]),
             set_trail_surface (trail_layer v) v)) as Hany.
  { intros s layer. rewrite draw_trails_returned; [done|].
    intros j trail. apply Hvalid. }
  split.
  - rewrite Hany, draw_trails_returned by done. done.
  - unfold bind. rewrite draw_trails_returned by done. cbn [snd].
    apply Hany.
Qed.

Lemma draw_trails_is_repeatable_witness :
  draw_trails []
    (set_trail_surface [Fill (1, 2, 3, 4)%Z]
       (set_trails [[(0, 0, 0); (3, 4, 1)]] (init 800 600))) =
  draw_trails [] (set_trails [[(0, 0, 0); (3, 4, 1)]] (init 800 600)).
Proof.
  apply (draw_trails_is_repeatable [] [] [Fill (1, 2, 3, 4)%Z]
           (set_trails [[(0, 0, 0); (3, 4, 1)]] (init 800 600))).
  intros j trail Hj Hl.
  destruct j as [|j]; [|by destruct j].
  injection Hj as <-.
  exists (init_orb 0.001 ((80, 180, 255)%Z, 0)). split; [reflexivity|].
  apply trail_lines_drawable.
  - intros alpha Halpha. unfold valid_color.
    cbn [fst snd color init_orb].
    assert ((0 <=? alpha)%Z && (alpha <=? 255)%Z = true) as ->;
      [|reflexivity].
    apply andb_true_intro. split; apply Z.leb_le; lia.
  - repeat constructor; cbn [snd]; lra.
Defined.

(** ** Width and opacity of the segments *)

Lemma py_int_bounds (x : R) (lo hi : Z) :
  0 <= x -> IZR lo <= x <= IZR hi -> (lo <= py_int x <= hi)%Z.
Proof.
  intros H0 [Hlo Hhi]. unfold py_int.
  destruct (Rle_dec 0 x) as [_|Hn]; [|done].
  destruct (base_Int_part x) as [Hle Hgt].
  split.
  - apply Z.lt_succ_r. apply lt_IZR. rewrite succ_IZR. lra.
  - apply le_IZR. lra.
Qed.

Lemma trail_lines_length (c : Color) (trail : list TrailPoint) :
  length (trail_lines c trail) = pred (length trail).
Proof.
  induction trail as [|p trail IH]; [done|].
  destruct trail as [|q rest]; [done|].
  cbn [trail_lines length pred] in *. by rewrite IH.
Qed.

Lemma trail_lines_segments (c : Color) (trail : list TrailPoint) :
  Forall (is_segment c) (trail_lines c trail) /\
  (Forall (fun p : TrailPoint => 0 <= p.2 <= 1) trail ->
   Forall (is_styled_segment c) (trail_lines c trail)).
Proof.
  induction trail as [|p trail [IH1 IH2]]; [by split|].
  destruct trail as [|q rest]; [by split|].
  cbn [trail_lines]. split.
  - constructor; [|done]. do 4 eexists. split; [reflexivity|]. lia.
  - intros Hall. inversion Hall as [|? ? _ Hrest]; subst.
    constructor; [|by apply IH2].
    inversion Hrest as [|? ? Hq _]; subst.
    do 4 eexists. split; [reflexivity|]. split.
    + assert (0 <= py_int (8 * q.2) <= 8)%Z; [|lia].
      apply py_int_bounds; [lra|]. lra.
    + apply py_int_bounds; [lra|]. lra.
Qed.

(** X17: a trail of n points is drawn as n - 1 segments, one per pair of
    consecutive points.  On the trail layer left by [draw_trails] every
    command after the clearing fill is a segment in the colour of one of
    the orbs and at least 4 wide; when every recorded intensity lies in
    [0, 1] the widths are between 4 and 8 and the opacities between 127
    and 255. *)
Theorem trail_layer_segments (v : Visualizer) :
  (forall c (trail : list TrailPoint),
     length (trail_lines c trail) = pred (length trail)) /\
  (forall op, op ∈ trail_layer v ->
     op = Fill (0, 0, 0, 0)%Z \/
     exists o, o ∈ orbs v /\ is_segment (color o) op) /\
  (Forall (Forall (fun p : TrailPoint => 0 <= p.2 <= 1)) (trails v) ->
   forall op, op ∈ trail_layer v ->
     op = Fill (0, 0, 0, 0)%Z \/
     exists o, o ∈ orbs v /\ is_styled_segment (color o) op).
Proof.
  split; [apply trail_lines_length|].
  assert (forall op, op ∈ trail_layer v ->
            op = Fill (0, 0, 0, 0)%Z \/
            exists i o (trail : list TrailPoint),
              orbs v !! i = Some o /\ trails v !! i = Some trail /\
              op ∈ trail_lines (color o) trail) as Hwhere.
  { intros op Hop. unfold trail_layer, fill in Hop.
    apply elem_of_app in Hop as [Hop|Hop].
    - left. by apply list_elem_of_singleton in Hop.
    - right. apply list_elem_of_join in Hop as (l & Hop & Hl).
      apply list_elem_of_fmap in Hl as (i & -> & _).
      unfold trail_segments in Hop.
      destruct (trails v !! i) as [trail|] eqn:Ht;
        [|by apply elem_of_nil in Hop].
      destruct (orbs v !! i) as [o|] eqn:Ho;
        [|by apply elem_of_nil in Hop].
      by exists i, o, trail. }
  split.
  - intros op Hop.
    destruct (Hwhere op Hop) as [->|(i & o & trail & Ho & _ & Hin)];
      [by left|right].
    exists o. split; [by eapply list_elem_of_lookup_2|].
    destruct (trail_lines_segments (color o) trail) as [Hseg _].
    rewrite Forall_forall in Hseg. by apply Hseg.
  - intros Hall op Hop.
    destruct (Hwhere op Hop) as [->|(i & o & trail & Ho & Ht & Hin)];
      [by left|right].
    exists o. split; [by eapply list_elem_of_lookup_2|].
    destruct (trail_lines_segments (color o) trail) as [_ Hsty].
    rewrite Forall_lookup in Hall. specialize (Hsty (Hall i trail Ht)).
    rewrite Forall_forall in Hsty. by apply Hsty.
Qed.

Lemma trail_layer_segments_witness :
  Forall
    (fun op =>
       op = Fill (0, 0, 0, 0)%Z \/
       exists o, o ∈ orbs (init 800 600) /\ is_styled_segment (color o) op)
    (trail_layer (set_trails [[(0, 0, 0); (3, 4, 1)]] (init 800 600))).
Proof.
  apply Forall_forall.
  apply (proj2 (proj2 (trail_layer_segments
           (set_trails [[(0, 0, 0); (3, 4, 1)]] (init 800 600))))).
  repeat constructor; cbn [snd]; lra.
Defined.

(** ** What the drawing methods leave alone *)

Lemma preserves_ret {S A B : Type} (f : S -> B) (a : A) :
  preserves f (ret a).
Proof. by intros s. Qed.

Lemma preserves_raise {S A B : Type} (f : S -> B) (e : exn) :
  preserves f (raise (A:=A) e).
Proof. by intros s. Qed.

Lemma preserves_get {S B : Type} (f : S -> B) : preserves f get.
Proof. by intros s. Qed.

Lemma preserves_bind {S A A' B : Type} (f : S -> B) (m : Run S A)
    (k : A -> Run S A') :
  preserves f m -> (forall a, preserves f (k a)) -> preserves f (bind m k).
Proof.
  intros Hm Hk s. unfold bind. specialize (Hm s).
  destruct (m s) as [[a|e] s1]; cbn [snd] in *; [|done].
  by rewrite Hk.
Qed.

Lemma preserves_for_range {S B : Type} (f : S -> B)
    (body : nat -> Run S unit) (n : nat) :
  (forall k, preserves f (body k)) ->
  forall start, preserves f (for_range body start n).
Proof.
  intros Hbody. induction n as [|n IH]; intros start; cbn [for_range].
  - apply preserves_ret.
  - apply preserves_bind; [apply Hbody|]. intros _. apply IH.
Qed.

Lemma draw_circle_preserves (c : RGBA) (pos : R * R) (radius : Z) :
  preserves (set_glow_surface []) (draw_circle c pos radius).
Proof.
  unfold draw_circle.
  destruct (negb (c_long radius)); [apply preserves_raise|].
  destruct (negb (valid_color c)); [apply preserves_raise|].
  by intros v.
Qed.

(** [draw_orb] changes the glow layer only, whatever its outcome. *)
Lemma draw_orb_preserves (surface : Surface) (pos : R * R) (c : Color)
    (size : Z) (intensity : R) :
  preserves (set_glow_surface []) (draw_orb surface pos c size intensity).
Proof.
  unfold draw_orb. cbv zeta.
  apply preserves_bind; [by intros v|]. intros _.
  apply preserves_bind.
  { apply preserves_for_range. intros k. apply draw_circle_preserves. }
  intros _.
  apply preserves_bind; [apply draw_circle_preserves|]. intros _.
  apply preserves_bind; [apply draw_circle_preserves|]. intros _.
  apply preserves_bind; [apply preserves_get|]. intros v.
  apply preserves_ret.
Qed.

Lemma conclusion_orb_preserves (progress : R) (i : nat) :
  preserves (fun s : Visualizer * Surface => set_glow_surface [] s.1)
            (conclusion_orb progress i).
Proof.
  unfold conclusion_orb.
  apply preserves_bind; [apply preserves_get|]. intros s.
  destruct (trails s.1 !! i) as [trail|]; [|apply preserves_raise].
  destruct (0 <? length trail)%nat; [|apply preserves_ret].
  destruct (last trail) as [p|]; [|apply preserves_raise].
  destruct (orbs s.1 !! i) as [orb|]; [|apply preserves_raise].
  intros s0. unfold on_screen.
  pose proof (draw_orb_preserves s0.2 (p.1.1, p.1.2) (color orb) 4
                (1 - progress) s0.1) as Hglow.
  destruct (draw_orb _ _ _ _ _ _) as [[screen'|e] v']; exact Hglow.
Qed.

Lemma set_alpha_range (value : Z) (v : Visualizer) :
  (0 <= trail_surface_alpha v <= 255)%Z ->
  (0 <= trail_surface_alpha (set_alpha value v).2 <= 255)%Z.
Proof.
  intros Hv. unfold set_alpha, raise, modify.
  destruct (negb (c_long value)); cbn [snd trail_surface_alpha
    set_trail_surface_alpha]; lia.
Qed.

Lemma set_alpha_in_range (value : Z) (v : Visualizer) :
  (0 <= value <= 255)%Z ->
  set_alpha value v = (Returned tt, set_trail_surface_alpha value v).
Proof.
  intros Hv. unfold set_alpha, modify.
  assert (c_long value = true) as ->.
  { unfold c_long. apply andb_true_intro.
    split; [apply Z.leb_le|apply Z.ltb_lt]; lia. }
  cbn [negb]. unfold to_c_int.
  rewrite Z.mod_small by lia.
  replace (Z.min 255 (Z.max 0 (value + 2 ^ 31 - 2 ^ 31))) with value by lia.
  reflexivity.
Qed.

(** Whatever its outcome, [draw_conclusion] leaves the instance as
    [set_alpha] has left it, but for the glow layer. *)
Lemma draw_conclusion_state (category : string) (progress : R)
    (v : Visualizer) (screen : Surface) :
  let fade := py_int (255 * (1 - progress)) in
  set_glow_surface [] (draw_conclusion category progress (v, screen)).2.1 =
  set_glow_surface [] (set_alpha fade (set_fade_alpha fade v)).2.
Proof.
  cbv zeta. unfold draw_conclusion.
  cbn [bind modify on_self get fst snd fade_alpha set_fade_alpha].
  unfold bind at 1. unfold on_self at 1. cbn [fst snd].
  unfold bind at 1. unfold get at 1. cbn [fade_alpha set_fade_alpha].
  destruct (set_alpha _ _) as [[[]|e] v2]; cbn [snd fst]; [|done].
  unfold bind at 1. unfold modify at 1. unfold bind at 1.
  unfold get at 1. cbn [fst snd].
  match goal with
  | |- context [for_range ?body ?start ?n ?st] =>
      pose proof (preserves_for_range
                    (fun s : Visualizer * Surface =>
                       set_glow_surface [] s.1)
                    body n (conclusion_orb_preserves progress) start st)
        as Hloop
  end.
  cbv beta in Hloop. cbn [fst] in Hloop. exact Hloop.
Qed.

Lemma draw_stored_pattern_frame (screen : Surface) (pattern : Pattern)
    (v : Visualizer) :
  exists t l,
    (draw_stored_pattern screen pattern v).2 =
    set_trails t (set_trail_surface l v).
Proof.
  unfold draw_stored_pattern.
  destruct pattern as [|d];
    [exists (trails v), (trail_surface v); by destruct v|].
  destruct (d !! "trails"%string) as [stored|];
    [|exists (trails v), (trail_surface v); by destruct v].
  unfold bind, modify, ret.
  pose proof (draw_trails_frame screen (set_trails stored v)) as Hframe.
  destruct (draw_trails screen (set_trails stored v)) as [[s'|e] v1];
    cbn [snd] in *; rewrite Hframe; by eexists _, _.
Qed.

Lemma update_keeps (a : AudioData) (category : string) (v : Visualizer) :
  length (orbs (update a category v).2) = length (orbs v) /\
  trail_surface_alpha (update a category v).2 = trail_surface_alpha v.
Proof.
  destruct (truthy a) eqn:Ha; [|by rewrite update_falsy].
  rewrite update_truthy by done. cbv zeta.
  destruct (for_range _ _ _ _) as [[[]|e] v1] eqn:Hrun; cbn [snd];
    apply for_range_update_frame in Hrun as (Hframe & Hlo & _);
    (split; [exact Hlo|]); rewrite Hframe; reflexivity.
Qed.

(** ** The states an instance can reach *)

Lemma reachable_invariant (w h : Z) (v : Visualizer) :
  reachable w h v ->
  constructed w h v /\ length (orbs v) = 5%nat /\
  (0 <= trail_surface_alpha v <= 255)%Z.
Proof.
  induction 1 as [|a category v _ (Hc & Ho & Ha)|v _ (Hc & Ho & Ha)
                  |v _ (Hc & Ho & Ha)|surface v _ (Hc & Ho & Ha)
                  |screen pattern v _ (Hc & Ho & Ha)
                  |upper surface category t v _ (Hc & Ho & Ha)
                  |surface v _ (Hc & Ho & Ha)
                  |surface pos c size intensity v _ (Hc & Ho & Ha)
                  |screen category progress v _ (Hc & Ho & Ha)].
  - split; [apply constructed_init|]. cbn. lia.
  - destruct (update_keeps a category v) as [Hlo Halpha].
    unfold constructed. rewrite update_config, Hlo, Halpha. done.
  - done.
  - unfold constructed. rewrite reset_config. split; [done|].
    cbn. rewrite length_fmap. done.
  - rewrite draw_trails_frame. done.
  - destruct (draw_stored_pattern_frame screen pattern v)
      as (t & l & Hframe).
    unfold constructed. rewrite draw_stored_pattern_config.
    split; [done|]. rewrite Hframe. done.
  - unfold draw_timer, bind, get, modify, ret. cbn.
    by destruct (screenshot_mode v).
  - done.
  - pose proof (draw_orb_preserves surface pos c size intensity v) as Hglow.
    set (v' := (draw_orb surface pos c size intensity v).2) in *.
    change (config (set_glow_surface [] v') = config (init w h) /\
            length (orbs (set_glow_surface [] v')) = 5%nat /\
            (0 <= trail_surface_alpha (set_glow_surface [] v') <= 255)%Z).
    rewrite Hglow. done.
  - pose proof (draw_conclusion_state category progress v screen) as Hst.
    cbv zeta in Hst.
    set (v' := (draw_conclusion category progress (v, screen)).2.1) in *.
    change (config (set_glow_surface [] v') = config (init w h) /\
            length (orbs (set_glow_surface [] v')) = 5%nat /\
            (0 <= trail_surface_alpha (set_glow_surface [] v') <= 255)%Z).
    rewrite Hst.
    split; [|split].
    + transitivity (config v); [|exact Hc].
      unfold set_alpha, raise, modify.
      by destruct (negb (c_long _)).
    + rewrite <- Ho. unfold set_alpha, raise, modify.
      by destruct (negb (c_long _)).
    + cbn [trail_surface_alpha set_glow_surface set_trail_surface].
      apply (set_alpha_range _ (set_fade_alpha _ v)). exact Ha.
Qed.

(** X18: in every state that calls of [update],
    [toggle_screenshot_mode], [reset], [draw_trails],
    [draw_stored_pattern], [draw_timer], [draw_back_button], [draw_orb]
    and [draw_conclusion] can reach from [Visualizer(w, h)], returning or
    raising in any order, the constants and the back button are those of
    the constructor, there are five orbs, and the alpha of the trail layer
    lies in 0..255.  (The number of trails is not such an invariant: a
    replay that raises leaves the stored trails in place.) *)
Theorem reachable_states_well_formed (w h : Z) (v : Visualizer) :
  reachable w h v ->
  constructed w h v /\
  back_button v = mkRect 20 20 40 40 /\
  length (orbs v) = 5%nat /\
  (0 <= trail_surface_alpha v <= 255)%Z.
Proof.
  intros Hreach.
  destruct (reachable_invariant w h v Hreach) as (Hc & Ho & Ha).
  split; [done|]. split; [by eapply constructed_back_button|].
  split; [done|]. exact Ha.
Qed.

Lemma reachable_states_well_formed_witness :
  length
    (orbs (reset (draw_conclusion "sleep" 0.5
                    ((update None "sleep" (init 800 600)).2, [])).2.1).2) =
  5%nat.
Proof.
  apply (reachable_states_well_formed 800 600).
  apply reach_reset, reach_draw_conclusion, reach_update, reach_init.
Defined.

(** ** A replay that fails *)

(** Without attraction the loop of [update] gets as far as the first orb
    without a trail, and raises there. *)
Lemma for_range_update_index_error (intensity : R) (n : nat) :
  forall (start : nat) (v : Visualizer),
    ~ 0 < intensity ->
    (start <= length (trails v))%nat ->
    (length (trails v) < start + n)%nat ->
    (start + n <= length (orbs v))%nat ->
    (for_range (update_orb_at intensity) start n v).1 = Raised IndexError.
Proof.
  induction n as [|n IH]; intros start v Hi Hlo Hhi Horbs; [lia|].
  cbn [for_range]. unfold bind. rewrite update_orb_at_unfold.
  destruct (lookup_lt_is_Some_2 (orbs v) start) as [o Ho]; [lia|].
  destruct (update_orb_no_attraction v intensity o Hi) as [p Hp].
  rewrite Ho. cbv zeta. rewrite Hp.
  destruct (trails v !! start) as [t|] eqn:Ht; [|done].
  apply IH; [done|..];
    cbn [trails orbs set_trails set_orbs];
    rewrite ?length_insert; apply lookup_lt_Some in Ht; lia.
Qed.

(** X7: a replay that raises leaves the stored trails in [self.trails];
    when they are fewer than the orbs, the next [update] with present
    audio and no attraction raises [IndexError], at the first orb without
    a trail. *)
Theorem failed_replay_breaks_update (screen : Surface)
    (d : gmap string (list (list TrailPoint)))
    (stored : list (list TrailPoint)) (v : Visualizer) (a : AudioData)
    (category : string) :
  d !! "trails"%string = Some stored ->
  ~ trails_drawable (set_trails stored v) ->
  (length stored < length (orbs v))%nat ->
  truthy a = true ->
  ~ 0 < frame_intensity a ->
  let v' := (draw_stored_pattern screen (PatternDict d) v).2 in
  (exists e, (draw_stored_pattern screen (PatternDict d) v).1 = Raised e) /\
  trails v' = stored /\
  orbs v' = orbs v /\
  (update a category v').1 = Raised IndexError.
Proof.
  intros Hd Hbad Hshort Ha Hi.
  destruct (draw_trails_raised screen _ Hbad) as (e & l & Hrun & _).
  assert (draw_stored_pattern screen (PatternDict d) v =
          (Raised e, set_trail_surface l (set_trails stored v))) as ->.
  { unfold draw_stored_pattern. rewrite Hd.
    unfold bind at 1. unfold modify at 1. unfold bind at 1.
    by rewrite Hrun. }
  cbv zeta. cbn [fst snd].
  split; [by exists e|]. split; [done|]. split; [done|].
  rewrite update_truthy by done. cbv zeta.
  match goal with
  | |- context [for_range ?body ?start ?n ?st] =>
      pose proof (for_range_update_index_error (frame_intensity a) n
                    start st Hi) as Hloop
  end.
  cbn [trails orbs set_trails set_trail_surface set_glow_intensity]
    in Hloop.
  destruct (for_range _ _ _ _) as [[[]|e'] v1]; cbn [fst] in *;
    apply Hloop; lia.
Qed.

Lemma failed_replay_breaks_update_witness :
  (update (Some {["intensity"%string := PyInt 0]}) "sleep"
     (draw_stored_pattern []
        (PatternDict {["trails"%string := [[(0, 0, 0); (1, 1, 2)]]]})
        (init 800 600)).2).1 = Raised IndexError.
Proof.
  apply (failed_replay_breaks_update []
           {["trails"%string := [[(0, 0, 0); (1, 1, 2)]]]}
           [[(0, 0, 0); (1, 1, 2)]] (init 800 600)).
  - apply lookup_singleton_eq.
  - apply overdriven_trail_not_drawable.
  - cbn. lia.
  - apply truthy_Some_size. rewrite map_size_singleton. lia.
  - rewrite (proj2 silent_zero_frame). lra.
Defined.

(** ** The fade of the conclusion outlives [reset] *)

(** X20: [draw_conclusion] with a progress in [0, 1] sets [fade_alpha] to
    [int(255 * (1 - progress))], which lies in 0..255, and gives the trail
    layer that alpha, whether it returns or raises; nothing else changes
    but the glow layer.  A [reset] afterwards puts [fade_alpha] back to
    255 but leaves the alpha of the trail layer where it is: after any
    progress above 0 the instance is not as a fresh one. *)
Theorem reset_does_not_undo_fade (category : string) (progress : R)
    (v : Visualizer) (screen : Surface) :
  0 <= progress <= 1 ->
  let v' := (draw_conclusion category progress (v, screen)).2.1 in
  let fade := py_int (255 * (1 - progress)) in
  (0 <= fade <= 255)%Z /\
  fade_alpha v' = fade /\
  trail_surface_alpha v' = fade /\
  set_glow_surface [] v' =
    set_glow_surface []
      (set_trail_surface_alpha fade (set_fade_alpha fade v)) /\
  fade_alpha (reset v').2 = 255%Z /\
  trail_surface_alpha (reset v').2 = fade /\
  (0 < progress ->
   forall w h, ~ equal_up_to_color_and_angle (reset v').2 (init w h)).
Proof.
  intros [Hp0 Hp1]. cbv zeta.
  set (fade := py_int (255 * (1 - progress))).
  assert (0 <= fade <= 255)%Z as Hfade.
  { unfold fade. apply py_int_bounds; lra. }
  pose proof (draw_conclusion_state category progress v screen) as Hst.
  cbv zeta in Hst. fold fade in Hst.
  rewrite set_alpha_in_range in Hst by exact Hfade. cbn [snd] in Hst.
  set (v' := (draw_conclusion category progress (v, screen)).2.1) in *.
  assert (fade_alpha v' = fade) as Hf.
  { change (fade_alpha (set_glow_surface [] v') = fade). by rewrite Hst. }
  assert (trail_surface_alpha v' = fade) as Ha.
  { change (trail_surface_alpha (set_glow_surface [] v') = fade).
    by rewrite Hst. }
  split; [exact Hfade|]. split; [exact Hf|]. split; [exact Ha|].
  split; [exact Hst|]. split; [reflexivity|]. split; [exact Ha|].
  intros Hpos w h [Heq _].
  apply (f_equal trail_surface_alpha) in Heq.
  cbn [trail_surface_alpha set_orbs init] in Heq.
  change (trail_surface_alpha (reset v').2) with (trail_surface_alpha v')
    in Heq.
  rewrite Ha in Heq.
  assert (fade <= 254)%Z; [|lia].
  unfold fade, py_int. destruct (Rle_dec 0 _) as [_|Hn]; [|lra].
  destruct (base_Int_part (255 * (1 - progress))) as [Hle _].
  apply Z.lt_succ_r, lt_IZR. rewrite succ_IZR. lra.
Qed.

Lemma reset_does_not_undo_fade_witness :
  trail_surface_alpha
    (reset (draw_conclusion "sleep" 0.5 (init 800 600, [])).2.1).2 =
  py_int (255 * (1 - 0.5)).
Proof.
  apply (reset_does_not_undo_fade "sleep" 0.5 (init 800 600) []). lra.
Defined.

(** ** The timer and the back button on the screen *)

Lemma Int_part_IZR (z : Z) : Int_part (IZR z) = z.
Proof. symmetry. apply Int_part_spec. lra. Qed.

Lemma py_int_IZR (z : Z) : py_int (IZR z) = z.
Proof.
  unfold py_int. destruct (Rle_dec 0 (IZR z)) as [_|_]; [apply Int_part_IZR|].
  rewrite <- opp_IZR, Int_part_IZR. lia.
Qed.

Lemma py_int_floor (x : R) :
  0 <= x -> IZR (py_int x) <= x < IZR (py_int x) + 1.
Proof.
  intros Hx. unfold py_int. destruct (Rle_dec 0 x) as [_|Hn]; [|done].
  destruct (base_Int_part x) as [Hle Hgt]. lra.
Qed.

Lemma timer_minutes_floor (t : R) :
  timer_minutes t = Int_part (t / 60) /\
  t = 60 * IZR (timer_minutes t) + py_mod t 60.
Proof.
  unfold timer_minutes, py_floordiv. rewrite py_int_IZR.
  split; [done|]. unfold py_mod. lra.
Qed.

Lemma string_length_app (s1 s2 : string) :
  String.length (s1 +:+ s2) = (String.length s1 + String.length s2)%nat.
Proof.
  induction s1 as [|c s1 IH]; [reflexivity|].
  change (S (String.length (s1 +:+ s2)) =
          S (String.length s1 + String.length s2)).
  by rewrite IH.
Qed.

Lemma format_02d_length (n : Z) :
  (0 <= n < 100)%Z -> String.length (format_02d n) = 2%nat.
Proof.
  intros Hn.
  assert (exists k : nat, (k < 100)%nat /\ n = Z.of_nat k) as (k & Hk & ->)
    by (exists (Z.to_nat n); lia).
  clear Hn.
  do 100 (destruct k as [|k]; [by vm_compute|]).
  lia.
Qed.

(** X19: the clock of [draw_timer] shows the whole seconds elapsed: the
    seconds shown lie between 0 and 59, and the minutes and seconds
    together are the elapsed time rounded down to a second, also for a
    negative time, whose minutes are then negative.  The minutes are
    never reduced modulo the hour, and below 100 minutes the text has the
    five characters of [MM:SS]. *)
Theorem timer_shows_whole_elapsed_seconds (t : R) :
  let m := timer_minutes t in
  let s := timer_seconds t in
  (0 <= s <= 59)%Z /\
  IZR (60 * m + s) <= t < IZR (60 * m + s) + 1 /\
  ((0 <= m)%Z <-> 0 <= t) /\
  (0 <= t < 6000 -> (0 <= m <= 99)%Z /\ String.length (time_text t) = 5%nat).
Proof.
  cbv zeta.
  destruct (timer_minutes_floor t) as [Hm Hsplit].
  destruct (py_mod_bounds t 60) as [Hr0 Hr60]; [lra|].
  destruct (py_int_floor (py_mod t 60) Hr0) as [Hs0 Hs1].
  fold (timer_seconds t) in Hs0, Hs1.
  assert (0 <= timer_seconds t <= 59)%Z as Hs.
  { split.
    - apply Z.lt_succ_r, lt_IZR. rewrite succ_IZR. lra.
    - apply Z.lt_succ_r, lt_IZR. rewrite succ_IZR. lra. }
  assert (IZR (60 * timer_minutes t + timer_seconds t) =
          60 * IZR (timer_minutes t) + IZR (timer_seconds t)) as Hsum
    by (rewrite plus_IZR, mult_IZR; lra).
  assert ((0 <= timer_minutes t)%Z <-> 0 <= t) as Hsign.
  { split.
    - intros Hpos%IZR_le. lra.
    - intros Ht. apply Z.lt_succ_r, lt_IZR. rewrite succ_IZR. lra. }
  split_and!; [lia|lia|lra|lra|exact Hsign|].
  intros [Ht0 Ht1].
  assert (0 <= timer_minutes t <= 99)%Z as Hmin.
  { split; [by apply Hsign|].
    apply Z.lt_succ_r, lt_IZR. rewrite succ_IZR. lra. }
  split; [exact Hmin|].
  unfold time_text.
  rewrite !string_length_app, !format_02d_length by lia. reflexivity.
Qed.

Lemma timer_shows_whole_elapsed_seconds_witness :
  String.length (time_text 75) = 5%nat.
Proof.
  destruct (timer_shows_whole_elapsed_seconds 75) as (_ & _ & _ & Htext).
  apply Htext. lra.
Defined.

(** X21: what [draw_back_button] draws lies on the button that
    [handle_click] tests: outside screenshot mode, a click on any pixel
    strictly inside the drawn disc, or on a corner of the drawn arrow,
    returns ['selection'].  The converse fails: the corner of the
    button's square is clickable but off the disc.  Drawing the button
    changes nothing of the instance. *)
Theorem drawn_back_button_is_clickable (w h : Z) (surface : Screen)
    (v : Visualizer) :
  reachable w h v ->
  screenshot_mode v = false ->
  exists drawn,
    draw_back_button surface v = (Returned (surface ++ drawn), v) /\
    (exists c centre radius, Circle c centre radius ∈ drawn) /\
    (forall c centre radius pos,
       Circle c centre radius ∈ drawn ->
       inside_circle centre radius pos ->
       handle_click v pos = Some "selection"%string) /\
    (forall c points pos,
       Polygon c points ∈ drawn -> pos ∈ points ->
       handle_click v pos = Some "selection"%string) /\
    (handle_click v (20, 20)%Z = Some "selection"%string /\
     forall c centre radius,
       Circle c centre radius ∈ drawn ->
       ~ inside_circle centre radius (20, 20)%Z).
Proof.
  intros Hreach Hmode.
  destruct (reachable_invariant w h v Hreach) as (Hc & _ & _).
  pose proof (constructed_back_button w h v Hc) as Hrect.
  assert (forall pos, on_back_button pos ->
                      handle_click v pos = Some "selection"%string) as Hclick.
  { intros pos Hpos. by apply handle_click_on_back_button. }
  eexists. unfold draw_back_button, ret. rewrite <- app_assoc.
  split; [reflexivity|]. cbn [app]. split_and!.
  - eexists _, _, _. apply elem_of_cons. by left.
  - intros c centre radius pos Hin Hinside. apply Hclick.
    apply elem_of_cons in Hin as [Heq | Hin].
    + injection Heq as -> -> ->.
      destruct pos as [x y].
      unfold inside_circle in Hinside. unfold on_back_button.
      cbn [fst snd] in *.
      pose proof (Z.square_nonneg (x - 40)) as Hx.
      pose proof (Z.square_nonneg (y - 40)) as Hy.
      assert (-20 < x - 40 < 20)%Z by nia.
      assert (-20 < y - 40 < 20)%Z by nia.
      lia.
    + apply elem_of_cons in Hin as [Heq | Hin]; [done|].
      by apply elem_of_nil in Hin.
  - intros c points pos Hin Hpos. apply Hclick.
    apply elem_of_cons in Hin as [Heq | Hin]; [done|].
    apply elem_of_cons in Hin as [Heq | Hin];
      [|by apply elem_of_nil in Hin].
    injection Heq as -> ->.
    repeat (apply elem_of_cons in Hpos as [-> | Hpos];
            [unfold on_back_button; cbn [fst snd]; lia|]).
    by apply elem_of_nil in Hpos.
  - apply Hclick. unfold on_back_button. cbn [fst snd]. lia.
  - intros c centre radius Hin.
    apply elem_of_cons in Hin as [Heq | Hin].
    + injection Heq as -> -> ->. unfold inside_circle. cbn [fst snd]. lia.
    + apply elem_of_cons in Hin as [Heq | Hin]; [done|].
      by apply elem_of_nil in Hin.
Qed.

Lemma drawn_back_button_is_clickable_witness :
  exists drawn,
    draw_back_button [] (init 800 600) = (Returned ([] ++ drawn), init 800 600).
Proof.
  destruct (drawn_back_button_is_clickable 800 600 [] (init 800 600))
    as (drawn & Hdraw & _); [apply reach_init|reflexivity|].
  by exists drawn.
Defined.
